(* ===== verification/_CoqProject ===== *)
-Q . S2P
Prelude.v
Float64.v
Models.v
IsoDate.v
Streaks.v
Statistics.v
Dict.v
Repository.v
Services.v
SQLite.v
SQLiteLog.v
Api.v
Lifecycle.v
Backends.v
Wiring.v
