(* ===== verification/Prelude.v ===== *)
(** * A verification development for the habit-tracking service

    The repository (Python, [src/app]) is a small habit tracker: habits
    (boolean or numeric, with an optional goal and a tree of sub-habits),
    dated log entries, and statistics computed from the logs.

    ** The program and how its parts interact

    - [app/core/models.py]: the records [Habit] and [LogEntry] and the enum
      [HabitType].  Modelled in [Models.v] (Records with the source's
      fields, an Inductive with the two constructors).
    - [app/core/statistics.py], the statistics engine and the core of the
      program.  [StatisticsCalculator._filter_logs_by_date] keeps the
      entries inside an optional inclusive window;
      [_calculate_streaks] walks back from [date.today()] for the current
      streak and scans the sorted completed dates for the longest one;
      [BooleanStatisticsCalculator.calculate] and
      [NumericStatisticsCalculator.calculate] build the set of completed
      dates by their completion rules and aggregate;
      [StatisticsCalculatorFactory] is a registry from habit type to
      calculator.  The streak algorithm is modelled in [Streaks.v]; the
      calculators and the registry in [Statistics.v].
    - [app/db/repository.py], [app/db/in_memory.py]: the two store
      interfaces and their in-memory implementations (a dict of habits, a
      list of logs).  Modelled in [Repository.v].
    - [app/db/sqlite.py]: the same interfaces over two SQLite tables.
      The habit store is modelled in [SQLite.v], the log store in
      [SQLiteLog.v]; the log store writes dates as ISO text
      ([date.isoformat()]), compares and sorts that text in SQL, and reads
      it back with [date.fromisoformat], standard-library functions
      modelled in [IsoDate.v].
    - Python's [float] arithmetic, which the averages go through:
      [Float64.v].
    - [app/core/services.py]: [HabitService], which reads and writes the
      stores and calls the engine, raising [ValueError] when a habit is
      missing.  Modelled in [Services.v].
    - [app/api]: the router over the service ([Api.v]).
    - [src/main.py]: [build_app] reads [USE_SQLITE] and [DB_PATH] and
      builds the service over the SQLite stores of that file or over
      empty in-memory stores, and the router over it ([Wiring.v]);
      [app/main.py] is its in-memory variant ([Lifecycle.v]).

    ** How the code is modelled

    - Dates are [datetime.date] values, modelled by their proleptic
      Gregorian ordinal ([date.toordinal()]) as a [Z] in
      [[date_min_ordinal, date_max_ordinal]] = [[1, 3652059]].
      Subtracting a day below [date.min] raises [OverflowError] in Python,
      and so it does in the model ([date_sub_days]).
    - Log values, goals and averages are Python [float]s, modelled as the
      rationals they are ([Q]).  Python compares floats exactly, so the
      completion rules ([>= 1.0], [>= goal], [> 0]) need no rounding; the
      average ([sum(values) / len(values)]) is computed as CPython 3.11
      computes it, rounding to the nearest double after each addition
      and after the division ([Float64.fl]), so it depends on the order
      of the values.  The completion rate [completions / total_days] is
      a division of two [int]s, which CPython rounds once to the nearest
      double; it raises [ZeroDivisionError] when the divisor is [0], and
      the theorems show the guard of the code keeps it from raising.
      [fl] returns the reduced fraction of the double, so equal floats
      are equal terms.
    - Python exceptions are values of [exn]; a fallible computation
      returns a [Result].  Stateful code runs in the state-and-exception
      monad [PyM]: as in Python, the writes done before an exception is
      raised stay in the state.
    - [date.today()] and [uuid.uuid4()] are inputs of the model: the
      calculators take [today] as an argument, and the operations that
      create a record take its fresh id and its timestamp.

    ** Files, and what each one proves

    - [Prelude.v] (this file): the exception type, [Result] and the
      relation [res_rel] between two results, the [PyM] monad and its
      notations, the [habits] hint database, and the shared lemmas on
      sets, lists and rationals.
    - [Float64.v]: binary64 rounding to nearest, ties to even, on [Q]
      ([fl]), the float [+] and [/] of the code, and [sum] as a left fold
      of rounded additions ([py_fsum]); rounding keeps [[0, 1]]
      ([fl_unit]), which bounds the rate.
    - [Models.v]: dates, [in_window], [opt_valid_date], [HabitType], [LogEntry],
      [Habit] with one setter per assignment the service makes, and the
      [HabitUpdate] request of [app/api/schemas.py].
    - [IsoDate.v]: CPython's proleptic-Gregorian conversions
      [_ymd2ord]/[_ord2ymd], [date.isoformat()] (["%04d-%02d-%02d"]),
      CPython 3.11's [date.fromisoformat] (its C parser: the UTF-8 length
      7, 8 or 10, the extended, basic and ISO week forms, the range
      checks of [check_date_args] and their messages), and SQLite's
      [BINARY] collation ([String.compare]).  It proves that the
      conversions are inverse bijections on [[date.min, date.max]]
      ([calendar_bijection]), that [fromisoformat] inverts [isoformat]
      ([date_iso_roundtrip]) and returns only valid dates, and that
      comparing the ISO texts is comparing the dates
      ([date_isoformat_compare]).
    - [Streaks.v]: [_calculate_streaks] as two loops.  The walk back from
      [today] ([current_streak_loop]) is proved to terminate and to give
      the maximal run of completed days ending today; the scan of the
      sorted dates ([longest_streak_loop]) to give the length of a longest
      run, against the specification [run]/[is_longest]; the only error is
      [OverflowError], exactly when every day from [date.min] to [today]
      is completed.
    - [Statistics.v]: both calculators and the registry.  Each calculator
      is shown equal to one reference form ([stats_of]) with its
      completion rule; from it follow the counts of completions, the
      bounds of the rate, the result on an empty window (where the guard
      of the rate matters), the order of the streaks and the laws of the
      calculator interface ([CalculatorLaws]), which the service relies
      on: reordering the entries changes at most the order in which the
      average sums its values ([calculate_perm]).
    - [Dict.v]: Python's insertion-ordered [dict] (as an association list
      with distinct keys) and [sorted] (a stable insertion sort), with the
      lookup laws of a finite map, sortedness, permutation and stability.
    - [Repository.v]: the two [Protocol]s as type classes, the laws the
      service needs as law classes (the log store's with an invariant
      [log_repo_wf] and valid dates), and the in-memory stores as instances
      that keep them; listing order and the stability of
      [list_for_habit].
    - [Services.v]: every method of [HabitService], generic in any stores
      that keep the laws.  The theorems give each method's effect on the
      stores on every branch (missing ids, fresh ids, the cascade of
      [delete_habit]), the round trip [record_log]/[get_logs], and the
      statistics returned with the default registry.  They also show two
      defects of the code: a deleted sub-habit's id stays in its parent's
      [subhabit_ids], so the parent can no longer be deleted; and a habit
      added as its own sub-habit makes [delete_habit] raise
      [RecursionError].  Witnesses run the methods on the in-memory stores.
    - [SQLite.v]: the SQLite habit store, as a list of rows in [rowid]
      order, with [sqlite3.IntegrityError] on a duplicate primary key and
      the [UPDATE] of five columns.  It keeps the laws of [Repository.v],
      so the theorems of [Services.v] hold over SQLite too.  The file
      proves the round trip of a habit through a row and that the SQLite
      and in-memory habit stores agree along every sequence of the writes
      the service makes (a simulation).  It also shows where they differ:
      a duplicate id (replaced in memory, [IntegrityError] in SQLite) and
      an update of the type, creation time or parent.
    - [SQLiteLog.v]: the SQLite log store, rows holding the ISO text of
      the date, the [WHERE] clause comparing texts, and [ORDER BY date] as
      the class [OrderByDate] whose tie order is left open.  It proves that
      the text query returns exactly the habit's entries of the window,
      sorted by date ([SQLiteLogRepository_list_for_habit_spec]), the
      round trip of [add] and [list_all] with its [IntegrityError], that
      the store keeps the laws of [Repository.v], that the SQLite and
      in-memory log stores agree along appended entries
      ([log_stores_simulation]), and that the service reads alike over the
      two backends ([service_backends_agree]), entries of one date apart
      ([list_for_habit_tie_order]) and the average they sum.  All of it
      holds on tables of rows as [add] writes them ([canonical_row]):
      [fromisoformat] also reads texts such as [20240115], whose order as
      text is not the order of their dates.
    - [Api.v]: [app/api/controllers.py] and [app/api/schemas.py].  The
      request schemas with their [Field] constraints, the response
      schemas, the nine handlers of [create_router] (Module
      [Controllers]) as [PyM] actions on the service, and [handle], the
      dispatch FastAPI does: 422 for a body that fails its schema, the
      handler, 500 for an exception no handler catches.  [handle_status]
      gives the status of every valid request on every branch (201/200,
      the 404s of a missing habit, and a 500 only from [RecursionError]
      in [DELETE] or [OverflowError] in [GET /stats]); [handle_state]
      gives its effect on the stores.
    - [Lifecycle.v]: the states the API reaches from the empty stores by
      requests with new ids ([api_reachable]).  In each of them the
      links of [subhabit_ids] point forward in creation order
      ([links_forward]), so no habit is its own descendant
      ([api_links_acyclic]) and [DELETE] never raises [RecursionError]
      when the recursion limit exceeds the number of habits
      ([api_delete_within_limit]).  The measure is [rank], the number of
      habits stored after an id.
    - [Backends.v]: the in-memory and the SQLite applications side by
      side.  [sim P RA c1 c2] relates a run over the in-memory stores to
      a run over SQLite from agreeing stores ([svc_agree]); the
      combinators [sim_bind], [sim_seq], [sim_read_habit] and
      [sim_habit_op] relate every service method, controller and route to
      itself, and [serve_sim] a whole sequence of requests with new ids:
      the responses are the same but for the order of entries of one date
      in [GET /habits/{id}/logs] and the average of [GET /stats] summed
      over them ([response_rel]).  Where ids collide the
      backends part: [post_habit_id_collision] (201 in memory, 500 over
      SQLite).
    - [Wiring.v]: [build_app] of [src/main.py]: the environment as a dict,
      [str.lower] on code points below 256, the database file as the two
      tables it may hold ([database]), the application as the service
      over one backend ([App], [app_serve]).  It proves which settings
      choose SQLite (exactly the sixteen case spellings of ["true"]) and
      the file ([build_app_config]), that the two configurations answer
      alike from a file without rows ([build_app_backends_agree]), and
      that the averages do differ with SQLite's tie order, [0.1], [0.2],
      [0.3] giving [0.20000000000000004] or [0.19999999999999998]
      ([build_app_average_tie_order]).

    ** Fuel

    - [current_streak_loop] is a [while] loop; its fuel is [S (size s)]
      for the set [s] of completed dates, which is enough because each
      iteration but the last consumes a distinct member of [s]
      ([current_streak_loop_fuel_indep]: more fuel changes nothing and
      this fuel never runs out).
    - [delete_habit] is recursive in Python and bounded by the
      interpreter's recursion limit; its fuel is that limit, and running
      out raises [RecursionError] as Python does.  On a tree of sub-habits
      of depth below the fuel the cascade theorem applies; in a state the
      API reaches, the depth is below the number of stored habits
      ([Lifecycle.delete_bound]), so a limit above that number is enough.
    - The correctness of [_ord2ymd] is a finite check over one 400-year
      cycle of the calendar ([check_cycle], 146097 ordinals evaluated by
      [vm_compute]); both conversions shift by 400 years per 146097 days
      ([_ord2ymd_shift], [_ymd2ord_shift]), which carries the check to every
      ordinal.

    ** Not modelled

    - The text encodings of [app/db/sqlite.py] other than the date: the
      timestamps ([datetime.isoformat] of [created_at]) and the JSON list
      of sub-habit ids are round trips of the standard library, and the
      columns hold the decoded values.  Connections, the
      database file and its [FOREIGN KEY] (which SQLite does not enforce
      without [PRAGMA foreign_keys]) are not modelled; the file is the
      two tables it holds, each SQLite write committed at once.
    - The ASGI server and FastAPI's routing by URL: a request reaches the
      model already matched to its route ([Api.Request]), and a sequence
      of requests is served one after the other ([Backends.serve]).
      JSON encoding of request and response bodies: the model's requests
      and responses hold the decoded values.
    - Floats beyond the largest double ([inf]) and [nan]: the model's
      floats are finite, as the request schemas' values are.
    - Python 3.12 and later sum floats with compensation (the
      repository names no Python version); the model is 3.11's [sum]
      and [date.fromisoformat], both differentially tested against
      CPython 3.11.
*)

From Stdlib Require Export QArith ZArith Lia.
From stdpp Require Export base gmap sets list strings sorting.
(** [QArith] opens [Q_scope]; numerals are natural numbers by default. *)
Open Scope nat_scope.

(** ** Python exceptions and results *)

(** The exception classes the modelled code raises. *)
Inductive exn : Type :=
| ValueError (msg : string)
| KeyError (msg : string)
| OverflowError (msg : string)
| RecursionError
| IntegrityError (msg : string)
| ZeroDivisionError (msg : string).

#[export] Instance exn_eq_dec : EqDecision exn.
Proof. solve_decision. Defined.

(** A computation that returns a value or raises. *)
Inductive Result (A : Type) : Type :=
| Ok (a : A)
| Raise (e : exn).
Arguments Ok {A} a.
Arguments Raise {A} e.

#[export] Instance Result_eq_dec {A} `{EqDecision A} : EqDecision (Result A).
Proof. solve_decision. Defined.

Definition res_bind {A B} (c : Result A) (k : A -> Result B) : Result B :=
  match c with
  | Ok a => k a
  | Raise e => Raise e
  end.

(** [is_ok r] holds when [r] did not raise. *)
Definition is_ok {A} (r : Result A) : bool :=
  match r with Ok _ => true | Raise _ => false end.

(** ** The state-and-exception monad

    [PyM S A] threads a state [S] (the stores) and may raise; the state
    reached when the exception is raised is returned with it, as the
    mutations done by a Python method before it raises are not undone. *)
Definition PyM (S A : Type) : Type := S -> Result A * S.

(** The same exception, or results related by [RA]. *)
Definition res_rel {A B} (RA : A -> B -> Prop) (r1 : Result A) (r2 : Result B) : Prop :=
  match r1, r2 with
  | Ok a, Ok b => RA a b
  | Raise e1, Raise e2 => e1 = e2
  | _, _ => False
  end.

Definition pret {S A} (a : A) : PyM S A := fun s => (Ok a, s).
Definition praise {S A} (e : exn) : PyM S A := fun s => (Raise e, s).
Definition pbind {S A B} (c : PyM S A) (k : A -> PyM S B) : PyM S B :=
  fun s =>
    match c s with
    | (Ok a, s') => k a s'
    | (Raise e, s') => (Raise e, s')
    end.
Definition pget {S} : PyM S S := fun s => (Ok s, s).
Definition pput {S} (s : S) : PyM S unit := fun _ => (Ok tt, s).
(** Lift a pure fallible computation. *)
Definition plift {S A} (r : Result A) : PyM S A := fun s => (r, s).

Declare Scope py_scope.
Delimit Scope py_scope with py.
Notation "'let!' x := c 'in' k" := (res_bind c (fun x => k))
  (at level 10, x name, c at level 100, k at level 200) : py_scope.
Notation "x <- c ;; k" := (pbind c (fun x => k))
  (at level 100, c at next level, right associativity) : py_scope.
Notation "c ;;; k" := (pbind c (fun _ => k))
  (at level 100, right associativity) : py_scope.
Open Scope py_scope.

(** Run a monadic function over a list, left to right ([for x in l: f(x)]):
    the first exception stops the loop. *)
Fixpoint pfor {S A} (l : list A) (f : A -> PyM S unit) : PyM S unit :=
  match l with
  | [] => pret tt
  | x :: l' => pbind (f x) (fun _ => pfor l' f)
  end.

(** A list comprehension [[f(x) for x in l]] whose [f] may raise: the
    first exception stops it. *)
Fixpoint res_map {A B} (f : A -> Result B) (l : list A) : Result (list B) :=
  match l with
  | [] => Ok []
  | x :: l' => let! y := f x in let! ys := res_map f l' in Ok (y :: ys)
  end.

(** ** Comparisons of rationals (Python's float comparisons) *)

#[export] Instance Q_le_dec (x y : Q) : Decision (x <= y)%Q.
Proof. destruct (Qlt_le_dec y x) as [H|H]; [right; by apply Qlt_not_le|by left]. Defined.

#[export] Instance Q_lt_dec (x y : Q) : Decision (x < y)%Q.
Proof. destruct (Qlt_le_dec x y) as [H|H]; [by left|right; by apply Qle_not_lt]. Defined.

(** ** Automation *)

Create HintDb habits discriminated.
Hint Constants Transparent : habits.

(** Unfold the monad's combinators on a concrete run. *)
Ltac pyunfold := unfold pbind, pret, praise, pget, pput, plift, res_bind in *.

(** Case on the [decide]s and [match]es of the goal, then close the
    routine cases. *)
Ltac py_cases :=
  repeat (first [case_decide | case_match]); simplify_eq/=; try done.

(** ** Shared lemmas *)

Section SetFacts.
Context `{Countable A}.

Lemma size_insert_le (x : A) (s : gset A) : size ({[x]} ∪ s) ≤ S (size s).
Proof.
  rewrite size_union_alt, size_singleton.
  pose proof (subseteq_size (s ∖ {[x]}) s ltac:(set_solver)). lia.
Qed.

Lemma size_list_to_set_le (l : list A) : size (list_to_set l : gset A) ≤ length l.
Proof.
  induction l as [|x l IH].
  - change (list_to_set [] : gset A) with (∅ : gset A). rewrite size_empty. lia.
  - change (list_to_set (x :: l) : gset A) with ({[x]} ∪ list_to_set l : gset A).
    etrans; [apply size_insert_le|]. simpl. lia.
Qed.
End SetFacts.

Section ListFacts.
Context {A : Type}.

(** A filter whose predicate holds on every element keeps the list. *)
Lemma list_filter_all (P : A -> Prop) `{!∀ x, Decision (P x)} (l : list A) :
  (∀ x, x ∈ l -> P x) -> filter P l = l.
Proof.
  induction l as [|x l IH]; intros HP; [done|].
  rewrite filter_cons_True by (apply HP; set_solver). rewrite IH; [done|].
  intros y Hy. apply HP. set_solver.
Qed.

(** A filter whose predicate fails on every element empties the list. *)
Lemma list_filter_none (P : A -> Prop) `{!∀ x, Decision (P x)} (l : list A) :
  (∀ x, x ∈ l -> ¬ P x) -> filter P l = [].
Proof.
  induction l as [|x l IH]; intros HP; [done|].
  rewrite filter_cons_False by (apply HP; set_solver). apply IH.
  intros y Hy. apply HP. set_solver.
Qed.

(** Keys that are distinct stay distinct in a sub-list. *)
Lemma NoDup_fmap_filter {B} (f : A -> B) (P : A -> Prop) `{!∀ x, Decision (P x)} (l : list A) :
  NoDup (f <$> l) -> NoDup (f <$> filter P l).
Proof.
  intros Hnd. eapply sublist_NoDup; [exact Hnd|].
  induction l as [|x l IH]; simpl; [done|]. apply NoDup_cons in Hnd as [_ Hnd].
  rewrite filter_cons. case_decide; simpl; [apply sublist_skip|apply sublist_cons]; by apply IH.
Qed.

Lemma elem_of_concat (x : A) (ls : list (list A)) :
  x ∈ concat ls <-> ∃ l, l ∈ ls ∧ x ∈ l.
Proof.
  induction ls as [|l ls IH]; simpl; [set_solver|].
  rewrite elem_of_app, IH. set_solver.
Qed.
(** The images of a list under a functional relation. *)
Lemma elem_of_Forall2_r {B} (R : A -> B -> Prop) (l : list A) (k : list B) y :
  (∀ x y1 y2, R x y1 -> R x y2 -> y1 = y2) ->
  Forall2 R l k -> y ∈ k <-> ∃ x, x ∈ l ∧ R x y.
Proof.
  intros Hfun HR. induction HR as [|x0 y0 l k Hxy HR IH]; [set_solver|].
  rewrite elem_of_cons, IH. split.
  - intros [->|(x & ? & ?)]; [exists x0; split; [left|]|exists x; split; [right|]]; done.
  - intros (x & [->|Hx]%elem_of_cons & Hr); [left; by eapply Hfun|right; by exists x].
Qed.
(** Mapping after filtering by the image is filtering the image. *)
Lemma fmap_filter_image {B} (P : B -> Prop) `{!∀ y, Decision (P y)} (f : A -> B) (l : list A) :
  f <$> filter (λ x, P (f x)) l = filter P (f <$> l).
Proof.
  induction l as [|a k IHk]; [reflexivity|].
  rewrite fmap_cons, filter_cons, (filter_cons P).
  destruct (decide (P (f a))) as [Hin|Hout]; [by rewrite fmap_cons, IHk|exact IHk].
Qed.

Lemma Permutation_fmap_inv {B} (f : A -> B) (l : list A) (k : list B) :
  k ≡ₚ f <$> l -> ∃ l', k = f <$> l' ∧ l' ≡ₚ l.
Proof.
  assert (Hmap : ∀ l0 : list A, f <$> l0 = map f l0) by (induction l0 as [|? ? IHl]; [done|]; by rewrite fmap_cons, IHl).
  intros Hk. rewrite Hmap in Hk. destruct (Permutation_map_inv _ _ Hk) as (l' & -> & Hp).
  exists l'. split; [symmetry; apply Hmap|done].
Qed.

(** [Sorted_fmap] backwards, for the elements of the list. *)
Lemma Sorted_fmap_inv {B} (f : A -> B) (P : A -> Prop) (R1 : relation A) (R2 : relation B)
    (l : list A) :
  Forall P l -> (∀ x y, P x -> P y -> R2 (f x) (f y) -> R1 x y) ->
  Sorted R2 (f <$> l) -> Sorted R1 l.
Proof.
  intros HP HR. induction HP as [|x l Hx HP IH]; [constructor|].
  rewrite fmap_cons. intros [Hs Hhd]%Sorted_inv. constructor; [by apply IH|].
  destruct HP as [|y l Hy _]; constructor. inversion Hhd. by apply HR.
Qed.

Lemma res_map_Forall2 {B} (f : A -> Result B) (l : list A) (k : list B) :
  res_map f l = Ok k <-> Forall2 (λ x y, f x = Ok y) l k.
Proof.
  revert k. induction l as [|x l IH]; intros k; simpl.
  - split; [by intros [= <-]|by inversion 1].
  - split.
    + destruct (f x) as [y|e] eqn:Hx; simpl; [|done].
      destruct (res_map f l) as [ys|e] eqn:Hl; simpl; [|done].
      intros [= <-]. constructor; [done|]. by apply IH.
    + intros (y & ys & Hx & Hl & ->)%Forall2_cons_inv_l. rewrite Hx. simpl.
      apply IH in Hl. by rewrite Hl.
Qed.

(** [list_filter_iff] for predicates that agree on the list's elements. *)
Lemma list_filter_iff_Forall (Q P1 P2 : A -> Prop) `{!∀ x, Decision (P1 x), !∀ x, Decision (P2 x)}
    (l : list A) :
  Forall Q l -> (∀ x, Q x -> P1 x <-> P2 x) -> filter P1 l = filter P2 l.
Proof.
  intros HQ HP. induction HQ as [|x l Hx _ IH]; [done|]. rewrite !filter_cons.
  destruct (decide (P1 x)), (decide (P2 x)); rewrite IH; naive_solver.
Qed.

Lemma res_map_is_ok {B} (f : A -> Result B) (l : list A) :
  Forall (λ x, is_ok (f x) = true) l -> ∃ k, res_map f l = Ok k.
Proof.
  induction 1 as [|x l Hx _ [k IH]]; [by eexists|].
  destruct (f x) as [y|] eqn:Hfx; [|done]. exists (y :: k). simpl. by rewrite Hfx, IH.
Qed.
End ListFacts.

Section QFacts.
Local Open Scope Q_scope.

Lemma Qnat_le (a b : nat) : (a ≤ b)%nat -> inject_Z (Z.of_nat a) <= inject_Z (Z.of_nat b).
Proof. intros Hab. rewrite <- Zle_Qle. lia. Qed.

Lemma Qnat_pos (b : nat) : (0 < b)%nat -> 0 < inject_Z (Z.of_nat b).
Proof. intros Hb. change 0 with (inject_Z 0). rewrite <- Zlt_Qlt. lia. Qed.

Lemma Qnat_nonneg (a : nat) : 0 <= inject_Z (Z.of_nat a).
Proof. change 0 with (inject_Z 0). rewrite <- Zle_Qle. lia. Qed.

(** A quotient of naturals [a / b] with [a <= b] and [b > 0] is in [[0, 1]]. *)
Lemma Qdiv_nat_unit (a b : nat) :
  (a ≤ b)%nat -> (0 < b)%nat ->
  0 <= inject_Z (Z.of_nat a) / inject_Z (Z.of_nat b) <= 1.
Proof.
  intros Hab Hb. pose proof (Qnat_pos b Hb) as Hp. split.
  - apply Qle_shift_div_l; [done|]. rewrite Qmult_0_l. apply Qnat_nonneg.
  - apply Qle_shift_div_r; [done|]. rewrite Qmult_1_l. by apply Qnat_le.
Qed.

End QFacts.

#[export] Hint Resolve size_insert_le size_list_to_set_le Qnat_nonneg Qnat_le : habits.
