(* ===== verification/Float64.v ===== *)
(** * Float64: Python's [float] arithmetic on rationals

    A Python [float] is an IEEE 754 binary64 double, and every finite
    double is a rational; the model keeps floats as [Q] and rounds the
    result of each arithmetic operation the code performs to the nearest
    double, ties to even ([fl]), as the hardware does.  Comparisons of
    doubles are exact, so they need no rounding.

    - [fl] rounds a rational onto the grid of doubles: 53 significant
      bits, and the subnormal spacing [2^-1074] below [2^-1022].  Results
      beyond the largest double (about [1.8e308]), which Python turns into
      [inf], are outside the model.
    - [py_fsum] is the builtin [sum] over a list of floats in CPython
      3.11: starting from the integer [0], it adds each item in order with
      one rounding per addition (CPython 3.12 and later use a compensated
      sum instead).
    - [py_fdiv x n] is [x / n] for a float [x] and a positive [int] [n]
      below [2^53], which converts exactly: one rounding.  The quotient
      of two [int]s is rounded once as well ([Statistics.py_int_truediv]).
    - [fl_unit]: the double nearest a rational of [[0, 1]] is in
      [[0, 1]]. *)

From S2P Require Import Prelude.

(** The integer nearest [n / d], ties to the even one. *)
Definition round_ne (n : Z) (d : positive) : Z :=
  let q := (n / Zpos d)%Z in
  let r := (n mod Zpos d)%Z in
  match Z.compare (2 * r) (Zpos d) with
  | Lt => q
  | Gt => q + 1
  | Eq => if Z.even q then q else q + 1
  end%Z.

(** [floor (log2 (a / d))] for [a > 0]: [Z.log2 a - Z.log2 d] or one less. *)
Definition exponent_of (a : Z) (d : positive) : Z :=
  let e := (Z.log2 a - Z.log2 (Zpos d))%Z in
  if (a * 2 ^ Z.max 0 (- e) <? Zpos d * 2 ^ Z.max 0 e)%Z then (e - 1)%Z else e.

(** The exponent of the last significant bit of the double nearest a
    rational of leading exponent [e]. *)
Definition ulp_exponent (e : Z) : Z := Z.max (e - 52) (-1074).

(** The double nearest [x], ties to even, as a reduced fraction (the
    [as_integer_ratio()] of the float). *)
Definition fl (x : Q) : Q :=
  let n := Qnum x in
  let d := Qden x in
  if (n =? 0)%Z then 0%Q
  else
    let k := ulp_exponent (exponent_of (Z.abs n) d) in
    let m := if (0 <=? k)%Z then round_ne (Z.abs n) (d * Z.to_pos (2 ^ k))
             else round_ne (Z.abs n * 2 ^ (- k)) d in
    let m := (Z.sgn n * m)%Z in
    Qred (if (0 <=? k)%Z then inject_Z (m * 2 ^ k) else Qmake m (Z.to_pos (2 ^ (- k)))).

(** [x + y] on floats. *)
Definition py_fadd (x y : Q) : Q := fl (x + y).

(** [sum(values)]: [0 + v0 = v0] exactly, then one rounding per item. *)
Definition py_fsum (values : list Q) : Q := fold_left py_fadd values 0%Q.

(** [x / n] for a float [x] and an [int] [n > 0]. *)
Definition py_fdiv (x : Q) (n : nat) : Q := fl (x / inject_Z (Z.of_nat n)).

(** The doubles [0.1], [0.2] and [0.3], as the parser of a JSON body
    reads the literals (their [float.as_integer_ratio()]). *)
Definition d0_1 : Q := 3602879701896397 # 36028797018963968.
Definition d0_2 : Q := 3602879701896397 # 18014398509481984.
Definition d0_3 : Q := 5404319552844595 # 18014398509481984.

(** ** Rounding keeps [[0, 1]] *)

Lemma round_ne_nonneg n d : (0 ≤ n)%Z -> (0 ≤ round_ne n d)%Z.
Proof.
  intros Hn. unfold round_ne. pose proof (Z.div_pos n (Zpos d) Hn ltac:(lia)).
  destruct (Z.compare _ _); [destruct (Z.even _)|..]; lia.
Qed.

(** Rounding [n / d <= N] to an integer gives at most [N]. *)
Lemma round_ne_le n d N : (0 ≤ n)%Z -> (n ≤ N * Zpos d)%Z -> (round_ne n d ≤ N)%Z.
Proof.
  intros Hn HN. unfold round_ne.
  pose proof (Z.div_mod n (Zpos d) ltac:(lia)) as Hdm.
  pose proof (Z.mod_pos_bound n (Zpos d) ltac:(lia)) as Hr.
  assert (Hq : (n / Zpos d ≤ N)%Z) by (apply Z.div_le_upper_bound; lia).
  assert (HqN : (n / Zpos d = N)%Z -> (n mod Zpos d = 0)%Z) by nia.
  destruct (Z.compare_spec (2 * (n mod Zpos d)) (Zpos d));
    [destruct (Z.even _)|..]; lia.
Qed.

Lemma exponent_of_nonpos a d : (0 < a ≤ Zpos d)%Z -> (exponent_of a d ≤ 0)%Z.
Proof.
  intros Ha. unfold exponent_of. pose proof (Z.log2_le_mono a (Zpos d) (proj2 Ha)).
  destruct (_ <? _)%Z; lia.
Qed.

(** The double nearest a rational of [[0, 1]] is in [[0, 1]]. *)
Lemma fl_unit q : (0 <= q <= 1)%Q -> (0 <= fl q <= 1)%Q.
Proof.
  destruct q as [n d]. intros [H0 H1]. unfold Qle in H0, H1; simpl in H0, H1.
  unfold fl. cbn [Qnum Qden]. destruct (Z.eqb_spec n 0) as [->|Hn]; [split; discriminate|].
  assert (Hk : (ulp_exponent (exponent_of (Z.abs n) d) < 0)%Z).
  { pose proof (exponent_of_nonpos (Z.abs n) d ltac:(lia)). unfold ulp_exponent. lia. }
  revert Hk. generalize (ulp_exponent (exponent_of (Z.abs n) d)). intros k Hk.
  destruct (Z.leb_spec 0 k); [lia|]. rewrite Qred_correct.
  assert (Hp : (0 < 2 ^ (- k))%Z) by (apply Z.pow_pos_nonneg; lia).
  pose proof (round_ne_nonneg (Z.abs n * 2 ^ (- k)) d ltac:(lia)).
  pose proof (round_ne_le (Z.abs n * 2 ^ (- k)) d (2 ^ (- k)) ltac:(lia) ltac:(nia)).
  rewrite Z.sgn_pos by lia. unfold Qle; simpl. rewrite Z2Pos.id by lia. lia.
Qed.
