(* ===== verification/Models.v ===== *)
(** * Models: the data of [app/core/models.py]

    [HabitType], [LogEntry] and [Habit] as an Inductive and Records with the
    fields of the dataclasses, [LogEntry.create], the [HabitUpdate] request
    schema of [app/api/schemas.py] that [HabitService.update_habit] reads,
    and the date arithmetic of Python's [datetime.date] that the
    statistics engine uses (ordinals, and [date - timedelta(days=n)] with
    its [OverflowError] below [date.min]). *)

From S2P Require Import Prelude.

(** ** Dates

    A [datetime.date] is modelled by its ordinal [d.toordinal()]:
    [date.min] = 0001-01-01 has ordinal 1 and [date.max] = 9999-12-31 has
    ordinal 3652059.  Consecutive days have consecutive ordinals, so
    [(d2 - d1).days] is [d2 - d1] on ordinals. *)
Abbreviation date := Z (only parsing).

Definition date_min_ordinal : Z := 1.
Definition date_max_ordinal : Z := 3652059.

Definition valid_date (d : date) : bool :=
  bool_decide (date_min_ordinal ≤ d ≤ date_max_ordinal)%Z.

(** [d - timedelta(days=n)]: [OverflowError] when the result falls outside
    [[date.min, date.max]]. *)
Definition date_sub_days (d : date) (n : Z) : Result date :=
  if valid_date (d - n)%Z then Ok (d - n)%Z
  else Raise (OverflowError "date value out of range").

(** An optional date ([date | None]) holds a valid date when given. *)
Definition opt_valid_date (d : option date) : bool :=
  match d with Some d => valid_date d | None => true end.

(** [d] is inside the optional inclusive window [[start, end]] that
    [get_logs] and [get_statistics] take. *)
Definition in_window (start end_ : option date) (d : date) : Prop :=
  match start with Some st => (st ≤ d)%Z | None => True end ∧
  match end_ with Some en => (d ≤ en)%Z | None => True end.

#[export] Instance in_window_dec start end_ d : Decision (in_window start end_ d).
Proof. unfold in_window. destruct start, end_; apply _. Defined.

(** Timestamps ([datetime.datetime], [created_at]) are only stored and
    copied by the code; they are kept abstract as integers. *)
Abbreviation timestamp := Z (only parsing).

(** ** [HabitType] *)
Inductive HabitType : Type :=
| BOOLEAN
| NUMERIC.

#[export] Instance HabitType_eq_dec : EqDecision HabitType.
Proof. solve_decision. Defined.

#[export] Instance HabitType_countable : Countable HabitType.
Proof.
  refine (inj_countable' (fun t => match t with BOOLEAN => true | NUMERIC => false end)
            (fun b => if b then BOOLEAN else NUMERIC) _).
  by intros [].
Defined.

(** The string values of the [str] enum. *)
Definition HabitType_value (t : HabitType) : string :=
  match t with BOOLEAN => "boolean" | NUMERIC => "numeric" end.

(** ** [LogEntry] *)
Record LogEntry : Type := mkLogEntry {
  log_id : string;
  log_habit_id : string;
  log_date : date;
  log_value : option Q;
  log_created_at : timestamp
}.

(** [LogEntry.create]: the fresh [uuid4] and the creation time are the
    caller's inputs. *)
Definition LogEntry_create (fresh_id : string) (now : timestamp)
    (habit_id : string) (date_ : date) (value : option Q) : LogEntry :=
  {| log_id := fresh_id; log_habit_id := habit_id; log_date := date_;
     log_value := value; log_created_at := now |}.

(** ** [Habit] *)
Record Habit : Type := mkHabit {
  habit_id : string;
  name : string;
  description : option string;
  category : option string;
  type : HabitType;
  goal : option Q;
  created_at : timestamp;
  parent_id : option string;
  subhabit_ids : list string
}.

(** Record updates, one per field the service assigns. *)
Definition set_name (h : Habit) (v : string) : Habit :=
  {| habit_id := habit_id h; name := v; description := description h;
     category := category h; type := type h; goal := goal h;
     created_at := created_at h; parent_id := parent_id h;
     subhabit_ids := subhabit_ids h |}.
Definition set_description (h : Habit) (v : string) : Habit :=
  {| habit_id := habit_id h; name := name h; description := Some v;
     category := category h; type := type h; goal := goal h;
     created_at := created_at h; parent_id := parent_id h;
     subhabit_ids := subhabit_ids h |}.
Definition set_category (h : Habit) (v : string) : Habit :=
  {| habit_id := habit_id h; name := name h; description := description h;
     category := Some v; type := type h; goal := goal h;
     created_at := created_at h; parent_id := parent_id h;
     subhabit_ids := subhabit_ids h |}.
Definition set_goal (h : Habit) (v : Q) : Habit :=
  {| habit_id := habit_id h; name := name h; description := description h;
     category := category h; type := type h; goal := Some v;
     created_at := created_at h; parent_id := parent_id h;
     subhabit_ids := subhabit_ids h |}.
Definition set_parent_id (h : Habit) (p : string) : Habit :=
  {| habit_id := habit_id h; name := name h; description := description h;
     category := category h; type := type h; goal := goal h;
     created_at := created_at h; parent_id := Some p;
     subhabit_ids := subhabit_ids h |}.
Definition set_subhabit_ids (h : Habit) (l : list string) : Habit :=
  {| habit_id := habit_id h; name := name h; description := description h;
     category := category h; type := type h; goal := goal h;
     created_at := created_at h; parent_id := parent_id h;
     subhabit_ids := l |}.

(** ** [HabitUpdate] (from [app/api/schemas.py]): every field optional. *)
Record HabitUpdate : Type := mkHabitUpdate {
  upd_name : option string;
  upd_description : option string;
  upd_category : option string;
  upd_goal : option Q
}.

(** ** Lemmas on dates *)

Lemma date_sub_days_ok d n :
  valid_date (d - n)%Z = true -> date_sub_days d n = Ok (d - n)%Z.
Proof. unfold date_sub_days. by intros ->. Qed.

Lemma valid_date_spec d :
  valid_date d = true <-> (date_min_ordinal ≤ d ≤ date_max_ordinal)%Z.
Proof. unfold valid_date. by rewrite bool_decide_eq_true. Qed.

#[export] Hint Resolve date_sub_days_ok : habits.
