(* ===== verification/IsoDate.v ===== *)
(** * IsoDate: dates as the text [app/db/sqlite.py] stores

    [SQLiteLogRepository] writes a date as [date.isoformat()], the text
    ["YYYY-MM-DD"], reads it back with [date.fromisoformat], and lets
    SQLite compare and sort that text ([date >= ?], [date <= ?],
    [ORDER BY date]).  This file models the three standard-library pieces
    the code relies on, after CPython's [datetime] module (the
    proleptic-Gregorian conversions [_ymd2ord] and [_ord2ymd], the
    formatting ["%04d-%02d-%02d"] and the parser of
    [Modules/_datetimemodule.c], with the messages of its [ValueError]s
    and the UTF-8 length it tests), and SQLite's [BINARY]
    collation, which compares the bytes of the text ([String.compare]:
    byte by byte, a proper prefix first).

    It proves that for every date of [[date.min, date.max]]:
    - [_ord2ymd] gives valid fields that [_ymd2ord] maps back, and the two
      are inverse bijections ([calendar_bijection]): a finite check over
      one 400-year cycle of the calendar, run by [vm_compute], and the
      periodicity of both conversions;
    - [date_fromisoformat] inverts [date_isoformat] ([date_iso_roundtrip]);
      it is modelled after the C parser of CPython 3.11, which also reads
      the basic ([YYYYMMDD]) and the ISO-week ([YYYY-Www-D]) forms and
      ignores the bytes after the fields, so other texts decode too;
    - comparing the ISO texts is comparing the dates
      ([date_isoformat_compare]), the fact the SQL of [list_for_habit]
      relies on. *)

From S2P Require Import Prelude Models.
From Stdlib Require Import Ascii.

(** ** The proleptic Gregorian calendar of CPython's [datetime] *)

(** [_DAYS_IN_MONTH] and [_DAYS_BEFORE_MONTH], indexed from 1 as the
    Python lists (index 0 holds [-1]). *)
Definition _DAYS_IN_MONTH : list Z := [-1; 31; 28; 31; 30; 31; 30; 31; 31; 30; 31; 30; 31]%Z.
Definition _DAYS_BEFORE_MONTH : list Z :=
  [-1; 0; 31; 59; 90; 120; 151; 181; 212; 243; 273; 304; 334]%Z.

(** [l[i]] for an index the callers keep in [1..12]. *)
Definition py_index (l : list Z) (i : Z) : Z := nth (Z.to_nat i) l (-1)%Z.

Definition _is_leap (year : Z) : bool :=
  (year mod 4 =? 0)%Z && (negb (year mod 100 =? 0)%Z || (year mod 400 =? 0)%Z).

Definition _days_before_year (year : Z) : Z :=
  let y := (year - 1)%Z in (y * 365 + y / 4 - y / 100 + y / 400)%Z.

Definition _days_in_month (year month : Z) : Z :=
  if (month =? 2)%Z && _is_leap year then 29%Z else py_index _DAYS_IN_MONTH month.

Definition _days_before_month (year month : Z) : Z :=
  (py_index _DAYS_BEFORE_MONTH month + if (month >? 2)%Z && _is_leap year then 1 else 0)%Z.

Definition _ymd2ord (year month day : Z) : Z :=
  (_days_before_year year + _days_before_month year month + day)%Z.

Definition _DI400Y : Z := _days_before_year 401.
Definition _DI100Y : Z := _days_before_year 101.
Definition _DI4Y : Z := _days_before_year 5.

(** The fields [year, month, day] of the date of ordinal [n] ([_ord2ymd];
    [divmod] is [Z.div_eucl], floor division for a positive divisor; the
    [assert]s are the facts [_ord2ymd_valid] proves). *)
Definition _ord2ymd (n : Z) : Z * Z * Z :=
  let n := (n - 1)%Z in
  let '(n400, n) := Z.div_eucl n _DI400Y in
  let year := (n400 * 400 + 1)%Z in
  let '(n100, n) := Z.div_eucl n _DI100Y in
  let '(n4, n) := Z.div_eucl n _DI4Y in
  let '(n1, n) := Z.div_eucl n 365 in
  let year := (year + n100 * 100 + n4 * 4 + n1)%Z in
  if (n1 =? 4)%Z || (n100 =? 4)%Z then ((year - 1)%Z, 12%Z, 31%Z) else
  let leapyear := (n1 =? 3)%Z && (negb (n4 =? 24)%Z || (n100 =? 3)%Z) in
  let month := Z.shiftr (n + 50) 5 in
  let preceding := (py_index _DAYS_BEFORE_MONTH month +
                    if (month >? 2)%Z && leapyear then 1 else 0)%Z in
  let '(month, preceding) :=
    if (preceding >? n)%Z then
      let month := (month - 1)%Z in
      (month, (preceding - (py_index _DAYS_IN_MONTH month +
                            if (month =? 2)%Z && leapyear then 1 else 0))%Z)
    else (month, preceding) in
  (year, month, (n - preceding + 1)%Z).

(** [_check_date_fields]: [MINYEAR <= year <= MAXYEAR],
    [1 <= month <= 12], [1 <= day <= _days_in_month(year, month)]. *)
Definition valid_ymd (y m d : Z) : bool :=
  (1 <=? y)%Z && (y <=? 9999)%Z && (1 <=? m)%Z && (m <=? 12)%Z &&
  (1 <=? d)%Z && (d <=? _days_in_month y m)%Z.

(** The number of days of a year, and the lexicographic order of
    [(year, month, day)]. *)
Definition days_in_year (y : Z) : Z := if _is_leap y then 366%Z else 365%Z.

Definition ymd_compare (a b : Z * Z * Z) : comparison :=
  let '(y1, m1, d1) := a in
  let '(y2, m2, d2) := b in
  match Z.compare y1 y2 with
  | Eq => match Z.compare m1 m2 with Eq => Z.compare d1 d2 | c => c end
  | c => c
  end.

(** ** ISO text *)

(** The character of a decimal digit. *)
Definition digit (x : Z) : ascii := ascii_of_nat (48 + Z.to_nat x).

(** ["%0wd" % x] for [0 <= x < 10^w]: the [w] last decimal digits of [x],
    most significant first.  Every field the code formats is in that
    range (years of [1..9999], months, days). *)
Fixpoint pad_int (w : nat) (x : Z) : string :=
  match w with
  | O => EmptyString
  | S w' => String (digit (x / 10 ^ Z.of_nat w' mod 10)) (pad_int w' x)
  end.

(** [date.isoformat()]: ["%04d-%02d-%02d" % (year, month, day)]. *)
Definition date_isoformat (d : date) : string :=
  let '(y, m, dd) := _ord2ymd d in
  String.append (pad_int 4 y)
    (String "-" (String.append (pad_int 2 m) (String "-" (pad_int 2 dd)))).

(** The value of a decimal digit character. *)
Definition digit_value (c : ascii) : option Z :=
  let n := nat_of_ascii c in
  if (48 <=? n)%nat && (n <=? 57)%nat then Some (Z.of_nat n - 48)%Z else None.

(** [int(s)] on a string of decimal digits; [None] on any other
    character. *)
Fixpoint parse_digits (acc : Z) (s : string) : option Z :=
  match s with
  | EmptyString => Some acc
  | String c s' => v ← digit_value c; parse_digits (acc * 10 + v)%Z s'
  end.

(** [repr(s)] of a [str] of code points below 256: single quotes unless
    the text holds a single quote and no double quote; the quote, the
    backslash, [\t], [\n], [\r] escaped, and the characters [str.isprintable]
    rejects (below [U+0020], [U+007F..U+00A0], [U+00AD]) as [\xhh]. *)
Definition hex_digit (x : nat) : ascii :=
  if (x <? 10)%nat then ascii_of_nat (48 + x) else ascii_of_nat (87 + x).

Definition printable (c : ascii) : bool :=
  let n := nat_of_ascii c in
  ((32 <=? n) && (n <? 127) || (161 <=? n) && negb (n =? 173))%nat.

Definition repr_char (q c : ascii) : string :=
  let n := nat_of_ascii c in
  if Ascii.eqb c q then String "\" (String c EmptyString)
  else if (n =? 92)%nat then "\\"
  else if (n =? 9)%nat then "\t"
  else if (n =? 10)%nat then "\n"
  else if (n =? 13)%nat then "\r"
  else if printable c then String c EmptyString
  else String "\" (String "x" (String (hex_digit (n / 16)) (String (hex_digit (n mod 16)) EmptyString))).

Fixpoint repr_body (q : ascii) (s : string) : string :=
  match s with
  | EmptyString => EmptyString
  | String c s' => String.append (repr_char q c) (repr_body q s')
  end.

Fixpoint has_char (c : ascii) (s : string) : bool :=
  match s with
  | EmptyString => false
  | String c' s' => Ascii.eqb c c' || has_char c s'
  end.

(** The double quote, code 34. *)
Definition dquote : ascii := Ascii.ascii_of_nat 34.

Definition py_repr (s : string) : string :=
  let q := if has_char "'" s && negb (has_char dquote s) then dquote else "'"%char in
  String q (String.append (repr_body q s) (String q EmptyString)).

Definition invalid_isoformat (s : string) : exn :=
  ValueError (String.append "Invalid isoformat string: " (py_repr s)).

(** [str(n)] for [0 <= n < 100000]: the digits without leading zeros. *)
Fixpoint drop_zeros (s : string) : string :=
  match s with
  | String c s' =>
      match s' with
      | EmptyString => s
      | _ => if Ascii.eqb c "0" then drop_zeros s' else s
      end
  | EmptyString => s
  end.

Definition py_str_int (n : Z) : string := drop_zeros (pad_int 5 n).

(** [PyUnicode_AsUTF8AndSize]: the UTF-8 bytes of a text of code points
    below 256, one byte below 128 and two above. *)
Fixpoint utf8_encode (s : string) : string :=
  match s with
  | EmptyString => EmptyString
  | String c s' =>
      let n := nat_of_ascii c in
      if (n <? 128)%nat then String c (utf8_encode s')
      else String (ascii_of_nat (192 + n / 64)) (String (ascii_of_nat (128 + n mod 64)) (utf8_encode s'))
  end.

(** [parse_digits(p, &var, n)] of [Modules/_datetimemodule.c]: [n] ASCII
    digits from byte [pos]; the NUL that ends the buffer is no digit. *)
Definition digits_at (b : string) (pos n : nat) : option Z :=
  if (pos + n <=? String.length b)%nat then parse_digits 0 (String.substring pos n b) else None.

Definition byte_is (b : string) (pos : nat) (c : ascii) : bool :=
  bool_decide (String.get pos b = Some c).

(** [iso_week1_monday(year)]: the ordinal of the Monday of ISO week 1. *)
Definition iso_week1_monday (year : Z) : Z :=
  let first_day := _ymd2ord year 1 1 in
  let first_weekday := ((first_day + 6) mod 7)%Z in
  let week1_monday := (first_day - first_weekday)%Z in
  if (first_weekday >? 3)%Z then (week1_monday + 7)%Z else week1_monday.

(** [iso_to_ymd] of CPython 3.11: week 53 only in the years that have
    it, days [1..7].  There is no check of the year: for year [0] the
    ordinal is not positive, and [ord_to_ymd] computes a month below 1
    (reading before its month table); only that month matters, as the
    date constructor then rejects it, which [(1, 0, 0)] stands for. *)
Definition iso_to_ymd (iso_year iso_week iso_day : Z) : option (Z * Z * Z) :=
  let week_ok :=
    if (iso_week <=? 0)%Z || (53 <=? iso_week)%Z then
      (iso_week =? 53)%Z &&
      (let first_weekday := ((_ymd2ord iso_year 1 1 + 6) mod 7)%Z in
       (first_weekday =? 3)%Z || (first_weekday =? 2)%Z && _is_leap iso_year)
    else true in
  if negb week_ok then None
  else if (iso_day <=? 0)%Z || (8 <=? iso_day)%Z then None
  else if (iso_year =? 0)%Z then Some (1%Z, 0%Z, 0%Z)
  else Some (_ord2ymd (iso_week1_monday iso_year + (iso_week - 1) * 7 + iso_day - 1)%Z).

(** [parse_isoformat_date]: [YYYY-MM-DD], [YYYYMMDD], [YYYY-Www-D],
    [YYYYWwwD], [YYYY-Www], [YYYYWww]; [None] for its negative codes.
    Bytes after the fields are not looked at. *)
Definition parse_isoformat_date (b : string) : option (Z * Z * Z) :=
  year ← digits_at b 0 4;
  let sep := byte_is b 4 "-" in
  let p := if sep then 5%nat else 4%nat in
  if byte_is b p "W" then
    week ← digits_at b (S p) 2;
    let p := (p + 3)%nat in
    day ← (if (p <? String.length b)%nat then
             if sep && negb (byte_is b p "-") then None
             else digits_at b (if sep then S p else p) 1
           else Some 1%Z);
    iso_to_ymd year week day
  else
    month ← digits_at b p 2;
    let p := (p + 2)%nat in
    if sep && negb (byte_is b p "-") then None
    else day ← digits_at b (if sep then S p else p) 2; Some (year, month, day).

(** [check_date_args] of the date constructor, with its messages. *)
Definition check_date_args (year month day : Z) : Result unit :=
  if negb ((1 <=? year)%Z && (year <=? 9999)%Z) then
    Raise (ValueError (String.append "year " (String.append (py_str_int year) " is out of range")))
  else if negb ((1 <=? month)%Z && (month <=? 12)%Z) then Raise (ValueError "month must be in 1..12")
  else if negb ((1 <=? day)%Z && (day <=? _days_in_month year month)%Z) then
    Raise (ValueError "day is out of range for month")
  else Ok tt.

(** [date.fromisoformat(s)] of CPython 3.11 ([date_fromisoformat] of
    [Modules/_datetimemodule.c]): the UTF-8 text must be 7, 8 or 10
    bytes long and parse; the date constructor checks the fields. *)
Definition date_fromisoformat (s : string) : Result date :=
  let b := utf8_encode s in
  let len := String.length b in
  if (len =? 7)%nat || (len =? 8)%nat || (len =? 10)%nat then
    match parse_isoformat_date b with
    | Some (year, month, day) => let! _ := check_date_args year month day in Ok (_ymd2ord year month day)
    | None => Raise (invalid_isoformat s)
    end
  else Raise (invalid_isoformat s).

(** ** One 400-year cycle, checked *)

Definition ord2ymd_ok (n : Z) : bool :=
  let '(y, m, d) := _ord2ymd n in
  valid_ymd y m d && (y <=? 400)%Z && (_ymd2ord y m d =? n)%Z.

Fixpoint check_ords (k : nat) (n : Z) : bool :=
  match k with
  | O => true
  | S k' => ord2ymd_ok n && check_ords k' (n + 1)%Z
  end.

Lemma check_ords_spec k n0 :
  check_ords k n0 = true -> ∀ n, (n0 ≤ n < n0 + Z.of_nat k)%Z -> ord2ymd_ok n = true.
Proof.
  revert n0. induction k as [|k IH]; intros n0 Hc n Hn; simpl in *; [lia|].
  apply andb_true_iff in Hc as [Hn0 Hc].
  destruct (decide (n = n0)) as [->|]; [done|]. apply (IH (n0 + 1)%Z); [done|lia].
Qed.

Lemma check_cycle : check_ords (Z.to_nat 146097) 1 = true.
Proof. vm_compute. reflexivity. Qed.

(** ** The conversions are periodic *)

Lemma div_eucl_eq a b : Z.div_eucl a b = (a / b, a mod b)%Z.
Proof. unfold Z.div, Z.modulo. by destruct (Z.div_eucl a b). Qed.

Lemma _DI400Y_value : _DI400Y = 146097%Z.
Proof. reflexivity. Qed.

Lemma _ord2ymd_shift n q :
  _ord2ymd (n + 146097 * q) = let '(y, m, d) := _ord2ymd n in ((y + 400 * q)%Z, m, d).
Proof.
  unfold _ord2ymd. rewrite !div_eucl_eq, !_DI400Y_value.
  replace (n + 146097 * q - 1)%Z with ((n - 1) + q * 146097)%Z by lia.
  rewrite Z.div_add, Z.mod_add by lia.
  match goal with |- context [if ?b then _ else _] => destruct b end; [f_equal; f_equal; lia|].
  repeat case_match; simplify_eq/=; f_equal; f_equal; lia.
Qed.

(** ** The calendar is ordered *)

Lemma month_range (m : Z) :
  (1 ≤ m ≤ 12)%Z -> m = 1%Z ∨ m = 2%Z ∨ m = 3%Z ∨ m = 4%Z ∨ m = 5%Z ∨ m = 6%Z ∨
                    m = 7%Z ∨ m = 8%Z ∨ m = 9%Z ∨ m = 10%Z ∨ m = 11%Z ∨ m = 12%Z.
Proof. lia. Qed.

(** Case analysis on a month [1 <= m <= 12]: one goal per month, with
    [m] replaced by its number. *)
Ltac by_month m Hm :=
  let H := fresh "Hmonth" in
  pose proof (month_range m Hm) as H;
  repeat match type of H with _ ∨ _ => destruct H as [H|H] end; subst m.


Lemma _days_before_month_next y m :
  (1 ≤ m ≤ 12)%Z ->
  (_days_before_month y m + _days_in_month y m =
   if decide (m = 12%Z) then days_in_year y else _days_before_month y (m + 1))%Z.
Proof.
  intros Hm. unfold _days_before_month, _days_in_month, days_in_year, py_index.
  by_month m Hm;
    destruct (_is_leap y); reflexivity.
Qed.

Lemma _days_before_month_bounds y m :
  (1 ≤ m ≤ 12)%Z -> (0 ≤ _days_before_month y m ∧ 28 ≤ _days_in_month y m ≤ 31)%Z.
Proof.
  intros Hm. unfold _days_before_month, _days_in_month, py_index.
  by_month m Hm;
    destruct (_is_leap y); simpl; lia.
Qed.

Lemma _days_before_month_mono y m1 m2 :
  (1 ≤ m1 < m2)%Z -> (m2 ≤ 12)%Z ->
  (_days_before_month y m1 + _days_in_month y m1 ≤ _days_before_month y m2)%Z.
Proof.
  intros Hm Hm2. remember (Z.to_nat (m2 - m1 - 1)) as k eqn:Hk.
  revert m2 Hm Hm2 Hk. induction k as [|k IH]; intros m2 Hm Hm2 Hk.
  - rewrite _days_before_month_next by lia. rewrite decide_False by lia.
    by replace m2 with (m1 + 1)%Z by lia.
  - specialize (IH (m2 - 1)%Z ltac:(lia) ltac:(lia) ltac:(lia)).
    pose proof (_days_before_month_next y (m2 - 1) ltac:(lia)) as Hn.
    rewrite decide_False in Hn by lia. replace (m2 - 1 + 1)%Z with m2 in Hn by lia.
    pose proof (_days_before_month_bounds y (m2 - 1) ltac:(lia)). lia.
Qed.

Lemma _days_before_year_next y :
  _days_before_year (y + 1) = (_days_before_year y + days_in_year y)%Z.
Proof.
  unfold _days_before_year, days_in_year, _is_leap.
  replace (y + 1 - 1)%Z with y by lia.
  destruct (Z.eqb_spec (y mod 4) 0), (Z.eqb_spec (y mod 100) 0), (Z.eqb_spec (y mod 400) 0);
    cbv zeta; simpl andb; simpl negb; cbv iota; Z.div_mod_to_equations; lia.
Qed.

Lemma _days_before_year_mono y1 y2 :
  (y1 < y2)%Z -> (_days_before_year y1 + days_in_year y1 ≤ _days_before_year y2)%Z.
Proof.
  intros Hy. rewrite <- _days_before_year_next.
  remember (Z.to_nat (y2 - y1 - 1)) as k eqn:Hk. revert y2 Hy Hk.
  induction k as [|k IH]; intros y2 Hy Hk.
  - by replace y2 with (y1 + 1)%Z by lia.
  - specialize (IH (y2 - 1)%Z ltac:(lia) ltac:(lia)).
    replace y2 with (y2 - 1 + 1)%Z by lia. rewrite (_days_before_year_next (y2 - 1)).
    unfold days_in_year in *. destruct (_is_leap _); lia.
Qed.


Lemma month_within_year y m :
  (1 ≤ m ≤ 12)%Z -> (_days_before_month y m + _days_in_month y m ≤ days_in_year y)%Z.
Proof.
  intros Hm. pose proof (_days_before_month_next y 12 ltac:(lia)) as H12.
  rewrite decide_True in H12 by done.
  destruct (decide (m = 12%Z)) as [->|]; [lia|].
  pose proof (_days_before_month_mono y m 12 ltac:(lia) ltac:(lia)).
  pose proof (_days_before_month_bounds y 12 ltac:(lia)). lia.
Qed.

Lemma valid_ymd_spec y m d :
  valid_ymd y m d = true <-> (1 ≤ y ≤ 9999 ∧ 1 ≤ m ≤ 12 ∧ 1 ≤ d ≤ _days_in_month y m)%Z.
Proof. unfold valid_ymd. rewrite !andb_true_iff, !Z.leb_le. lia. Qed.

Lemma _ymd2ord_lt y1 m1 d1 y2 m2 d2 :
  valid_ymd y1 m1 d1 = true -> valid_ymd y2 m2 d2 = true ->
  ymd_compare (y1, m1, d1) (y2, m2, d2) = Lt ->
  (_ymd2ord y1 m1 d1 < _ymd2ord y2 m2 d2)%Z.
Proof.
  rewrite !valid_ymd_spec. intros Hv1 Hv2. unfold _ymd2ord.
  cbv beta iota delta [ymd_compare].
  pose proof (_days_before_month_bounds y2 m2 ltac:(lia)).
  destruct (Z.compare_spec y1 y2) as [<-|Hy|Hy]; [|intros _|done].
  - destruct (Z.compare_spec m1 m2) as [<-|Hm|Hm]; [|intros _|done].
    + intros Hd. rewrite Z.compare_lt_iff in Hd. lia.
    + pose proof (_days_before_month_mono y1 m1 m2 ltac:(lia) ltac:(lia)). lia.
  - pose proof (month_within_year y1 m1 ltac:(lia)).
    pose proof (_days_before_year_mono y1 y2 Hy). lia.
Qed.

Lemma ymd_compare_antisym a b : ymd_compare a b = CompOpp (ymd_compare b a).
Proof.
  destruct a as [[y1 m1] d1], b as [[y2 m2] d2]; cbv beta iota delta [ymd_compare].
  rewrite (Z.compare_antisym y1 y2), (Z.compare_antisym m1 m2), (Z.compare_antisym d1 d2).
  by destruct (Z.compare y1 y2), (Z.compare m1 m2), (Z.compare d1 d2).
Qed.

Lemma ymd_compare_eq a b : ymd_compare a b = Eq -> a = b.
Proof.
  destruct a as [[y1 m1] d1], b as [[y2 m2] d2]; cbv beta iota delta [ymd_compare].
  destruct (Z.compare_spec y1 y2), (Z.compare_spec m1 m2), (Z.compare_spec d1 d2);
    congruence.
Qed.

Lemma _ymd2ord_compare y1 m1 d1 y2 m2 d2 :
  valid_ymd y1 m1 d1 = true -> valid_ymd y2 m2 d2 = true ->
  Z.compare (_ymd2ord y1 m1 d1) (_ymd2ord y2 m2 d2) = ymd_compare (y1, m1, d1) (y2, m2, d2).
Proof.
  intros Hv1 Hv2. destruct (ymd_compare _ _) eqn:Hc.
  - apply ymd_compare_eq in Hc. simplify_eq. apply Z.compare_refl.
  - apply Z.compare_lt_iff. by apply _ymd2ord_lt.
  - rewrite ymd_compare_antisym in Hc. apply Z.compare_gt_iff, _ymd2ord_lt; [done|done|].
    by destruct (ymd_compare _ _).
Qed.

Lemma _ymd2ord_bounds y m d :
  valid_ymd y m d = true -> (1 ≤ _ymd2ord y m d ≤ 3652059)%Z.
Proof.
  intros Hv. pose proof Hv as Hv'. apply valid_ymd_spec in Hv'.
  pose proof (_days_before_month_bounds y m ltac:(lia)).
  pose proof (_ymd2ord_compare 1 1 1 y m d eq_refl Hv) as Hlo.
  pose proof (_ymd2ord_compare y m d 9999 12 31 Hv eq_refl) as Hhi.
  change (_ymd2ord 1 1 1) with 1%Z in Hlo. change (_ymd2ord 9999 12 31) with 3652059%Z in Hhi.
  cbv beta iota delta [ymd_compare] in Hlo, Hhi.
  pose proof (Z.compare_spec 1 (_ymd2ord y m d)) as Hs1.
  pose proof (Z.compare_spec (_ymd2ord y m d) 3652059) as Hs2.
  rewrite Hlo in Hs1. rewrite Hhi in Hs2. revert Hs1 Hs2.
  destruct (Z.compare_spec 1 y), (Z.compare_spec 1 m), (Z.compare_spec 1 d),
    (Z.compare_spec y 9999), (Z.compare_spec m 12), (Z.compare_spec d 31);
    intros Hs1 Hs2; inversion Hs1; inversion Hs2; lia.
Qed.

Lemma _is_leap_shift y q : _is_leap (y + 400 * q) = _is_leap y.
Proof.
  unfold _is_leap.
  assert (H4 : ((y + 400 * q) mod 4 = y mod 4)%Z)
    by (rewrite <- (Z.mod_add y (100 * q) 4) by lia; f_equal; lia).
  assert (H100 : ((y + 400 * q) mod 100 = y mod 100)%Z)
    by (rewrite <- (Z.mod_add y (4 * q) 100) by lia; f_equal; lia).
  assert (H400 : ((y + 400 * q) mod 400 = y mod 400)%Z)
    by (rewrite <- (Z.mod_add y q 400) by lia; f_equal; lia).
  by rewrite H4, H100, H400.
Qed.

Lemma _days_in_month_shift y q m : _days_in_month (y + 400 * q) m = _days_in_month y m.
Proof. unfold _days_in_month. by rewrite _is_leap_shift. Qed.

Lemma _ymd2ord_shift y m d q : _ymd2ord (y + 400 * q) m d = (_ymd2ord y m d + 146097 * q)%Z.
Proof.
  unfold _ymd2ord, _days_before_month, _days_before_year. rewrite _is_leap_shift.
  cbv zeta. Z.div_mod_to_equations. lia.
Qed.

(** The year of a date of [[date.min, date.max]] is at most [MAXYEAR]. *)
Lemma _ymd2ord_year_max y m d :
  (1 ≤ m ≤ 12)%Z -> (1 ≤ d)%Z -> (_ymd2ord y m d ≤ 3652059)%Z -> (y ≤ 9999)%Z.
Proof.
  intros Hm Hd Hn. destruct (decide (y ≤ 9999)%Z) as [|Hy]; [done|exfalso].
  pose proof (_days_before_month_bounds y m Hm). unfold _ymd2ord in Hn.
  assert (Hb : (3652059 ≤ _days_before_year y)%Z).
  { change 3652059%Z with (_days_before_year 10000).
    destruct (decide (y = 10000%Z)) as [->|]; [lia|].
    pose proof (_days_before_year_mono 10000 y ltac:(lia)). unfold days_in_year in *.
    destruct (_is_leap _); lia. }
  lia.
Qed.

(** [_ord2ymd] is right: on every date of [[date.min, date.max]] it gives
    valid fields that [_ymd2ord] maps back to the ordinal. *)
Lemma _ord2ymd_valid n :
  valid_date n = true ->
  let '(y, m, d) := _ord2ymd n in valid_ymd y m d = true ∧ _ymd2ord y m d = n.
Proof.
  intros Hn%valid_date_spec. unfold date_min_ordinal, date_max_ordinal in Hn.
  set (q := ((n - 1) / 146097)%Z). set (r := ((n - 1) mod 146097 + 1)%Z).
  assert (Hnr : n = (r + 146097 * q)%Z) by (subst r q; Z.div_mod_to_equations; lia).
  assert (Hq : (0 ≤ q)%Z) by (subst q; Z.div_mod_to_equations; lia).
  assert (Hok : ord2ymd_ok r = true).
  { apply (check_ords_spec _ _ check_cycle). subst r. rewrite Z2Nat.id by lia.
    Z.div_mod_to_equations; lia. }
  rewrite Hnr, _ord2ymd_shift. unfold ord2ymd_ok in Hok.
  destruct (_ord2ymd r) as [[y m] d].
  apply andb_true_iff in Hok as [[Hv Hy]%andb_true_iff Hord%Z.eqb_eq].
  rewrite _ymd2ord_shift, Hord. split; [|done].
  apply valid_ymd_spec in Hv. apply valid_ymd_spec. rewrite _days_in_month_shift.
  pose proof (_ymd2ord_year_max (y + 400 * q) m d) as Hmax.
  rewrite _ymd2ord_shift, Hord in Hmax. lia.
Qed.

(** ** Digits, ISO text and its order *)

Lemma nat_of_digit x : (0 ≤ x < 10)%Z -> nat_of_ascii (digit x) = (48 + Z.to_nat x)%nat.
Proof. intros Hx. unfold digit. apply nat_ascii_embedding. lia. Qed.

Lemma digit_value_digit x : (0 ≤ x < 10)%Z -> digit_value (digit x) = Some x.
Proof.
  intros Hx. unfold digit_value. rewrite nat_of_digit by done.
  rewrite (proj2 (Nat.leb_le 48 _)), (proj2 (Nat.leb_le _ 57)) by lia. simpl. f_equal. lia.
Qed.

Lemma digit_digit_value c x : digit_value c = Some x -> digit x = c ∧ (0 ≤ x < 10)%Z.
Proof.
  unfold digit_value, digit. intros Hc.
  destruct (_ && _) eqn:Hb; [|done]. apply andb_true_iff in Hb as [Hb1%Nat.leb_le Hb2%Nat.leb_le].
  injection Hc as <-. split; [|lia].
  replace (48 + Z.to_nat (Z.of_nat (nat_of_ascii c) - 48))%nat with (nat_of_ascii c) by lia.
  apply ascii_nat_embedding.
Qed.

Lemma ascii_compare_digit x y :
  (0 ≤ x < 10)%Z -> (0 ≤ y < 10)%Z -> Ascii.compare (digit x) (digit y) = Z.compare x y.
Proof.
  intros Hx Hy. unfold Ascii.compare.
  assert (Hn : ∀ z, (0 ≤ z < 10)%Z -> N_of_ascii (digit z) = N.of_nat (48 + Z.to_nat z)).
  { intros z Hz. rewrite <- nat_of_digit by done. unfold nat_of_ascii. by rewrite N2Nat.id. }
  rewrite !Hn, <- Nat2N.inj_compare by done.
  destruct (Nat.compare_spec (48 + Z.to_nat x) (48 + Z.to_nat y)), (Z.compare_spec x y); done || lia.
Qed.

Lemma length_pad_int w x : String.length (pad_int w x) = w.
Proof. induction w; simpl; congruence. Qed.

Lemma pad_int_mod_step w x :
  (x mod 10 ^ Z.of_nat (S w) = (x / 10 ^ Z.of_nat w mod 10) * 10 ^ Z.of_nat w + x mod 10 ^ Z.of_nat w)%Z.
Proof.
  rewrite Nat2Z.inj_succ, Z.pow_succ_r, (Z.mul_comm 10) by lia.
  rewrite Z.rem_mul_r by (try apply Z.pow_nonzero; lia). lia.
Qed.


Lemma div_mod_digit acc k : (0 ≤ k < 10)%Z -> ((acc * 10 + k) / 10 = acc ∧ (acc * 10 + k) mod 10 = k)%Z.
Proof. intros Hk. split; Z.div_mod_to_equations; lia. Qed.

Lemma parse_digits_pad_int w x acc :
  parse_digits acc (pad_int w x) = Some (acc * 10 ^ Z.of_nat w + x mod 10 ^ Z.of_nat w)%Z.
Proof.
  revert acc. induction w as [|w IH]; intros acc; cbn [pad_int parse_digits].
  - rewrite Z.mod_1_r. simpl. f_equal. lia.
  - rewrite digit_value_digit by (apply Z.mod_pos_bound; lia). cbn [mbind option_bind]. rewrite IH.
    f_equal. rewrite (pad_int_mod_step w x), Nat2Z.inj_succ, Z.pow_succ_r by lia. ring.
Qed.

Lemma parse_digits_canonical s acc x :
  parse_digits acc s = Some x ->
  pad_int (String.length s) x = s ∧ (x / 10 ^ Z.of_nat (String.length s) = acc)%Z.
Proof.
  revert acc. induction s as [|c s IH]; intros acc; cbn [parse_digits String.length].
  - intros [= <-]. split; [done|]. apply Z.div_1_r.
  - destruct (digit_value c) as [k|] eqn:Hc; [|done]. cbn [mbind option_bind]. intros Hp.
    apply digit_digit_value in Hc as [Hc Hk].
    destruct (IH _ Hp) as [Hpad Hdiv]. destruct (div_mod_digit acc k Hk) as [Hd Hm].
    cbn [pad_int]. rewrite Hpad, Hdiv, Hm, Hc. split; [done|].
    rewrite Nat2Z.inj_succ, Z.pow_succ_r, Z.mul_comm, <- Z.div_div, Hdiv by
      (try apply Z.pow_pos_nonneg; lia). done.
Qed.

Lemma compare_digits a1 a2 b1 b2 P :
  (0 < P)%Z -> (0 ≤ b1 < P)%Z -> (0 ≤ b2 < P)%Z ->
  Z.compare (a1 * P + b1) (a2 * P + b2) =
  match Z.compare a1 a2 with Eq => Z.compare b1 b2 | c => c end.
Proof.
  intros HP Hb1 Hb2. destruct (Z.compare_spec a1 a2) as [->|Ha|Ha].
  - destruct (Z.compare_spec b1 b2), (Z.compare_spec (a2 * P + b1) (a2 * P + b2)); done || lia.
  - apply Z.compare_lt_iff. nia.
  - apply Z.compare_gt_iff. nia.
Qed.

Lemma append_cons c s t : String.append (String c s) t = String c (String.append s t).
Proof. reflexivity. Qed.

Lemma append_empty_r s : String.append s EmptyString = s.
Proof. induction s as [|c s IH]; [done|]. by rewrite append_cons, IH. Qed.

Lemma append_empty_l s : String.append EmptyString s = s.
Proof. reflexivity. Qed.

Lemma compare_cons_same c s t : String.compare (String c s) (String c t) = String.compare s t.
Proof. cbn [String.compare]. unfold Ascii.compare. by rewrite N.compare_refl. Qed.

(** Comparing two texts that start with [w] digits compares the numbers
    first, then the rest. *)
Lemma compare_pad_int w x y s t :
  String.compare (String.append (pad_int w x) s) (String.append (pad_int w y) t) =
  match Z.compare (x mod 10 ^ Z.of_nat w) (y mod 10 ^ Z.of_nat w) with
  | Eq => String.compare s t
  | c => c
  end.
Proof.
  induction w as [|w IH]; cbn [pad_int].
  - by rewrite !Z.mod_1_r.
  - rewrite !append_cons. cbn [String.compare]. rewrite ascii_compare_digit by (apply Z.mod_pos_bound; lia).
    rewrite IH, !(pad_int_mod_step w).
    assert (HP : (0 < 10 ^ Z.of_nat w)%Z) by (apply Z.pow_pos_nonneg; lia).
    rewrite compare_digits by (try apply Z.mod_pos_bound; lia).
    by destruct (Z.compare (x / _ mod 10) _), (Z.compare (x mod _) _).
Qed.

Lemma _ord2ymd_ymd2ord y m d :
  valid_ymd y m d = true -> _ord2ymd (_ymd2ord y m d) = (y, m, d).
Proof.
  intros Hv. assert (Hd : valid_date (_ymd2ord y m d) = true).
  { apply valid_date_spec. by apply _ymd2ord_bounds. }
  pose proof (_ord2ymd_valid _ Hd) as Hok.
  destruct (_ord2ymd _) as [[y' m'] d'] eqn:E. destruct Hok as [Hv' Hord].
  apply ymd_compare_eq. rewrite <- _ymd2ord_compare, Hord by done. apply Z.compare_refl.
Qed.

(** The fields of a valid date, as [date_isoformat] prints them. *)
Lemma date_fields d :
  valid_date d = true ->
  ∃ y m dd, _ord2ymd d = (y, m, dd) ∧ valid_ymd y m dd = true ∧ _ymd2ord y m dd = d ∧
    (0 ≤ y < 10000 ∧ 0 ≤ m < 100 ∧ 0 ≤ dd < 100)%Z.
Proof.
  intros Hd. pose proof (_ord2ymd_valid d Hd) as Hok.
  destruct (_ord2ymd d) as [[y m] dd]. destruct Hok as [Hv Hord].
  pose proof (proj1 (valid_ymd_spec y m dd) Hv) as Hb.
  pose proof (_days_before_month_bounds y m ltac:(lia)).
  exists y, m, dd. split_and!; done || lia.
Qed.

(** Comparing the ISO texts of two dates under SQLite's [BINARY]
    collation is comparing the dates. *)
Lemma date_isoformat_compare a b :
  valid_date a = true -> valid_date b = true ->
  String.compare (date_isoformat a) (date_isoformat b) = Z.compare a b.
Proof.
  intros Ha Hb.
  destruct (date_fields a Ha) as (y1 & m1 & d1 & Ea & Hv1 & <- & B1).
  destruct (date_fields b Hb) as (y2 & m2 & d2 & Eb & Hv2 & <- & B2).
  unfold date_isoformat. rewrite Ea, Eb, compare_pad_int, !Z.mod_small by (simpl; lia).
  rewrite compare_cons_same, compare_pad_int, !Z.mod_small by (simpl; lia).
  rewrite compare_cons_same, <- (append_empty_r (pad_int 2 d1)), <- (append_empty_r (pad_int 2 d2)).
  rewrite compare_pad_int, !Z.mod_small by (simpl; lia).
  rewrite _ymd2ord_compare by done. cbv beta iota delta [ymd_compare].
  by destruct (Z.compare y1 y2), (Z.compare m1 m2), (Z.compare d1 d2).
Qed.

Lemma parse_digits_field w x : (0 ≤ x < 10 ^ Z.of_nat w)%Z -> parse_digits 0 (pad_int w x) = Some x.
Proof. intros Hx. by rewrite parse_digits_pad_int, Z.mod_small, Z.mul_0_l by done. Qed.

Lemma parse_digits_digit acc s x i c :
  parse_digits acc s = Some x -> String.get i s = Some c -> ∃ v, digit_value c = Some v.
Proof.
  revert acc i. induction s as [|c0 s IH]; intros acc i Hp Hi; [done|].
  cbn [parse_digits] in Hp. destruct (digit_value c0) as [v|] eqn:Hc0; [|done].
  destruct i as [|i]; simpl in Hi.
  - injection Hi as <-. by exists v.
  - by eapply IH.
Qed.

Lemma digit_value_ascii c v : digit_value c = Some v -> (nat_of_ascii c < 128)%nat.
Proof.
  unfold digit_value. destruct (_ && _) eqn:Hb; [|done].
  apply andb_true_iff in Hb as [_ Hb%Nat.leb_le]. lia.
Qed.

Lemma digit_value_W c v : digit_value c = Some v -> c ≠ "W"%char.
Proof. intros Hc ->. vm_compute in Hc. discriminate Hc. Qed.

Lemma utf8_encode_ascii s :
  (∀ i c, String.get i s = Some c -> (nat_of_ascii c < 128)%nat) -> utf8_encode s = s.
Proof.
  induction s as [|c s IH]; intros H; [done|]. cbn [utf8_encode].
  rewrite (proj2 (Nat.ltb_lt _ _)) by (by apply (H 0)). f_equal.
  apply IH. intros i c' Hi. by apply (H (S i)).
Qed.

Lemma check_date_args_valid y m d : valid_ymd y m d = true -> check_date_args y m d = Ok tt.
Proof.
  unfold valid_ymd, check_date_args. intros H. repeat rewrite andb_true_iff in H.
  destruct H as [[[[[-> ->] ->] ->] ->] ->]. done.
Qed.

Lemma check_date_args_ok y m d : check_date_args y m d = Ok tt -> valid_ymd y m d = true.
Proof.
  unfold check_date_args, valid_ymd.
  destruct (1 <=? y)%Z, (y <=? 9999)%Z, (1 <=? m)%Z, (m <=? 12)%Z, (1 <=? d)%Z,
    (d <=? _days_in_month y m)%Z; done.
Qed.

(** A date [date.fromisoformat] returns is in [[date.min, date.max]]. *)
Lemma date_fromisoformat_valid s d : date_fromisoformat s = Ok d -> valid_date d = true.
Proof.
  unfold date_fromisoformat. case_match; [|done].
  destruct (parse_isoformat_date _) as [[[y m] dd]|]; [|done].
  destruct (check_date_args y m dd) as [[]|] eqn:Hc; [|done]. simpl. intros [= <-].
  apply valid_date_spec, _ymd2ord_bounds. by apply check_date_args_ok.
Qed.

(** [date.fromisoformat(d.isoformat()) == d]. *)
Lemma date_fromisoformat_isoformat d :
  valid_date d = true -> date_fromisoformat (date_isoformat d) = Ok d.
Proof.
  intros Hd. destruct (date_fields d Hd) as (y & m & dd & E & Hv & Hord & B).
  unfold date_isoformat. rewrite E.
  pose proof (parse_digits_field 4 y ltac:(simpl; lia)) as Py.
  pose proof (parse_digits_field 2 m ltac:(simpl; lia)) as Pm.
  pose proof (parse_digits_field 2 dd ltac:(simpl; lia)) as Pd.
  pose proof (length_pad_int 4 y) as Ly. pose proof (length_pad_int 2 m) as Lm.
  pose proof (length_pad_int 2 dd) as Ld. revert Py Pm Pd Ly Lm Ld.
  destruct (pad_int 4 y) as [|y0 [|y1 [|y2 [|y3 [|]]]]], (pad_int 2 m) as [|m0 [|m1 [|]]],
    (pad_int 2 dd) as [|d0 [|d1 [|]]]; intros Py Pm Pd Ly Lm Ld;
    cbn [String.length] in Ly, Lm, Ld; try discriminate.
  pose proof (λ i c, parse_digits_digit _ _ _ i c Py) as Dy.
  pose proof (λ i c, parse_digits_digit _ _ _ i c Pm) as Dm.
  pose proof (λ i c, parse_digits_digit _ _ _ i c Pd) as Dd.
  unfold date_fromisoformat. rewrite !append_cons, !append_empty_l.
  destruct (Dy 0 y0 eq_refl) as [? A0%digit_value_ascii], (Dy 1 y1 eq_refl) as [? A1%digit_value_ascii],
    (Dy 2 y2 eq_refl) as [? A2%digit_value_ascii], (Dy 3 y3 eq_refl) as [? A3%digit_value_ascii],
    (Dm 1 m1 eq_refl) as [? A5%digit_value_ascii], (Dd 0 d0 eq_refl) as [? A6%digit_value_ascii],
    (Dd 1 d1 eq_refl) as [? A7%digit_value_ascii], (Dm 0 m0 eq_refl) as [? A4].
  pose proof (digit_value_ascii _ _ A4) as A4'.
  rewrite utf8_encode_ascii.
  2:{ intros i c Hi.
      destruct i as [|[|[|[|[|[|[|[|[|[|i]]]]]]]]]]; simpl in Hi; try discriminate Hi;
        injection Hi as <-; first [apply Nat.ltb_lt; reflexivity | assumption]. }
  unfold parse_isoformat_date, digits_at, byte_is.
  cbn [String.length String.substring String.get Nat.eqb Nat.leb orb Nat.add].
  rewrite Py. cbn [mbind option_bind].
  rewrite (bool_decide_true (Some "-"%char = Some "-"%char)) by done.
  rewrite (bool_decide_false (Some m0 = Some "W"%char)) by (intros [= Hw]; by apply (digit_value_W m0 _ A4)).
  rewrite Pm. cbn [mbind option_bind andb negb].
  rewrite (bool_decide_true (Some "-"%char = Some "-"%char)) by done. simpl negb.
  change (5 + 2)%nat with 7%nat. change (S 7 + 2)%nat with 10%nat.
  cbn [Nat.leb String.substring mbind option_bind]. rewrite Pd. cbn [mbind option_bind]. rewrite check_date_args_valid by done. simpl. by rewrite Hord.
Qed.

Lemma length_append s t : String.length (String.append s t) = (String.length s + String.length t)%nat.
Proof. induction s as [|c s IH]; [done|]. rewrite append_cons. cbn [String.length]. by rewrite IH. Qed.

Lemma string_compare_refl s : String.compare s s = Eq.
Proof. induction s as [|c s IH]; [done|]. by rewrite compare_cons_same. Qed.

(** ** The date text, summed up *)

(** [date.fromisoformat(d.isoformat()) == d] for every date of
    [[date.min, date.max]], and the text is always ten characters
    ["YYYY-MM-DD"]. *)
Lemma date_iso_roundtrip d :
  valid_date d = true ->
  date_fromisoformat (date_isoformat d) = Ok d ∧ String.length (date_isoformat d) = 10%nat.
Proof.
  intros Hd. split; [by apply date_fromisoformat_isoformat|].
  unfold date_isoformat. destruct (_ord2ymd d) as [[y m] dd].
  rewrite !length_append. cbn [String.length]. by rewrite !length_pad_int.
Qed.

(** CPython's [_ord2ymd] and [_ymd2ord] are inverse bijections
    between the ordinals of [[date.min, date.max]] and the valid
    [(year, month, day)] fields. *)
Lemma calendar_bijection :
  (∀ n, valid_date n = true ->
     let '(y, m, d) := _ord2ymd n in valid_ymd y m d = true ∧ _ymd2ord y m d = n) ∧
  (∀ y m d, valid_ymd y m d = true ->
     valid_date (_ymd2ord y m d) = true ∧ _ord2ymd (_ymd2ord y m d) = (y, m, d)).
Proof.
  split; [apply _ord2ymd_valid|]. intros y m d Hv. split; [|by apply _ord2ymd_ymd2ord].
  apply valid_date_spec. by apply _ymd2ord_bounds.
Qed.


