(* ===== verification/Streaks.v ===== *)
(** * Streaks: [StatisticsCalculator._calculate_streaks]

    The streak algorithm of [app/core/statistics.py] (lines 42-70) over a
    set of completed dates (a Python [set[date]], here a [gset Z] of
    ordinals):
    - the current streak walks back one day at a time from [today] while
      the cursor is in the set ([current_streak_loop]); the loop is bounded
      by fuel [S (size completed_dates)], and [current_streak_loop_terminates]
      shows that this fuel is never exhausted; the walk raises
      [OverflowError] when it steps below [date.min];
    - the longest streak scans the sorted dates once, extending or
      resetting a run counter ([longest_streak_loop]).

    The specification is the notion of a run: [run P d k] says the [k]
    consecutive days from [d] all satisfy [P].  The current streak is the
    maximal run ending today; the longest streak is the largest run
    ([is_longest]).  Both are proved, and so is [current <= longest]. *)

From S2P Require Import Prelude Models.

(** ** The model *)

(** [while cursor in completed_dates:
        current_streak += 1
        cursor -= timedelta(days=1)]
    with [None] when the fuel runs out. *)
Fixpoint current_streak_loop (fuel : nat) (completed_dates : gset date)
    (cursor : date) (current_streak : nat) : option (Result nat) :=
  match fuel with
  | O => None
  | S fuel' =>
      if decide (cursor ∈ completed_dates) then
        match date_sub_days cursor 1 with
        | Ok cursor' => current_streak_loop fuel' completed_dates cursor' (S current_streak)
        | Raise e => Some (Raise e)
        end
      else Some (Ok current_streak)
  end.

(** The [for i in range(len(sorted_dates))] loop from [i = 1] on: [prev] is
    [sorted_dates[i - 1]], [current] and [longest_streak] the two counters. *)
Fixpoint longest_streak_loop (prev : date) (rest : list date)
    (current longest_streak : nat) : nat :=
  match rest with
  | [] => longest_streak
  | d :: rest' =>
      let current' := if decide (d - prev = 1)%Z then S current else 1 in
      longest_streak_loop d rest' current' (Nat.max longest_streak current')
  end.

(** The whole scan: at [i = 0], [current = 1] and
    [longest_streak = max(0, 1)]. *)
Definition longest_streak_scan (sorted_dates : list date) : nat :=
  match sorted_dates with
  | [] => 0
  | d :: rest => longest_streak_loop d rest 1 (Nat.max 0 1)
  end.

(** [sorted(completed_dates)] *)
Definition sorted_dates_of (completed_dates : gset date) : list date :=
  merge_sort Z.le (elements completed_dates).

(** [_calculate_streaks(completed_dates)] with [date.today()] as [today].
    The loop gets [S (size completed_dates)] iterations of fuel, which
    [current_streak_loop_terminates] shows is enough: the [None] branch is
    never taken. *)
Definition _calculate_streaks (today : date) (completed_dates : gset date)
    : Result (nat * nat) :=
  if decide (completed_dates = ∅) then Ok (0, 0)
  else
    let sorted_dates := sorted_dates_of completed_dates in
    match current_streak_loop (S (size completed_dates)) completed_dates today 0 with
    | Some (Ok current_streak) =>
        Ok (current_streak, longest_streak_scan sorted_dates)
    | Some (Raise e) => Raise e
    | None => Ok (0, longest_streak_scan sorted_dates)
    end.

(** ** Specification: runs of consecutive days *)

(** The [k] days [d, d+1, ..., d+k-1] all satisfy [P]. *)
Definition run (P : date -> Prop) (d : date) (k : nat) : Prop :=
  ∀ i : nat, (i < k)%nat -> P (d + Z.of_nat i)%Z.

(** [L] is the length of a longest run of [P]. *)
Definition is_longest (P : date -> Prop) (L : nat) : Prop :=
  (∃ d, run P d L) ∧ ∀ d k, run P d k -> (k ≤ L)%nat.

(** [k] is the length of the run of [P] that ends at [e] and cannot be
    extended to the past. *)
Definition maximal_run_ending (P : date -> Prop) (e : date) (k : nat) : Prop :=
  run P (e - Z.of_nat k + 1)%Z k ∧ ¬ P (e - Z.of_nat k)%Z.

(** ** Runs *)

Section Runs.
Implicit Types (P Q : date -> Prop) (s : gset date).

Lemma run_mono P Q d k : (∀ x, P x -> Q x) -> run P d k -> run Q d k.
Proof. intros HPQ Hr i Hi. by apply HPQ, Hr. Qed.

Lemma run_le P d k k' : (k' ≤ k)%nat -> run P d k -> run P d k'.
Proof. intros Hk Hr i Hi. apply Hr. lia. Qed.

(** A run of the completed dates has at most [size s] days. *)
Lemma run_size_le s d k : run (λ x, x ∈ s) d k -> (k ≤ size s)%nat.
Proof.
  intros Hr.
  set (l := (λ i : nat, d + Z.of_nat i)%Z <$> seq 0 k).
  assert (NoDup l).
  { apply NoDup_fmap_2; [intros i j ?; lia | apply NoDup_seq]. }
  assert (Hsub : list_to_set l ⊆ s).
  { intros x. rewrite elem_of_list_to_set. subst l.
    rewrite list_elem_of_fmap. intros (i & -> & Hi).
    apply elem_of_seq in Hi. apply Hr. lia. }
  pose proof (subseteq_size _ _ Hsub) as Hle.
  rewrite size_list_to_set in Hle by done.
  subst l. by rewrite length_fmap, length_seq in Hle.
Qed.

(** Walking back one day extends the run ending at the cursor. *)
Lemma maximal_run_ending_step P e k :
  maximal_run_ending P (e - 1) k -> P e -> maximal_run_ending P e (S k).
Proof.
  intros [Hr Hn] He. split.
  - intros i Hi. destruct (decide (i = k)) as [->|].
    + by replace (e - Z.of_nat (S k) + 1 + Z.of_nat k)%Z with e by lia.
    + replace (e - Z.of_nat (S k) + 1 + Z.of_nat i)%Z
        with (e - 1 - Z.of_nat k + 1 + Z.of_nat i)%Z by lia.
      apply Hr. lia.
  - by replace (e - Z.of_nat (S k))%Z with (e - 1 - Z.of_nat k)%Z by lia.
Qed.

(** The maximal run ending at a day has one length. *)
Lemma maximal_run_ending_unique P e k1 k2 :
  maximal_run_ending P e k1 -> maximal_run_ending P e k2 -> k1 = k2.
Proof.
  intros [Hr1 Hn1] [Hr2 Hn2].
  destruct (Nat.lt_total k1 k2) as [Hlt|[?|Hlt]]; [|done|].
  - exfalso. apply Hn1. specialize (Hr2 (k2 - S k1)%nat ltac:(lia)).
    by replace (e - Z.of_nat k2 + 1 + Z.of_nat (k2 - S k1))%Z
      with (e - Z.of_nat k1)%Z in Hr2 by lia.
  - exfalso. apply Hn2. specialize (Hr1 (k1 - S k2)%nat ltac:(lia)).
    by replace (e - Z.of_nat k1 + 1 + Z.of_nat (k1 - S k2))%Z
      with (e - Z.of_nat k2)%Z in Hr1 by lia.
Qed.

(** A run ending at [e] is at most the maximal run ending at [e]. *)
Lemma run_ending_le P e c k :
  ¬ P (e - Z.of_nat c)%Z -> run P (e - Z.of_nat k + 1) k -> (k ≤ c)%nat.
Proof.
  intros Hn Hr. destruct (decide (k ≤ c)%nat); [done|]. exfalso. apply Hn.
  specialize (Hr (k - S c)%nat ltac:(lia)).
  by replace (e - Z.of_nat k + 1 + Z.of_nat (k - S c))%Z with (e - Z.of_nat c)%Z in Hr by lia.
Qed.
End Runs.

(** ** The current streak *)

Lemma date_sub_days_1_inv c r :
  date_sub_days c 1 = r ->
  (r = Ok (c - 1)%Z ∧ valid_date (c - 1) = true) ∨
  (r = Raise (OverflowError "date value out of range") ∧ valid_date (c - 1) = false).
Proof. unfold date_sub_days. destruct (valid_date (c - 1)); intros <-; auto. Qed.

Section CurrentStreak.
Context (s : gset date).

(** Out of fuel: every day walked over was completed. *)
Lemma current_streak_loop_none fuel c n :
  current_streak_loop fuel s c n = None ->
  run (λ x, x ∈ s) (c - Z.of_nat fuel + 1)%Z fuel.
Proof.
  revert c n. induction fuel as [|f IH]; intros c n; simpl; [intros _ i; lia|].
  case_decide as Hc; [|done].
  destruct (date_sub_days_1_inv c _ eq_refl) as [[-> _]|[-> _]]; [|done].
  intros Hnone i Hi. destruct (decide (i = f)) as [->|].
  - by replace (c - Z.of_nat (S f) + 1 + Z.of_nat f)%Z with c by lia.
  - specialize (IH _ _ Hnone i ltac:(lia)).
    by replace (c - Z.of_nat (S f) + 1 + Z.of_nat i)%Z
      with (c - 1 - Z.of_nat f + 1 + Z.of_nat i)%Z by lia.
Qed.

(** Termination: [S (size s)] iterations are enough. *)
Lemma current_streak_loop_terminates c n fuel :
  (size s < fuel)%nat -> current_streak_loop fuel s c n ≠ None.
Proof.
  intros Hf Hnone. apply current_streak_loop_none, run_size_le in Hnone. lia.
Qed.

(** The loop stops at the first day that is not completed: the count is
    the maximal run ending at the start cursor, and the cursor stayed a
    valid date. *)
Lemma current_streak_loop_ok fuel c n m :
  valid_date c = true ->
  current_streak_loop fuel s c n = Some (Ok m) ->
  ∃ k, m = (n + k)%nat ∧ maximal_run_ending (λ x, x ∈ s) c k ∧
       valid_date (c - Z.of_nat k) = true.
Proof.
  revert c n. induction fuel as [|f IH]; intros c n Hc; simpl; [done|].
  case_decide as Hin.
  - destruct (date_sub_days_1_inv c _ eq_refl) as [[-> Hv]|[-> _]]; [|done].
    intros Hrun. destruct (IH _ _ Hv Hrun) as (k & -> & Hmax & Hv').
    exists (S k). split; [lia|]. split.
    + by apply maximal_run_ending_step.
    + by replace (c - Z.of_nat (S k))%Z with (c - 1 - Z.of_nat k)%Z by lia.
  - intros [= <-]. exists 0. split; [lia|]. split; [split|].
    + intros i Hi. lia.
    + by rewrite Z.sub_0_r.
    + by rewrite Z.sub_0_r.
Qed.

(** The loop raises only when every day from [date.min] to the cursor
    is completed. *)
Lemma current_streak_loop_raise fuel c n e :
  valid_date c = true ->
  current_streak_loop fuel s c n = Some (Raise e) ->
  e = OverflowError "date value out of range" ∧
  run (λ x, x ∈ s) date_min_ordinal (Z.to_nat c).
Proof.
  revert c n. induction fuel as [|f IH]; intros c n Hc; simpl; [done|].
  case_decide as Hin; [|done].
  apply valid_date_spec in Hc. unfold date_min_ordinal, date_max_ordinal in *.
  destruct (date_sub_days_1_inv c _ eq_refl) as [[-> Hv]|[-> Hv]].
  - intros Hrun. destruct (IH _ _ Hv Hrun) as [He Hr]. split; [done|].
    intros i Hi. destruct (decide (i = Z.to_nat (c - 1))) as [->|].
    + by replace (1 + Z.of_nat (Z.to_nat (c - 1)))%Z with c by lia.
    + apply Hr. lia.
  - intros [= <-]. split; [done|].
    apply not_true_iff_false in Hv. rewrite valid_date_spec in Hv.
    unfold date_min_ordinal, date_max_ordinal in Hv.
    intros i Hi. by replace (1 + Z.of_nat i)%Z with c by lia.
Qed.
End CurrentStreak.

(** ** The longest streak *)

(** Runs, longest runs and maximal runs depend only on which days satisfy
    the predicate. *)
#[export] Instance run_proper :
  Proper (pointwise_relation date iff ==> eq ==> eq ==> iff) run.
Proof. intros P Q HPQ d ? <- k ? <-. split; apply run_mono; intros x; apply HPQ. Qed.

#[export] Instance is_longest_proper :
  Proper (pointwise_relation date iff ==> eq ==> iff) is_longest.
Proof.
  intros P Q HPQ L ? <-. unfold is_longest.
  by setoid_rewrite HPQ.
Qed.

#[export] Instance maximal_run_ending_proper :
  Proper (pointwise_relation date iff ==> eq ==> eq ==> iff) maximal_run_ending.
Proof.
  intros P Q HPQ e ? <- k ? <-. unfold maximal_run_ending.
  by rewrite HPQ.
Qed.

Section LongestStreak.
Implicit Types (P : date -> Prop).

(** Adding a day [d] after every day of [P]: a longest run is either an
    old one or the maximal run ending at [d]. *)
Lemma is_longest_add_max P d c L :
  (∀ x, P x -> (x < d)%Z) ->
  maximal_run_ending (λ x, P x ∨ x = d) d c ->
  is_longest P L ->
  is_longest (λ x, P x ∨ x = d) (Nat.max L c).
Proof.
  intros Hlt [Hrc Hnc] [[d0 Hd0] Hmax]. split.
  - destruct (Nat.max_spec L c) as [[_ ->]|[_ ->]].
    + by exists (d - Z.of_nat c + 1)%Z.
    + exists d0. revert Hd0. apply run_mono. naive_solver.
  - intros d1 [|k] Hr; [lia|].
    destruct (Hr k ltac:(lia)) as [Hk|Hk].
    + enough (k' : (S k ≤ L)%nat) by lia. apply (Hmax d1).
      intros i Hi. destruct (Hr i Hi) as [|Hi']; [done|].
      specialize (Hlt _ Hk). lia.
    + enough (S k ≤ c)%nat by lia. apply (run_ending_le (λ x, P x ∨ x = d) d c _ Hnc).
      by replace (d - Z.of_nat (S k) + 1)%Z with d1 by lia.
Qed.

(** One iteration of the scan keeps the counters right: [current] is the
    maximal run ending at the last date seen, [longest_streak] the longest
    run among the dates seen. *)
Lemma longest_streak_loop_spec rest : ∀ P prev current L,
  StronglySorted Z.lt (prev :: rest) ->
  (∀ x, P x -> (x ≤ prev)%Z) ->
  maximal_run_ending P prev current ->
  is_longest P L ->
  is_longest (λ x, P x ∨ x ∈ rest) (longest_streak_loop prev rest current L).
Proof.
  induction rest as [|d rest IH]; intros P prev current L Hs Hle Hcur HL; simpl.
  - revert HL. apply is_longest_proper; [|done]. intros x. set_solver.
  - apply StronglySorted_inv in Hs as [Hs Hall].
    apply Forall_cons in Hall as [Hpd _].
    set (current' := if decide (d - prev = 1)%Z then S current else 1).
    assert (Hcur' : maximal_run_ending (λ x, P x ∨ x = d) d current').
    { subst current'. destruct Hcur as [Hr Hn]. case_decide.
      - apply maximal_run_ending_step; [|by right]. split.
        + replace (d - 1)%Z with prev by lia. revert Hr. apply run_mono. naive_solver.
        + replace (d - 1)%Z with prev by lia. intros [?|?]; [done|lia].
      - split.
        + intros i Hi. right. lia.
        + intros [Hp|?]; [specialize (Hle _ Hp)|]; lia. }
    assert (IH' : is_longest (λ x, (P x ∨ x = d) ∨ x ∈ rest)
                    (longest_streak_loop d rest current' (Nat.max L current'))).
    { apply IH; [done| |done|].
      - intros x [Hp| ->]; [specialize (Hle _ Hp)|]; lia.
      - apply is_longest_add_max; [|done|done]. intros x Hp. specialize (Hle _ Hp). lia. }
    revert IH'. apply is_longest_proper; [|done].
    intros x. rewrite elem_of_cons. naive_solver.
Qed.

(** The scan over a strictly increasing list returns its longest run. *)
Lemma longest_streak_scan_spec l :
  StronglySorted Z.lt l -> is_longest (λ x, x ∈ l) (longest_streak_scan l).
Proof.
  destruct l as [|d rest]; simpl; intros Hs.
  - split; [exists 0%Z; intros i Hi; lia|]. intros d k Hr. destruct k as [|k]; [lia|].
    specialize (Hr 0 ltac:(lia)). set_solver.
  - assert (H : is_longest (λ x, x = d ∨ x ∈ rest) (longest_streak_loop d rest 1 (Nat.max 0 1))).
    { apply longest_streak_loop_spec; [done|intros x ->; lia|split; [intros i Hi; lia|lia]|].
      split; [exists d; intros i Hi; lia|].
      intros d0 [|[|k]] Hr; [lia|lia|].
      pose proof (Hr 0 ltac:(lia)). pose proof (Hr 1 ltac:(lia)). simpl in *. lia. }
    revert H. apply is_longest_proper; [|done]. intros x. rewrite elem_of_cons. naive_solver.
Qed.
End LongestStreak.

Lemma StronglySorted_le_lt (l : list date) :
  StronglySorted Z.le l -> NoDup l -> StronglySorted Z.lt l.
Proof.
  induction l as [|x l IH]; intros Hs Hnd; [constructor|].
  apply StronglySorted_inv in Hs as [Hs Hall]. apply NoDup_cons in Hnd as [Hx Hnd].
  constructor; [by apply IH|]. apply Forall_forall. intros y Hy.
  rewrite Forall_forall in Hall. specialize (Hall y Hy).
  assert (x ≠ y) by (intros ->; apply Hx; by apply list_elem_of_In). lia.
Qed.

(** [sorted(completed_dates)] lists the set in increasing order. *)
Lemma sorted_dates_of_spec (s : gset date) :
  StronglySorted Z.lt (sorted_dates_of s) ∧ ∀ x, x ∈ sorted_dates_of s <-> x ∈ s.
Proof.
  unfold sorted_dates_of. split.
  - apply StronglySorted_le_lt; [apply StronglySorted_merge_sort; apply _|].
    rewrite merge_sort_Permutation. apply NoDup_elements.
  - intros x. by rewrite merge_sort_Permutation, elem_of_elements.
Qed.

Lemma longest_streak_of_set (s : gset date) :
  is_longest (λ x, x ∈ s) (longest_streak_scan (sorted_dates_of s)).
Proof.
  destruct (sorted_dates_of_spec s) as [Hs Hmem].
  generalize (longest_streak_scan_spec _ Hs). apply is_longest_proper; [|done].
  intros x. by rewrite Hmem.
Qed.

(** ** [_calculate_streaks] *)

Section CalculateStreaks.
Context (today : date) (s : gset date).
Hypothesis Htoday : valid_date today = true.

Lemma _calculate_streaks_cases :
  (s = ∅ ∧ _calculate_streaks today s = Ok (0, 0)) ∨
  (s ≠ ∅ ∧ ∃ r, current_streak_loop (S (size s)) s today 0 = Some r ∧
     _calculate_streaks today s =
       res_bind r (λ c, Ok (c, longest_streak_scan (sorted_dates_of s)))).
Proof.
  unfold _calculate_streaks. case_decide as Hs; [by left|right].
  split; [done|].
  destruct (current_streak_loop _ _ _ _) as [r|] eqn:Hl.
  - exists r. split; [done|]. by destruct r.
  - by apply current_streak_loop_terminates in Hl; [|lia].
Qed.

(** The two streaks are the maximal run ending today and a longest run. *)
Lemma _calculate_streaks_runs current longest :
  _calculate_streaks today s = Ok (current, longest) ->
  maximal_run_ending (λ x, x ∈ s) today current ∧
  is_longest (λ x, x ∈ s) longest.
Proof.
  destruct _calculate_streaks_cases as [[-> ->]|(Hne & r & Hl & ->)].
  - intros [= <- <-]. split.
    + split; [intros i Hi; lia|set_solver].
    + split; [exists 0%Z; intros i Hi; lia|]. intros d [|k] Hr; [lia|].
      specialize (Hr 0 ltac:(lia)). set_solver.
  - destruct r as [m|e]; simpl; [|done]. intros [= <- <-]. split.
    + destruct (current_streak_loop_ok s _ _ _ _ Htoday Hl) as (k & -> & Hk & _).
      done.
    + apply longest_streak_of_set.
Qed.

(** The walk back from today raises exactly when every day from
    [date.min] to today is completed. *)
Theorem _calculate_streaks_raise e :
  _calculate_streaks today s = Raise e <->
  e = OverflowError "date value out of range" ∧
  run (λ x, x ∈ s) date_min_ordinal (Z.to_nat today).
Proof.
  pose proof Htoday as Hv. apply valid_date_spec in Hv.
  unfold date_min_ordinal, date_max_ordinal in *.
  destruct _calculate_streaks_cases as [[-> ->]|(Hne & r & Hl & ->)].
  - split; [done|]. intros [_ Hr]. specialize (Hr 0 ltac:(lia)). set_solver.
  - destruct r as [m|e']; simpl.
    + split; [done|]. intros [_ Hr]. exfalso.
      destruct (current_streak_loop_ok s _ _ _ _ Htoday Hl) as (k & -> & [_ Hn] & Hk).
      apply valid_date_spec in Hk. unfold date_min_ordinal, date_max_ordinal in Hk.
      apply Hn. specialize (Hr (Z.to_nat (today - Z.of_nat k - 1)) ltac:(lia)).
      by replace (1 + Z.of_nat (Z.to_nat (today - Z.of_nat k - 1)))%Z
        with (today - Z.of_nat k)%Z in Hr by lia.
    + destruct (current_streak_loop_raise s _ _ _ _ Htoday Hl) as [-> Hr].
      split; [intros [= <-]; by split|]. by intros [-> _].
Qed.
End CalculateStreaks.

(** ** Consequences *)

(** The current streak never exceeds the longest streak, and the longest
    never exceeds the number of completed dates. *)
Theorem current_le_longest_le_size today s current longest :
  valid_date today = true ->
  _calculate_streaks today s = Ok (current, longest) ->
  (current ≤ longest ≤ size s)%nat.
Proof.
  intros Hv Hc. destruct (_calculate_streaks_runs today s Hv _ _ Hc)
    as [[Hrun _] [[d Hd] Hmax]].
  split; [by eapply Hmax|]. by eapply run_size_le.
Qed.

(** ** Uniqueness and fuel *)

Lemma is_longest_unique P L1 L2 : is_longest P L1 -> is_longest P L2 -> L1 = L2.
Proof.
  intros [[d1 H1] Hmax1] [[d2 H2] Hmax2].
  specialize (Hmax1 _ _ H2). specialize (Hmax2 _ _ H1). lia.
Qed.

(** More fuel than a run needs gives the same result. *)
Lemma current_streak_loop_more_fuel s f m c n r :
  current_streak_loop f s c n = Some r -> current_streak_loop (f + m) s c n = Some r.
Proof.
  revert c n. induction f as [|f IH]; intros c n; simpl; [done|].
  case_decide; [|done]. destruct (date_sub_days c 1); [apply IH|done].
Qed.

(** C1: [_calculate_streaks] is correct and complete: it returns
    [(current, longest)] exactly when [current] is the length of the run of
    completed days ending today, [longest] the length of a longest run of
    completed days, and the walk back does not step below [date.min]. *)
Theorem _calculate_streaks_correct today s current longest :
  valid_date today = true ->
  _calculate_streaks today s = Ok (current, longest) <->
  maximal_run_ending (λ x, x ∈ s) today current ∧ is_longest (λ x, x ∈ s) longest ∧
  ¬ run (λ x, x ∈ s) date_min_ordinal (Z.to_nat today).
Proof.
  intros Hv. split.
  - intros Hc. destruct (_calculate_streaks_runs today s Hv _ _ Hc) as [Hcur Hlong].
    split_and!; [done|done|]. intros Hrun.
    assert (Hr : _calculate_streaks today s = Raise (OverflowError "date value out of range"))
      by (by apply _calculate_streaks_raise).
    congruence.
  - intros (Hcur & Hlong & Hno).
    destruct (_calculate_streaks today s) as [[c l]|e] eqn:Hc.
    + destruct (_calculate_streaks_runs today s Hv _ _ Hc) as [Hcur' Hlong'].
      by rewrite (maximal_run_ending_unique _ _ _ _ Hcur Hcur'),
                 (is_longest_unique _ _ _ Hlong Hlong').
    + apply _calculate_streaks_raise in Hc as [_ Hrun]; [|done]. by destruct Hno.
Qed.

(** C11: the walk back from the cursor terminates: any fuel above the number
    of completed dates gives the same result, the one [_calculate_streaks]
    uses, and never runs out. *)
Theorem current_streak_loop_fuel_indep s c n fuel :
  (size s < fuel)%nat ->
  current_streak_loop fuel s c n = current_streak_loop (S (size s)) s c n ∧
  current_streak_loop fuel s c n ≠ None.
Proof.
  intros Hf. split; [|by apply current_streak_loop_terminates].
  destruct (current_streak_loop (S (size s)) s c n) as [r|] eqn:Hr.
  - replace fuel with (S (size s) + (fuel - S (size s)))%nat by lia.
    by apply current_streak_loop_more_fuel.
  - by apply current_streak_loop_terminates in Hr; [|lia].
Qed.

(** ** Witnesses

    Scenario B of the specification with today = 738000 (2021-07-28):
    completed today, yesterday, and 5 and 6 days ago. *)
Definition scenario_B_dates : gset date := {[738000; 737999; 737995; 737994]}%Z.

Lemma _calculate_streaks_correct_witness :
  valid_date 738000 = true ∧
  maximal_run_ending (λ x, x ∈ scenario_B_dates) 738000 2 ∧
  is_longest (λ x, x ∈ scenario_B_dates) 2 ∧
  ¬ run (λ x, x ∈ scenario_B_dates) date_min_ordinal (Z.to_nat 738000).
Proof.
  split; [reflexivity|].
  apply (proj1 (_calculate_streaks_correct 738000 scenario_B_dates 2 2 eq_refl)).
  vm_compute. reflexivity.
Defined.

Lemma current_streak_loop_fuel_indep_witness :
  (size scenario_B_dates < 10)%nat ∧
  current_streak_loop 10 scenario_B_dates 738000 0 =
    current_streak_loop (S (size scenario_B_dates)) scenario_B_dates 738000 0 ∧
  current_streak_loop 10 scenario_B_dates 738000 0 ≠ None.
Proof.
  assert (H : (size scenario_B_dates < 10)%nat) by (vm_compute; lia).
  split; [exact H|]. apply (current_streak_loop_fuel_indep scenario_B_dates 738000 0 10 H).
Defined.
