(* ===== verification/Statistics.v ===== *)
(** * Statistics: the calculators and their registry

    [app/core/statistics.py]: [StatisticsResult], the abstract
    [StatisticsCalculator] with its shared [_filter_logs_by_date], the
    [BooleanStatisticsCalculator] and [NumericStatisticsCalculator] and the
    [StatisticsCalculatorFactory] registry.  The streaks come from
    [Streaks.v].

    A calculator is a [Record] holding its [calculate] method;
    [CalculatorLaws] is the contract the service relies on (the window,
    the day count, the rate, the streaks), proved for both calculators.
    [date.today()] is the argument [today] of [calculate].  The rate and
    the average are floats ([Float64.v]): the rate is the rounded
    quotient of two [int]s, the average a rounded [sum] over the values
    in the order the store returned them, so reordering the entries
    changes at most that order ([calculate_perm], [stats_reordered]). *)

From S2P Require Import Prelude Float64 Models Streaks.

(** ** The result *)
Record StatisticsResult : Type := mkStatisticsResult {
  current_streak : nat;
  longest_streak : nat;
  total_completions : nat;
  completion_rate : Q;
  average_value : option Q;
  total_days_tracked : nat
}.

(** ** [_filter_logs_by_date] *)

(** [if start: filtered = [log for log in filtered if log.date >= start]]
    and likewise for [end]; a [date] is always truthy, so [if start:] is
    [start is not None]. *)
Definition _filter_logs_by_date (logs : list LogEntry) (start end_ : option date)
    : list LogEntry :=
  let filtered := logs in
  let filtered :=
    match start with
    | Some st => filter (λ log, (st ≤ log_date log)%Z) filtered
    | None => filtered
    end in
  match end_ with
  | Some en => filter (λ log, (log_date log ≤ en)%Z) filtered
  | None => filtered
  end.


(** ** Aggregates shared by both calculators *)

(** [len(filtered_logs) if filtered_logs else 0] *)
Definition total_days_of (filtered_logs : list LogEntry) : nat :=
  match filtered_logs with
  | [] => 0
  | _ => length filtered_logs
  end.

(** [a / b] on two [int]s: [ZeroDivisionError] when [b] is [0], and
    otherwise the double nearest the quotient (CPython divides two
    [int]s with one correct rounding). *)
Definition py_int_truediv (a b : nat) : Result Q :=
  if decide (b = 0) then Raise (ZeroDivisionError "division by zero")
  else Ok (fl (inject_Z (Z.of_nat a) / inject_Z (Z.of_nat b)))%Q.

(** [total_completions / total_days if total_days > 0 else 0.0] *)
Definition completion_rate_of (total_completions total_days : nat) : Result Q :=
  if decide (0 < total_days)%nat then py_int_truediv total_completions total_days else Ok 0%Q.


(** ** [BooleanStatisticsCalculator] *)

(** [log.value is not None and log.value >= 1.0] *)
Definition boolean_completes (log : LogEntry) : Prop :=
  match log_value log with
  | Some v => (1 <= v)%Q
  | None => False
  end.

#[export] Instance boolean_completes_dec log : Decision (boolean_completes log).
Proof. unfold boolean_completes. destruct (log_value log); apply _. Defined.

(** The loop [for log in filtered_logs: if ...: completed_dates.add(log.date)]. *)
Definition boolean_completed_dates (filtered_logs : list LogEntry) : gset date :=
  fold_left (λ completed_dates log,
               if decide (boolean_completes log)
               then {[log_date log]} ∪ completed_dates else completed_dates)
            filtered_logs ∅.

Definition BooleanStatisticsCalculator_calculate (today : date) (habit : Habit)
    (logs : list LogEntry) (start end_ : option date) : Result StatisticsResult :=
  let filtered_logs := _filter_logs_by_date logs start end_ in
  let completed_dates := boolean_completed_dates filtered_logs in
  let! streaks := _calculate_streaks today completed_dates in
  let total_completions := size completed_dates in
  let total_days := total_days_of filtered_logs in
  let! completion_rate := completion_rate_of total_completions total_days in
  Ok {| current_streak := fst streaks;
        longest_streak := snd streaks;
        total_completions := total_completions;
        completion_rate := completion_rate;
        average_value := None;
        total_days_tracked := total_days |}.

(** ** [NumericStatisticsCalculator] *)

(** The completion rule of a value under the habit's goal:
    [log.value >= habit.goal] with a goal, [log.value > 0] without. *)
Definition numeric_completes (goal : option Q) (v : Q) : Prop :=
  match goal with
  | Some g => (g <= v)%Q
  | None => (0 < v)%Q
  end.

#[export] Instance numeric_completes_dec g v : Decision (numeric_completes g v).
Proof. unfold numeric_completes. destruct g; apply _. Defined.

(** One iteration of the loop over [filtered_logs], on the pair
    [(completed_dates, values)]. *)
Definition numeric_step (goal : option Q) (acc : gset date * list Q) (log : LogEntry)
    : gset date * list Q :=
  let '(completed_dates, values) := acc in
  match log_value log with
  | Some v =>
      let values := values ++ [v] in
      if decide (numeric_completes goal v)
      then ({[log_date log]} ∪ completed_dates, values)
      else (completed_dates, values)
  | None => (completed_dates, values)
  end.

Definition numeric_loop (goal : option Q) (filtered_logs : list LogEntry)
    : gset date * list Q :=
  fold_left (numeric_step goal) filtered_logs (∅, []).

(** [sum(values) / len(values) if values else None], in float
    arithmetic: the rounded running sum, then one rounded division. *)
Definition average_of (values : list Q) : option Q :=
  match values with
  | [] => None
  | _ => Some (py_fdiv (py_fsum values) (length values))
  end.

Definition NumericStatisticsCalculator_calculate (today : date) (habit : Habit)
    (logs : list LogEntry) (start end_ : option date) : Result StatisticsResult :=
  let filtered_logs := _filter_logs_by_date logs start end_ in
  let '(completed_dates, values) := numeric_loop (goal habit) filtered_logs in
  let! streaks := _calculate_streaks today completed_dates in
  let total_completions := size completed_dates in
  let total_days := total_days_of filtered_logs in
  let! completion_rate := completion_rate_of total_completions total_days in
  Ok {| current_streak := fst streaks;
        longest_streak := snd streaks;
        total_completions := total_completions;
        completion_rate := completion_rate;
        average_value := average_of values;
        total_days_tracked := total_days |}.

(** ** The calculator interface and the factory *)

(** [StatisticsCalculator]: an object with a [calculate] method. *)
Record StatisticsCalculator : Type := mkStatisticsCalculator {
  calculate : date -> Habit -> list LogEntry -> option date -> option date ->
              Result StatisticsResult
}.

Definition BooleanStatisticsCalculator : StatisticsCalculator :=
  {| calculate := BooleanStatisticsCalculator_calculate |}.
Definition NumericStatisticsCalculator : StatisticsCalculator :=
  {| calculate := NumericStatisticsCalculator_calculate |}.

(** [StatisticsCalculatorFactory._calculators], a dict from type to
    calculator. *)
Abbreviation Registry := (gmap HabitType StatisticsCalculator).

Definition _calculators : Registry :=
  {[BOOLEAN := BooleanStatisticsCalculator; NUMERIC := NumericStatisticsCalculator]}.

Definition get_calculator (calculators : Registry) (habit_type : HabitType)
    : Result StatisticsCalculator :=
  match calculators !! habit_type with
  | Some calculator => Ok calculator
  | None => Raise (ValueError ("No calculator found for habit type: " +:+ HabitType_value habit_type))
  end.

Definition register_calculator (calculators : Registry) (habit_type : HabitType)
    (calculator : StatisticsCalculator) : Registry :=
  <[habit_type := calculator]> calculators.

(** ** The window *)

(** The two comprehensions keep exactly the entries inside the window, in
    their order. *)
Lemma _filter_logs_by_date_filter logs start end_ :
  _filter_logs_by_date logs start end_ = filter (λ log, in_window start end_ (log_date log)) logs.
Proof.
  unfold _filter_logs_by_date, in_window. destruct start as [st|], end_ as [en|].
  - rewrite list_filter_filter. apply list_filter_iff. naive_solver.
  - apply list_filter_iff. naive_solver.
  - apply list_filter_iff. naive_solver.
  - symmetry. apply list_filter_all. naive_solver.
Qed.

(** ** The completed-date loops against a reference definition *)

(** The completion rule of the numeric calculator on a whole entry. *)
Definition numeric_log_completes (goal : option Q) (log : LogEntry) : Prop :=
  match log_value log with
  | Some v => numeric_completes goal v
  | None => False
  end.

#[export] Instance numeric_log_completes_dec g log : Decision (numeric_log_completes g log).
Proof. unfold numeric_log_completes. destruct (log_value log); apply _. Defined.

(** The reference: the set of dates of the entries that satisfy [P]. *)
Definition completed_dates_ref (P : LogEntry -> Prop) `{!∀ l, Decision (P l)}
    (filtered_logs : list LogEntry) : gset date :=
  list_to_set (log_date <$> filter P filtered_logs).

Section CompletedFold.
Context (P : LogEntry -> Prop) `{!∀ l, Decision (P l)}.

(** [completed_dates.add(log.date)] under a condition, as a fold, is the
    reference set (plus what the accumulator held). *)
Lemma fold_add_completed l (acc : gset date) :
  fold_left (λ completed_dates log,
               if decide (P log) then {[log_date log]} ∪ completed_dates
               else completed_dates) l acc
  = completed_dates_ref P l ∪ acc.
Proof.
  unfold completed_dates_ref. revert acc.
  induction l as [|log l IH]; intros acc; simpl.
  - set_solver.
  - rewrite IH, filter_cons. apply leibniz_equiv.
    case_decide; simpl; set_solver.
Qed.

Lemma completed_dates_ref_size l : (size (completed_dates_ref P l) ≤ length l)%nat.
Proof.
  unfold completed_dates_ref. etrans; [apply size_list_to_set_le|].
  rewrite length_fmap. apply length_filter.
Qed.

Lemma elem_of_completed_dates_ref l d :
  d ∈ completed_dates_ref P l <-> ∃ log, log ∈ l ∧ P log ∧ log_date log = d.
Proof.
  unfold completed_dates_ref. rewrite elem_of_list_to_set, list_elem_of_fmap.
  setoid_rewrite list_elem_of_filter. naive_solver.
Qed.
End CompletedFold.

Lemma boolean_completed_dates_ref l :
  boolean_completed_dates l = completed_dates_ref boolean_completes l.
Proof. unfold boolean_completed_dates. rewrite fold_add_completed. set_solver. Qed.

(** The numeric loop builds the reference set of completed dates and the
    list of all present values, in order. *)
Lemma numeric_loop_fold goal l acc values :
  fold_left (numeric_step goal) l (acc, values) =
  (completed_dates_ref (numeric_log_completes goal) l ∪ acc, values ++ omap log_value l).
Proof.
  revert acc values. induction l as [|log l IH]; intros acc values; simpl.
  - unfold completed_dates_ref. f_equal; [set_solver|by rewrite app_nil_r].
  - destruct (log_value log) as [v|] eqn:Hv; simpl; rewrite ?Hv.
    + case_decide as Hc; rewrite IH; f_equal.
      * unfold completed_dates_ref. rewrite filter_cons_True by (unfold numeric_log_completes; by rewrite Hv).
        simpl. set_solver.
      * by rewrite <- app_assoc.
      * unfold completed_dates_ref.
        rewrite filter_cons_False by (unfold numeric_log_completes; rewrite Hv; tauto).
        set_solver.
      * by rewrite <- app_assoc.
    + rewrite IH. f_equal. unfold completed_dates_ref.
      rewrite filter_cons_False by (unfold numeric_log_completes; rewrite Hv; tauto).
      done.
Qed.

Lemma numeric_loop_ref goal l :
  numeric_loop goal l = (completed_dates_ref (numeric_log_completes goal) l, omap log_value l).
Proof. unfold numeric_loop. rewrite numeric_loop_fold. f_equal; set_solver. Qed.

(** ** Functional behaviour of the two calculators *)

Lemma total_days_of_length l : total_days_of l = length l.
Proof. by destruct l. Qed.

(** The completion rule of a calculator, as a predicate on entries. *)
Definition completes_rule (habit_type : HabitType) (goal : option Q) : LogEntry -> Prop :=
  match habit_type with
  | BOOLEAN => boolean_completes
  | NUMERIC => numeric_log_completes goal
  end.

#[export] Instance completes_rule_dec t g log : Decision (completes_rule t g log).
Proof. destruct t; apply _. Defined.

(** Both calculators, once their loops are replaced by the reference
    sets: the result is a function of the filtered entries, the completed
    dates, and the streaks of those dates. *)
Definition stats_of (today : date) (t : HabitType) (goal : option Q)
    (filtered_logs : list LogEntry) (average : option Q) : Result StatisticsResult :=
  let completed_dates := completed_dates_ref (completes_rule t goal) filtered_logs in
  let! streaks := _calculate_streaks today completed_dates in
  let! completion_rate := completion_rate_of (size completed_dates) (length filtered_logs) in
  Ok {| current_streak := fst streaks;
        longest_streak := snd streaks;
        total_completions := size completed_dates;
        completion_rate := completion_rate;
        average_value := average;
        total_days_tracked := length filtered_logs |}.

(** The guard keeps the division from raising. *)
Lemma completion_rate_of_ok a b :
  completion_rate_of a b =
  Ok (if decide (0 < b)%nat then fl (inject_Z (Z.of_nat a) / inject_Z (Z.of_nat b)) else 0)%Q.
Proof.
  unfold completion_rate_of, py_int_truediv.
  case_decide; [|done]. by rewrite decide_False by lia.
Qed.

(** A rate of at most as many completions as days is in [[0, 1]]. *)
Lemma completion_rate_of_unit a b q :
  (a ≤ b)%nat -> completion_rate_of a b = Ok q -> (0 <= q <= 1)%Q.
Proof.
  rewrite completion_rate_of_ok. intros Hab [= <-].
  case_decide; [by apply fl_unit, Qdiv_nat_unit|split; discriminate].
Qed.

Lemma BooleanStatisticsCalculator_calculate_ref today habit logs start end_ :
  BooleanStatisticsCalculator_calculate today habit logs start end_ =
  stats_of today BOOLEAN None (_filter_logs_by_date logs start end_) None.
Proof.
  unfold BooleanStatisticsCalculator_calculate, stats_of.
  rewrite boolean_completed_dates_ref, total_days_of_length.
  by destruct (_calculate_streaks _ _).
Qed.

Lemma NumericStatisticsCalculator_calculate_ref today habit logs start end_ :
  NumericStatisticsCalculator_calculate today habit logs start end_ =
  let filtered_logs := _filter_logs_by_date logs start end_ in
  stats_of today NUMERIC (goal habit) filtered_logs (average_of (omap log_value filtered_logs)).
Proof.
  unfold NumericStatisticsCalculator_calculate, stats_of. simpl.
  rewrite numeric_loop_ref, total_days_of_length.
  by destruct (_calculate_streaks _ _).
Qed.

Section StatsOf.
Context (today : date) (t : HabitType) (goal : option Q) (l : list LogEntry) (avg : option Q).

Lemma stats_of_ok r :
  stats_of today t goal l avg = Ok r ->
  let completed_dates := completed_dates_ref (completes_rule t goal) l in
  _calculate_streaks today completed_dates = Ok (current_streak r, longest_streak r) ∧
  total_completions r = size completed_dates ∧
  total_days_tracked r = length l ∧
  completion_rate_of (total_completions r) (total_days_tracked r) = Ok (completion_rate r) ∧
  average_value r = avg.
Proof.
  unfold stats_of. destruct (_calculate_streaks _ _) as [[c lg]|e]; simpl; [|done].
  destruct (completion_rate_of _ _) eqn:Hr; simpl; [|done]. by intros [= <-].
Qed.

Lemma stats_of_raise e :
  stats_of today t goal l avg = Raise e <->
  _calculate_streaks today (completed_dates_ref (completes_rule t goal) l) = Raise e.
Proof.
  unfold stats_of. rewrite completion_rate_of_ok.
  destruct (_calculate_streaks _ _) as [[c lg]|e']; simpl; split; congruence.
Qed.
End StatsOf.

(** ** The calculator contract *)

(** What [HabitService.get_statistics] may rely on from any registered
    calculator. *)
Class CalculatorLaws (c : StatisticsCalculator) : Prop := {
  calculator_total_days today habit logs start end_ r :
    calculate c today habit logs start end_ = Ok r ->
    total_days_tracked r = length (_filter_logs_by_date logs start end_);
  calculator_completions_le today habit logs start end_ r :
    calculate c today habit logs start end_ = Ok r ->
    (total_completions r ≤ total_days_tracked r)%nat;
  calculator_rate today habit logs start end_ r :
    calculate c today habit logs start end_ = Ok r ->
    completion_rate_of (total_completions r) (total_days_tracked r) = Ok (completion_rate r);
  calculator_streaks today habit logs start end_ r :
    valid_date today = true ->
    calculate c today habit logs start end_ = Ok r ->
    (current_streak r ≤ longest_streak r ≤ total_completions r)%nat
}.

Lemma stats_of_laws today t goal l avg r :
  stats_of today t goal l avg = Ok r ->
  total_days_tracked r = length l ∧
  (total_completions r ≤ total_days_tracked r)%nat ∧
  completion_rate_of (total_completions r) (total_days_tracked r) = Ok (completion_rate r) ∧
  (valid_date today = true ->
   (current_streak r ≤ longest_streak r ≤ total_completions r)%nat).
Proof.
  intros (Hs & Htc & Htd & Hrate & _)%stats_of_ok.
  split_and!; [done| |done|].
  - rewrite Htc, Htd. apply completed_dates_ref_size.
  - intros Hv. rewrite Htc. by eapply current_le_longest_le_size.
Qed.

(** Discharge the four laws from [stats_of_laws], once [calculate] is
    rewritten to [stats_of]. *)
Ltac laws_from_stats_of ref :=
  split; intros today habit logs start end_ r; simpl; rewrite ref;
  [ intros H; by apply stats_of_laws in H as (-> & _)
  | intros H; by apply stats_of_laws in H as (_ & ? & _)
  | intros H; by apply stats_of_laws in H as (_ & _ & ? & _)
  | intros Hv H; apply stats_of_laws in H as (_ & _ & _ & H); by apply H ].

#[export] Instance BooleanStatisticsCalculator_laws : CalculatorLaws BooleanStatisticsCalculator.
Proof. laws_from_stats_of BooleanStatisticsCalculator_calculate_ref. Qed.

#[export] Instance NumericStatisticsCalculator_laws : CalculatorLaws NumericStatisticsCalculator.
Proof. laws_from_stats_of NumericStatisticsCalculator_calculate_ref. Qed.

(** ** Theorems on the window *)

Lemma _filter_logs_by_date_spec logs start end_ log :
  log ∈ _filter_logs_by_date logs start end_ <->
  log ∈ logs ∧ in_window start end_ (log_date log).
Proof. rewrite _filter_logs_by_date_filter, list_elem_of_filter. naive_solver. Qed.

(** ** Theorems on the aggregates *)

(** C2: the completion rate of any calculator that keeps the contract is a
    float in [[0, 1]]: the double nearest completions over tracked
    entries, or [0.0] when no entry is tracked. *)
Theorem completion_rate_bounds c `{!CalculatorLaws c} today habit logs start end_ r :
  calculate c today habit logs start end_ = Ok r ->
  (0 <= completion_rate r <= 1)%Q ∧
  ((0 < total_days_tracked r)%nat ->
     completion_rate r = fl (inject_Z (Z.of_nat (total_completions r)) /
                             inject_Z (Z.of_nat (total_days_tracked r)))%Q) ∧
  (total_days_tracked r = 0 -> completion_rate r = 0%Q).
Proof.
  intros Hc. pose proof (calculator_completions_le _ _ _ _ _ _ Hc) as Hle.
  pose proof (calculator_rate _ _ _ _ _ _ Hc) as Hr.
  split; [by eapply completion_rate_of_unit|].
  rewrite completion_rate_of_ok in Hr. injection Hr as <-.
  case_decide; split; (done || lia).
Qed.

(** The days a calculator counts as completed: the distinct dates inside
    the window carrying an entry that satisfies the calculator's rule. *)
Lemma stats_of_completions today t goal logs start end_ avg r :
  stats_of today t goal (_filter_logs_by_date logs start end_) avg = Ok r ->
  ∃ S : gset date, total_completions r = size S ∧
    ∀ d, d ∈ S <-> ∃ log, log ∈ logs ∧ in_window start end_ d ∧
                         completes_rule t goal log ∧ log_date log = d.
Proof.
  intros (_ & -> & _)%stats_of_ok. eexists; split; [done|]. intros d.
  rewrite elem_of_completed_dates_ref. setoid_rewrite _filter_logs_by_date_spec.
  naive_solver.
Qed.

(** C3: for a boolean habit, [total_completions] is the number of distinct
    dates in the window that carry an entry of value [>= 1.0]. *)
Theorem Boolean_total_completions today habit logs start end_ r :
  BooleanStatisticsCalculator_calculate today habit logs start end_ = Ok r ->
  ∃ S : gset date, total_completions r = size S ∧
    ∀ d, d ∈ S <-> ∃ log v, log ∈ logs ∧ in_window start end_ d ∧ log_date log = d ∧
                           log_value log = Some v ∧ (1 <= v)%Q.
Proof.
  rewrite BooleanStatisticsCalculator_calculate_ref.
  intros (S & HS & Hmem)%stats_of_completions. exists S. split; [done|].
  intros d. rewrite Hmem. unfold completes_rule, boolean_completes.
  split.
  - intros (log & ? & ? & Hc & ?). destruct (log_value log) eqn:?; naive_solver.
  - intros (log & v & ? & ? & ? & Hv & ?). exists log. rewrite Hv. naive_solver.
Qed.

(** C4: for a numeric habit, [total_completions] is the number of distinct
    dates in the window that carry an entry whose value reaches the goal
    ([>= goal]), or is positive ([> 0]) when the habit has no goal. *)
Theorem Numeric_total_completions today habit logs start end_ r :
  NumericStatisticsCalculator_calculate today habit logs start end_ = Ok r ->
  ∃ S : gset date, total_completions r = size S ∧
    ∀ d, d ∈ S <-> ∃ log v, log ∈ logs ∧ in_window start end_ d ∧ log_date log = d ∧
                           log_value log = Some v ∧
                           match goal habit with Some g => (g <= v)%Q | None => (0 < v)%Q end.
Proof.
  rewrite NumericStatisticsCalculator_calculate_ref.
  intros (S & HS & Hmem)%stats_of_completions. exists S. split; [done|].
  intros d. rewrite Hmem. unfold completes_rule, numeric_log_completes, numeric_completes.
  split.
  - intros (log & ? & ? & Hc & ?). destruct (log_value log) eqn:?; naive_solver.
  - intros (log & v & ? & ? & ? & Hv & ?). exists log. rewrite Hv. naive_solver.
Qed.

(** ** The factory *)

(** The default registry maps each type to its calculator. *)
Lemma get_calculator_default t :
  get_calculator _calculators t =
  Ok (match t with
      | BOOLEAN => BooleanStatisticsCalculator
      | NUMERIC => NumericStatisticsCalculator
      end).
Proof. by destruct t. Qed.

Lemma get_calculator_missing calculators t :
  calculators !! t = None ->
  get_calculator calculators t =
  Raise (ValueError ("No calculator found for habit type: " +:+ HabitType_value t)).
Proof. unfold get_calculator. by intros ->. Qed.

(** The calculators of the default registry, as [stats_of]. *)
Lemma default_calculate_ref t c today habit logs start end_ :
  get_calculator _calculators t = Ok c ->
  ∃ avg, calculate c today habit logs start end_ =
         stats_of today t (goal habit) (_filter_logs_by_date logs start end_) avg.
Proof.
  rewrite get_calculator_default. intros [= <-]. destruct t; simpl.
  - eexists. apply BooleanStatisticsCalculator_calculate_ref.
  - eexists. apply NumericStatisticsCalculator_calculate_ref.
Qed.

(** ** Errors and boundaries *)

(** The only exception of a calculator of the default registry. *)
Lemma default_calculate_raise_overflow t c today habit logs start end_ e :
  valid_date today = true ->
  get_calculator _calculators t = Ok c ->
  calculate c today habit logs start end_ = Raise e ->
  e = OverflowError "date value out of range".
Proof.
  intros Hv (avg & ->)%(default_calculate_ref _ _ today habit logs start end_).
  rewrite stats_of_raise, _calculate_streaks_raise by done. by intros [-> _].
Qed.

(** C8: a calculator of the default registry raises exactly when every day
    from [date.min] to today carries a completing entry inside the window:
    the walk back of the current streak then steps below [date.min] and
    [date - timedelta] raises [OverflowError]. *)
Theorem calculate_raise t c today habit logs start end_ e :
  valid_date today = true ->
  get_calculator _calculators t = Ok c ->
  calculate c today habit logs start end_ = Raise e <->
  e = OverflowError "date value out of range" ∧
  run (λ d, ∃ log, log ∈ logs ∧ in_window start end_ d ∧
                   completes_rule t (goal habit) log ∧ log_date log = d)
      date_min_ordinal (Z.to_nat today).
Proof.
  intros Hv (avg & ->)%(default_calculate_ref _ _ today habit logs start end_).
  rewrite stats_of_raise, _calculate_streaks_raise by done.
  apply and_iff_compat_l, run_proper; [|done|done]. intros d.
  rewrite elem_of_completed_dates_ref. setoid_rewrite _filter_logs_by_date_spec.
  naive_solver.
Qed.

Lemma _filter_logs_by_date_nil logs start end_ :
  (∀ log, log ∈ logs -> ¬ in_window start end_ (log_date log)) ->
  _filter_logs_by_date logs start end_ = [].
Proof.
  intros Hout. rewrite _filter_logs_by_date_filter. apply list_filter_none.
  intros log Hin Hw. by apply (Hout log).
Qed.

(** C17: when no entry lies inside the window (in particular with no
    entries at all), both calculators return 0 for every count, 0.0 for
    the rate and no average: the guards [if total_days > 0] and
    [if values] keep Python's [/] from raising [ZeroDivisionError]. *)
Theorem calculate_empty_window t c today habit logs start end_ :
  get_calculator _calculators t = Ok c ->
  (∀ log, log ∈ logs -> ¬ in_window start end_ (log_date log)) ->
  calculate c today habit logs start end_ = Ok (mkStatisticsResult 0 0 0 0%Q None 0).
Proof.
  rewrite get_calculator_default. intros [= <-] Hout. apply _filter_logs_by_date_nil in Hout.
  destruct t; simpl;
    [unfold BooleanStatisticsCalculator_calculate|unfold NumericStatisticsCalculator_calculate];
    by rewrite Hout.
Qed.

(** C10: with the default registry, the streaks of a result are ordered
    below its counts: [current_streak <= longest_streak <= total_completions
    <= total_days_tracked]; in particular a current streak never exceeds the
    longest. *)
Theorem calculate_streaks_ordered t c today habit logs start end_ r :
  valid_date today = true ->
  get_calculator _calculators t = Ok c ->
  calculate c today habit logs start end_ = Ok r ->
  (current_streak r ≤ longest_streak r ≤ total_completions r ≤ total_days_tracked r)%nat.
Proof.
  intros Hv (avg & Hc)%(default_calculate_ref _ _ today habit logs start end_).
  rewrite Hc. intros (_ & Hle & _ & Hs)%stats_of_laws. specialize (Hs Hv). lia.
Qed.

(** ** The order of the entries

    The engine reads the entries as a list.  The completed dates are a
    set and the counts are lengths, so they do not depend on the order of
    the entries; the average does: it is the float mean of the same values
    in another order, and each float addition rounds. *)

(** Two results that differ at most by the order in which the average
    summed the same values. *)
Definition stats_reordered (r1 r2 : StatisticsResult) : Prop :=
  current_streak r1 = current_streak r2 ∧ longest_streak r1 = longest_streak r2 ∧
  total_completions r1 = total_completions r2 ∧ completion_rate r1 = completion_rate r2 ∧
  total_days_tracked r1 = total_days_tracked r2 ∧
  ∃ vs1 vs2, vs1 ≡ₚ vs2 ∧ average_value r1 = average_of vs1 ∧ average_value r2 = average_of vs2.

Lemma _filter_logs_by_date_perm logs1 logs2 start end_ :
  logs1 ≡ₚ logs2 -> _filter_logs_by_date logs1 start end_ ≡ₚ _filter_logs_by_date logs2 start end_.
Proof. intros Hp. rewrite !_filter_logs_by_date_filter. by rewrite Hp. Qed.

Lemma completed_dates_ref_perm P `{!∀ l, Decision (P l)} l1 l2 :
  l1 ≡ₚ l2 -> completed_dates_ref P l1 = completed_dates_ref P l2.
Proof. intros Hp. unfold completed_dates_ref. by rewrite Hp. Qed.

Lemma stats_of_reordered today t goal l1 l2 vs1 vs2 :
  l1 ≡ₚ l2 -> vs1 ≡ₚ vs2 ->
  res_rel stats_reordered (stats_of today t goal l1 (average_of vs1))
                          (stats_of today t goal l2 (average_of vs2)).
Proof.
  intros Hp Hv. unfold stats_of.
  rewrite (completed_dates_ref_perm _ l1 l2 Hp), (Permutation_length Hp).
  destruct (_calculate_streaks _ _); simpl; [|done].
  destruct (completion_rate_of _ _); simpl; [|done]. split_and!; eauto.
Qed.

(** A calculator of the default registry raises the same exception for
    any two orders of the same entries, or returns results that differ at
    most in the order the average summed the values. *)
Lemma calculate_perm t c today habit logs1 logs2 start end_ :
  get_calculator _calculators t = Ok c -> logs1 ≡ₚ logs2 ->
  res_rel stats_reordered (calculate c today habit logs1 start end_)
                          (calculate c today habit logs2 start end_).
Proof.
  rewrite get_calculator_default. intros [= <-] Hp.
  pose proof (_filter_logs_by_date_perm _ _ start end_ Hp) as Hf. destruct t; simpl.
  - rewrite !BooleanStatisticsCalculator_calculate_ref.
    exact (stats_of_reordered _ _ _ _ _ [] [] Hf (reflexivity _)).
  - rewrite !NumericStatisticsCalculator_calculate_ref. simpl.
    apply stats_of_reordered; [done|]. by rewrite Hf.
Qed.

(** ** Witnesses: the scenarios of the specification, today = 738000 *)

(** Scenario A: a boolean habit done on the five days ending today. *)
Definition habit_A : Habit := mkHabit "a" "Exercise" None None BOOLEAN None 0 None [].
Definition logs_A : list LogEntry :=
  [mkLogEntry "a1" "a" 738000 (Some 1%Q) 0; mkLogEntry "a2" "a" 737999 (Some 1%Q) 0;
   mkLogEntry "a3" "a" 737998 (Some 1%Q) 0; mkLogEntry "a4" "a" 737997 (Some 1%Q) 0;
   mkLogEntry "a5" "a" 737996 (Some 1%Q) 0].
Definition result_A : StatisticsResult := mkStatisticsResult 5 5 5 1 None 5.

(** Scenario C: a numeric habit with goal 10 and values 15, 12, 5. *)
Definition habit_C : Habit := mkHabit "c" "Water" None None NUMERIC (Some 10%Q) 0 None [].
Definition logs_C : list LogEntry :=
  [mkLogEntry "c1" "c" 738000 (Some 15%Q) 0; mkLogEntry "c2" "c" 737999 (Some 12%Q) 0;
   mkLogEntry "c3" "c" 737998 (Some 5%Q) 0].
(** The rate [2 / 3] is the double [0.6666666666666666], the mean
    [32 / 3] the double [10.666666666666666]. *)
Definition result_C : StatisticsResult :=
  mkStatisticsResult 2 2 2 (6004799503160661 # 9007199254740992) (Some (6004799503160661 # 562949953421312)) 3.

(** Every day from [date.min] (ordinal 1) to today (ordinal 3) completed. *)
Definition logs_from_min : list LogEntry :=
  [mkLogEntry "m1" "a" 1 (Some 1%Q) 0; mkLogEntry "m2" "a" 2 (Some 1%Q) 0;
   mkLogEntry "m3" "a" 3 (Some 1%Q) 0].

Lemma completion_rate_bounds_witness :
  calculate NumericStatisticsCalculator 738000 habit_C logs_C None None = Ok result_C ∧
  (0 <= completion_rate result_C <= 1)%Q ∧
  ((0 < total_days_tracked result_C)%nat ->
     completion_rate result_C = fl (inject_Z (Z.of_nat (total_completions result_C)) /
                                    inject_Z (Z.of_nat (total_days_tracked result_C)))%Q) ∧
  (total_days_tracked result_C = 0 -> completion_rate result_C = 0%Q).
Proof.
  assert (H : calculate NumericStatisticsCalculator 738000 habit_C logs_C None None = Ok result_C)
    by (vm_compute; reflexivity).
  split; [exact H|]. exact (completion_rate_bounds _ _ _ _ _ _ _ H).
Defined.

Lemma Boolean_total_completions_witness :
  BooleanStatisticsCalculator_calculate 738000 habit_A logs_A None None = Ok result_A ∧
  ∃ S : gset date, total_completions result_A = size S ∧
    ∀ d, d ∈ S <-> ∃ log v, log ∈ logs_A ∧ in_window None None d ∧ log_date log = d ∧
                           log_value log = Some v ∧ (1 <= v)%Q.
Proof.
  assert (H : BooleanStatisticsCalculator_calculate 738000 habit_A logs_A None None = Ok result_A)
    by (vm_compute; reflexivity).
  split; [exact H|]. exact (Boolean_total_completions _ _ _ _ _ _ H).
Defined.

Lemma Numeric_total_completions_witness :
  NumericStatisticsCalculator_calculate 738000 habit_C logs_C None None = Ok result_C ∧
  ∃ S : gset date, total_completions result_C = size S ∧
    ∀ d, d ∈ S <-> ∃ log v, log ∈ logs_C ∧ in_window None None d ∧ log_date log = d ∧
                           log_value log = Some v ∧
                           match goal habit_C with Some g => (g <= v)%Q | None => (0 < v)%Q end.
Proof.
  assert (H : NumericStatisticsCalculator_calculate 738000 habit_C logs_C None None = Ok result_C)
    by (vm_compute; reflexivity).
  split; [exact H|]. exact (Numeric_total_completions _ _ _ _ _ _ H).
Defined.

Lemma calculate_raise_witness :
  valid_date 3 = true ∧
  get_calculator _calculators BOOLEAN = Ok BooleanStatisticsCalculator ∧
  (OverflowError "date value out of range" = OverflowError "date value out of range" ∧
   run (λ d, ∃ log, log ∈ logs_from_min ∧ in_window None None d ∧
                    completes_rule BOOLEAN (goal habit_A) log ∧ log_date log = d)
       date_min_ordinal (Z.to_nat 3)).
Proof.
  assert (Hv : valid_date 3 = true) by reflexivity.
  assert (Hg : get_calculator _calculators BOOLEAN = Ok BooleanStatisticsCalculator)
    by reflexivity.
  split; [exact Hv|]. split; [exact Hg|].
  apply (proj1 (calculate_raise BOOLEAN BooleanStatisticsCalculator 3 habit_A logs_from_min
                  None None _ Hv Hg)).
  vm_compute. reflexivity.
Defined.

Lemma calculate_streaks_ordered_witness :
  (current_streak result_A ≤ longest_streak result_A ≤ total_completions result_A ≤
   total_days_tracked result_A)%nat.
Proof.
  apply (calculate_streaks_ordered BOOLEAN BooleanStatisticsCalculator 738000 habit_A logs_A
           None None result_A); [reflexivity|reflexivity|vm_compute; reflexivity].
Defined.

Lemma calculate_empty_window_witness :
  get_calculator _calculators NUMERIC = Ok NumericStatisticsCalculator ∧
  (∀ log, log ∈ logs_C -> ¬ in_window (Some 738001%Z) None (log_date log)) ∧
  calculate NumericStatisticsCalculator 738000 habit_C logs_C (Some 738001%Z) None =
    Ok (mkStatisticsResult 0 0 0 0%Q None 0).
Proof.
  assert (Hg : get_calculator _calculators NUMERIC = Ok NumericStatisticsCalculator)
    by reflexivity.
  assert (Hout : ∀ log, log ∈ logs_C -> ¬ in_window (Some 738001%Z) None (log_date log)).
  { intros log Hin. repeat (apply elem_of_cons in Hin as [->|Hin]; [unfold in_window; simpl; lia|]).
    by apply elem_of_nil in Hin. }
  split_and!; [exact Hg|exact Hout|].
  exact (calculate_empty_window NUMERIC _ 738000 habit_C logs_C (Some 738001%Z) None Hg Hout).
Defined.
