(* ===== verification/Dict.v ===== *)
(** * Dict: Python's insertion-ordered [dict] and [sorted]

    [InMemoryHabitRepository] keeps its habits in a [dict[str, Habit]]
    and returns [list(self._storage.values())], in insertion order;
    [InMemoryLogRepository.list_for_habit] returns
    [sorted(logs, key=lambda log: log.date)], a stable sort.  This file
    models both:
    - a dict as an association list with distinct keys: [d[k] = v] keeps
      the position of an existing key and appends a new one, [d.pop(k, None)]
      removes it, [d.get(k)] looks it up; with the lookup laws of a finite
      map and the invariant that keys are distinct;
    - [sorted(l, key=f)] as a stable insertion sort: Python's sort is
      stable, and any two stable sorts by the same key return the same
      list; it is sorted and a permutation of its input. *)

From S2P Require Import Prelude.

Section Dict.
Context {K V : Type} `{EqDecision K}.

Definition dict := list (K * V).

(** [d.get(k)] *)
Fixpoint dict_get (k : K) (d : dict) : option V :=
  match d with
  | [] => None
  | (k', v) :: d' => if decide (k = k') then Some v else dict_get k d'
  end.

(** [d[k] = v]: replace in place, or append a new key at the end. *)
Fixpoint dict_set (k : K) (v : V) (d : dict) : dict :=
  match d with
  | [] => [(k, v)]
  | (k', v') :: d' =>
      if decide (k = k') then (k, v) :: d' else (k', v') :: dict_set k v d'
  end.

(** [d.pop(k, None)] *)
Fixpoint dict_pop (k : K) (d : dict) : dict :=
  match d with
  | [] => []
  | (k', v') :: d' => if decide (k = k') then d' else (k', v') :: dict_pop k d'
  end.

(** [list(d.values())] *)
Definition dict_values (d : dict) : list V := snd <$> d.

(** The keys are distinct. *)
Definition dict_wf (d : dict) : Prop := NoDup (fst <$> d).

Lemma dict_get_set k k' v d :
  dict_get k' (dict_set k v d) = if decide (k' = k) then Some v else dict_get k' d.
Proof.
  induction d as [|[k0 v0] d IH]; simpl.
  - by repeat case_decide.
  - repeat (case_decide; simplify_eq/=); try done; by rewrite IH, ?decide_True, ?decide_False.
Qed.

Lemma dict_get_Some_key k v d : dict_get k d = Some v -> k ∈ fst <$> d.
Proof.
  induction d as [|[k0 v0] d IH]; simpl; [done|].
  case_decide; subst; [set_solver|]. intros ?%IH. set_solver.
Qed.

Lemma dict_get_None k d : dict_get k d = None <-> k ∉ fst <$> d.
Proof.
  induction d as [|[k0 v0] d IH]; simpl; [set_solver|].
  case_decide; subst; [set_solver|]. rewrite IH. set_solver.
Qed.

Lemma dict_get_pop k k' d :
  dict_wf d ->
  dict_get k' (dict_pop k d) = if decide (k' = k) then None else dict_get k' d.
Proof.
  unfold dict_wf. induction d as [|[k0 v0] d IH]; simpl; intros Hnd.
  - by case_decide.
  - apply NoDup_cons in Hnd as [Hk0 Hnd].
    repeat (case_decide; simplify_eq/=); try done.
    + destruct (dict_get k0 d) eqn:Hg; [|done]. exfalso. apply Hk0.
      by eapply dict_get_Some_key.
    + by rewrite IH, ?decide_True.
    + by rewrite IH, ?decide_False.
Qed.

Lemma dict_keys_set k v d :
  fst <$> dict_set k v d = if decide (k ∈ fst <$> d) then fst <$> d else (fst <$> d) ++ [k].
Proof.
  induction d as [|[k0 v0] d IH]; simpl; [done|].
  repeat (case_decide; simplify_eq/=); rewrite ?IH; try set_solver.
  all: repeat case_decide; set_solver.
Qed.

Lemma dict_set_wf k v d : dict_wf d -> dict_wf (dict_set k v d).
Proof.
  unfold dict_wf. rewrite dict_keys_set. case_decide; [done|].
  intros Hnd. apply NoDup_app. split_and!; [done| |by apply NoDup_singleton].
  set_solver.
Qed.

Lemma dict_pop_wf k d : dict_wf d -> dict_wf (dict_pop k d).
Proof.
  unfold dict_wf. induction d as [|[k0 v0] d IH]; simpl; intros Hnd; [done|].
  apply NoDup_cons in Hnd as [Hk0 Hnd]. case_decide; [done|]. simpl.
  apply NoDup_cons. split; [|by apply IH].
  intros Hin. apply Hk0. clear -Hin. induction d as [|[k1 v1] d IH]; simpl in *; [done|].
  case_decide; simpl in *; set_solver.
Qed.

(** With distinct keys, the values are those the keys map to. *)
Lemma elem_of_dict_values d v :
  dict_wf d -> v ∈ dict_values d <-> ∃ k, dict_get k d = Some v.
Proof.
  unfold dict_wf, dict_values. induction d as [|[k0 v0] d IH]; simpl; intros Hnd.
  - set_solver.
  - apply NoDup_cons in Hnd as [Hk0 Hnd]. rewrite elem_of_cons, IH by done. split.
    + intros [->|(k & Hk)]; [exists k0; by rewrite decide_True|].
      exists k. rewrite decide_False; [done|]. intros ->. by apply Hk0, (dict_get_Some_key _ v).
    + intros (k & Hk). case_decide; simplify_eq; [by left|right; by exists k].
Qed.

(** [d[k] = v] with a new key appends the entry. *)
Lemma dict_set_new k v d : k ∉ fst <$> d -> dict_set k v d = d ++ [(k, v)].
Proof.
  induction d as [|[k0 v0] d IH]; simpl; intros Hk; [done|].
  rewrite decide_False by set_solver. f_equal. apply IH. set_solver.
Qed.

End Dict.

(** ** [sorted(l, key=key)] *)
Section SortedBy.
Context {A : Type} (key : A -> Z).

(** Insert after every element whose key is [<=]: equal keys keep their
    order of arrival. *)
Fixpoint insert_by (x : A) (l : list A) : list A :=
  match l with
  | [] => [x]
  | y :: l' => if decide (key y ≤ key x)%Z then y :: insert_by x l' else x :: l
  end.

Definition sorted_by (l : list A) : list A :=
  fold_left (λ acc x, insert_by x acc) l [].

Lemma insert_by_Permutation x l : insert_by x l ≡ₚ x :: l.
Proof.
  induction l as [|y l IH]; simpl; [done|]. case_decide; [|done].
  rewrite IH. by constructor.
Qed.

Lemma sorted_by_Permutation l : sorted_by l ≡ₚ l.
Proof.
  unfold sorted_by. rewrite <- (app_nil_l l) at 2. generalize (@nil A) as acc.
  induction l as [|x l IH]; intros acc; simpl; [by rewrite app_nil_r|].
  rewrite IH, insert_by_Permutation. by rewrite <- Permutation_middle.
Qed.

Lemma insert_by_Sorted x l :
  Sorted (λ a b, key a ≤ key b)%Z l -> Sorted (λ a b, key a ≤ key b)%Z (insert_by x l).
Proof.
  induction 1 as [|y l Hs IH Hhd]; simpl; [by repeat constructor|].
  case_decide as Hyx.
  - constructor; [done|]. destruct l as [|z l]; simpl; [constructor; lia|].
    inversion Hhd; subst. case_decide; constructor; lia.
  - repeat constructor; [done|done|lia].
Qed.

Lemma sorted_by_Sorted l : Sorted (λ a b, key a ≤ key b)%Z (sorted_by l).
Proof.
  unfold sorted_by. assert (Hs : Sorted (λ a b, key a ≤ key b)%Z (@nil A)) by constructor.
  revert Hs. generalize (@nil A) as acc.
  induction l as [|x l IH]; intros acc Hs; simpl; [done|].
  by apply IH, insert_by_Sorted.
Qed.
End SortedBy.

Section Stability.
Context {A : Type} (key : A -> Z).

Lemma Sorted_key_head (y : A) l :
  Sorted (λ a b, key a ≤ key b)%Z (y :: l) -> ∀ z, z ∈ y :: l -> (key y ≤ key z)%Z.
Proof.
  intros Hs. apply Sorted_StronglySorted in Hs; [|intros ?????; lia].
  intros z [->|Hz]%elem_of_cons; [lia|].
  apply StronglySorted_inv in Hs as [_ Hall]. rewrite Forall_forall in Hall. by apply Hall.
Qed.

(** Inserting into a sorted list puts the element after the elements of
    its key. *)
Lemma insert_by_filter x l d :
  Sorted (λ a b, key a ≤ key b)%Z l ->
  filter (λ y, key y = d) (insert_by key x l) =
  filter (λ y, key y = d) l ++ filter (λ y, key y = d) [x].
Proof.
  induction l as [|y l IH]; intros Hs; simpl; [done|].
  case_decide as Hyx.
  - rewrite !filter_cons. apply Sorted_inv in Hs as [Hs _].
    case_decide; rewrite IH by done; done.
  - rewrite (filter_cons _ x). case_decide as Hx; simpl.
    + assert (Hnone : filter (λ y, key y = d) (y :: l) = []).
      { apply list_filter_none. intros z Hz Hzd.
        pose proof (Sorted_key_head y l Hs z Hz). lia. }
      rewrite Hnone. unfold filter, list_filter. by rewrite decide_True.
    + unfold filter at 3, list_filter. rewrite decide_False by done. by rewrite app_nil_r.
Qed.

(** [sorted] is stable: the elements of one key keep their order. *)
Lemma sorted_by_stable l d :
  filter (λ y, key y = d) (sorted_by key l) = filter (λ y, key y = d) l.
Proof.
  unfold sorted_by. rewrite <- (app_nil_l (filter _ l)).
  change (@nil A) with (filter (λ y, key y = d) (@nil A)) at 2.
  assert (Hs : Sorted (λ a b, key a ≤ key b)%Z (@nil A)) by constructor.
  revert Hs. generalize (@nil A) as acc.
  induction l as [|x l IH]; intros acc Hs; simpl; [by rewrite app_nil_r|].
  rewrite IH by (by apply insert_by_Sorted). rewrite insert_by_filter by done.
  rewrite filter_cons. case_decide; rewrite ?filter_cons_True, ?filter_cons_False by done;
    rewrite ?filter_nil; simpl; by rewrite <- app_assoc.
Qed.
End Stability.
