(* ===== verification/Repository.v ===== *)
(** * Repository: the store interfaces and their in-memory implementations

    [app/db/repository.py] declares two [Protocol]s, [HabitRepository]
    and [LogRepository]; [app/db/in_memory.py] implements them with a
    [dict] of habits and a [list] of log entries.  Here:
    - the protocols are the classes [HabitRepository] and [LogRepository]
      (their methods; reads are functions of the store, writes are [PyM]
      actions that may raise);
    - [HabitRepositoryLaws] and [LogRepositoryLaws] state what the service
      relies on: the lookup laws of [add], [update], [delete], the
      [KeyError] of [update] on a missing id, the [add] of a log entry
      with a fresh id, and the contents and order of [list_for_habit];
    - [InMemoryHabitRepository] and [InMemoryLogRepository] are the
      implementations, and their instances of the laws are proved.
    The service ([Services.v]) is proved against the laws only. *)

From S2P Require Import Prelude Models Dict.

(** ** The protocols *)

Class HabitRepository (R : Type) := {
  repo_add : Habit -> PyM R unit;
  repo_get : string -> R -> option Habit;
  repo_list : R -> list Habit;
  repo_update : Habit -> PyM R unit;
  repo_delete : string -> PyM R unit
}.

Class LogRepository (L : Type) := {
  log_repo_add : LogEntry -> PyM L unit;
  list_for_habit : string -> option date -> option date -> L -> list LogEntry;
  list_all : L -> list LogEntry
}.

(** The entries of one habit inside a window, in store order. *)
Definition logs_of (habit_id : string) (start end_ : option date) (logs : list LogEntry)
    : list LogEntry :=
  filter (λ log, log_habit_id log = habit_id ∧ in_window start end_ (log_date log)) logs.

(** An update keeps the columns the service never changes. *)
Definition same_row (h0 h : Habit) : Prop :=
  habit_id h0 = habit_id h ∧ type h0 = type h ∧ created_at h0 = created_at h ∧
  parent_id h0 = parent_id h.

(** ** The laws *)

Class HabitRepositoryLaws (R : Type) `{!HabitRepository R} := {
  repo_wf : R -> Prop;
  repo_get_id k h r : repo_wf r -> repo_get k r = Some h -> habit_id h = k;
  repo_add_fresh h r :
    repo_wf r -> repo_get (habit_id h) r = None ->
    ∃ r', repo_add h r = (Ok tt, r') ∧ repo_wf r' ∧
      ∀ k, repo_get k r' = if decide (k = habit_id h) then Some h else repo_get k r;
  repo_update_present h0 h r :
    repo_wf r -> repo_get (habit_id h) r = Some h0 -> same_row h0 h ->
    ∃ r', repo_update h r = (Ok tt, r') ∧ repo_wf r' ∧
      ∀ k, repo_get k r' = if decide (k = habit_id h) then Some h else repo_get k r;
  repo_update_missing h r :
    repo_wf r -> repo_get (habit_id h) r = None -> repo_update h r = (Raise (KeyError "Habit not found"), r);
  repo_delete_spec k0 r :
    repo_wf r ->
    ∃ r', repo_delete k0 r = (Ok tt, r') ∧ repo_wf r' ∧
      ∀ k, repo_get k r' = if decide (k = k0) then None else repo_get k r;
  repo_list_spec h r : repo_wf r -> h ∈ repo_list r <-> ∃ k, repo_get k r = Some h
}.

(** The log store's invariant [log_repo_wf] holds of the stores the
    service builds.  The laws ask the dates the code handles to be valid
    dates, as every [datetime.date] is: an entry's date, and the bounds of
    the window. *)
Class LogRepositoryLaws (L : Type) `{!LogRepository L} := {
  log_repo_wf : L -> Prop;
  log_repo_add_spec log r :
    log_repo_wf r -> valid_date (log_date log) = true -> log_id log ∉ log_id <$> list_all r ->
    ∃ r', log_repo_add log r = (Ok tt, r') ∧ log_repo_wf r' ∧ list_all r' ≡ₚ list_all r ++ [log];
  list_for_habit_perm habit_id start end_ r :
    log_repo_wf r -> opt_valid_date start = true -> opt_valid_date end_ = true ->
    list_for_habit habit_id start end_ r ≡ₚ logs_of habit_id start end_ (list_all r);
  list_for_habit_sorted habit_id start end_ r :
    log_repo_wf r -> opt_valid_date start = true -> opt_valid_date end_ = true ->
    Sorted (λ a b, log_date a ≤ log_date b)%Z (list_for_habit habit_id start end_ r)
}.

(** ** [InMemoryHabitRepository] *)

Record InMemoryHabitRepository : Type := mkInMemoryHabitRepository {
  habit_storage : @dict string Habit
}.

(** [__init__]: [self._storage = {}] *)
Definition InMemoryHabitRepository_init : InMemoryHabitRepository :=
  {| habit_storage := [] |}.

Definition InMemoryHabitRepository_add (habit : Habit) : PyM InMemoryHabitRepository unit :=
  fun r => (Ok tt, {| habit_storage := dict_set (habit_id habit) habit (habit_storage r) |}).

Definition InMemoryHabitRepository_get (k : string) (r : InMemoryHabitRepository) : option Habit :=
  dict_get k (habit_storage r).

Definition InMemoryHabitRepository_list (r : InMemoryHabitRepository) : list Habit :=
  dict_values (habit_storage r).

(** [if habit.id not in self._storage: raise KeyError("Habit not found")] *)
Definition InMemoryHabitRepository_update (habit : Habit) : PyM InMemoryHabitRepository unit :=
  fun r =>
    if decide (habit_id habit ∉ fst <$> habit_storage r)
    then (Raise (KeyError "Habit not found"), r)
    else (Ok tt, {| habit_storage := dict_set (habit_id habit) habit (habit_storage r) |}).

(** [self._storage.pop(habit_id, None)] *)
Definition InMemoryHabitRepository_delete (k : string) : PyM InMemoryHabitRepository unit :=
  fun r => (Ok tt, {| habit_storage := dict_pop k (habit_storage r) |}).

#[export] Instance InMemoryHabitRepository_repo : HabitRepository InMemoryHabitRepository := {
  repo_add := InMemoryHabitRepository_add;
  repo_get := InMemoryHabitRepository_get;
  repo_list := InMemoryHabitRepository_list;
  repo_update := InMemoryHabitRepository_update;
  repo_delete := InMemoryHabitRepository_delete
}.

(** ** [InMemoryLogRepository] *)

Record InMemoryLogRepository : Type := mkInMemoryLogRepository {
  log_storage : list LogEntry
}.

Definition InMemoryLogRepository_init : InMemoryLogRepository := {| log_storage := [] |}.

(** [self._storage.append(log)] *)
Definition InMemoryLogRepository_add (log : LogEntry) : PyM InMemoryLogRepository unit :=
  fun r => (Ok tt, {| log_storage := log_storage r ++ [log] |}).

Definition InMemoryLogRepository_list_for_habit (habit_id : string) (start end_ : option date)
    (r : InMemoryLogRepository) : list LogEntry :=
  let logs := filter (λ log, log_habit_id log = habit_id) (log_storage r) in
  let logs := match start with
              | Some st => filter (λ log, (st ≤ log_date log)%Z) logs
              | None => logs
              end in
  let logs := match end_ with
              | Some en => filter (λ log, (log_date log ≤ en)%Z) logs
              | None => logs
              end in
  sorted_by log_date logs.

Definition InMemoryLogRepository_list_all (r : InMemoryLogRepository) : list LogEntry :=
  log_storage r.

#[export] Instance InMemoryLogRepository_repo : LogRepository InMemoryLogRepository := {
  log_repo_add := InMemoryLogRepository_add;
  list_for_habit := InMemoryLogRepository_list_for_habit;
  list_all := InMemoryLogRepository_list_all
}.

(** ** The in-memory stores keep the laws *)

(** Keys are distinct and every habit is stored under its own id. *)
Definition InMemoryHabitRepository_wf (r : InMemoryHabitRepository) : Prop :=
  dict_wf (habit_storage r) ∧ ∀ k h, dict_get k (habit_storage r) = Some h -> habit_id h = k.

Lemma InMemoryHabitRepository_set_wf h r :
  InMemoryHabitRepository_wf r ->
  InMemoryHabitRepository_wf {| habit_storage := dict_set (habit_id h) h (habit_storage r) |}.
Proof.
  intros [Hwf Hid]. split; simpl; [by apply dict_set_wf|].
  intros k h'. rewrite dict_get_set. case_decide; [intros [= <-]; done|apply Hid].
Qed.

#[export] Instance InMemoryHabitRepository_laws : HabitRepositoryLaws InMemoryHabitRepository.
Proof.
  refine {| repo_wf := InMemoryHabitRepository_wf |}; simpl.
  - intros k h r [_ Hid]. apply Hid.
  - intros h r Hwf Hnone. eexists; split_and!; [done|by apply InMemoryHabitRepository_set_wf|].
    intros k. apply dict_get_set.
  - intros h0 h r Hwf Hsome _. unfold InMemoryHabitRepository_update.
    rewrite decide_False by (apply dict_get_Some_key in Hsome; naive_solver).
    eexists; split_and!; [done|by apply InMemoryHabitRepository_set_wf|].
    intros k. apply dict_get_set.
  - intros h r _ Hnone. unfold InMemoryHabitRepository_update.
    by rewrite decide_True by (by apply dict_get_None).
  - intros k0 r [Hwf Hid]. eexists; split_and!; [done|split|].
    + by apply dict_pop_wf.
    + intros k h. simpl. rewrite dict_get_pop by done. case_decide; [done|apply Hid].
    + intros k. by apply dict_get_pop.
  - intros h r [Hwf _]. by apply elem_of_dict_values.
Defined.

Lemma InMemoryLogRepository_list_for_habit_ref habit_id start end_ r :
  InMemoryLogRepository_list_for_habit habit_id start end_ r =
  sorted_by log_date (logs_of habit_id start end_ (log_storage r)).
Proof.
  unfold InMemoryLogRepository_list_for_habit, logs_of, in_window. f_equal.
  destruct start, end_; rewrite ?list_filter_filter; apply list_filter_iff; naive_solver.
Qed.

#[export] Instance InMemoryLogRepository_laws : LogRepositoryLaws InMemoryLogRepository.
Proof.
  refine {| log_repo_wf _ := True |}; simpl.
  - intros log r _ _ _. by eexists.
  - intros habit_id start end_ r _ _ _. rewrite InMemoryLogRepository_list_for_habit_ref.
    apply sorted_by_Permutation.
  - intros habit_id start end_ r _ _ _. rewrite InMemoryLogRepository_list_for_habit_ref.
    apply sorted_by_Sorted.
Defined.

(** C18: [InMemoryLogRepository.list_for_habit] returns the habit's entries
    inside the window, sorted by date, and entries of one date in the order
    they were recorded ([sorted] is stable). *)
Theorem InMemoryLogRepository_list_for_habit_stable habit_id start end_ r d :
  let logs := InMemoryLogRepository_list_for_habit habit_id start end_ r in
  logs ≡ₚ logs_of habit_id start end_ (log_storage r) ∧
  Sorted (λ a b, log_date a ≤ log_date b)%Z logs ∧
  filter (λ log, log_date log = d) logs =
  filter (λ log, log_date log = d) (logs_of habit_id start end_ (log_storage r)).
Proof.
  simpl. rewrite InMemoryLogRepository_list_for_habit_ref.
  split_and!; [apply sorted_by_Permutation|apply sorted_by_Sorted|apply sorted_by_stable].
Qed.

(** A decision procedure for the invariant of the in-memory store. *)
Definition InMemoryHabitRepository_wfb (r : InMemoryHabitRepository) : bool :=
  bool_decide (NoDup (fst <$> habit_storage r)) &&
  forallb (λ kh, bool_decide (habit_id (snd kh) = fst kh)) (habit_storage r).

Lemma dict_get_Some_elem {V} (k : string) (v : V) d : dict_get k d = Some v -> (k, v) ∈ d.
Proof.
  induction d as [|[k0 v0] d IH]; simpl; [done|].
  case_decide; [intros [= <-]; subst; by left|intros ?%IH; by right].
Qed.

Lemma InMemoryHabitRepository_wfb_wf r :
  InMemoryHabitRepository_wfb r = true -> InMemoryHabitRepository_wf r.
Proof.
  unfold InMemoryHabitRepository_wfb. intros [Hnd Hall]%andb_prop.
  split; [by apply bool_decide_eq_true in Hnd|].
  intros k h Hk%dict_get_Some_elem. rewrite forallb_forall in Hall.
  apply list_elem_of_In, Hall in Hk. by apply bool_decide_eq_true in Hk.
Qed.

(** ** Witnesses *)

Definition habit_P : Habit := mkHabit "p" "Parent" None None BOOLEAN None 0 None ["c"].
Definition habit_Cc : Habit := mkHabit "c" "Child" None None BOOLEAN None 0 (Some "p") [].
Definition habit_N : Habit := mkHabit "n" "New" None None NUMERIC (Some 10%Q) 0 None [].
Definition store_P : InMemoryHabitRepository := {| habit_storage := [("p", habit_P)] |}.

