(* ===== verification/Services.v ===== *)
(** * Services: [HabitService] of [app/core/services.py]

    The service holds the two stores; its methods run in the
    state-and-exception monad [PyM HabitService] over them, and raise
    [ValueError("Habit not found")] (or ["Parent habit not found"]) when a
    habit is missing, before any write.  The section is generic in the
    stores: every theorem is proved from [HabitRepositoryLaws] and
    [LogRepositoryLaws], so it holds of the in-memory stores (and of any
    other implementation of the laws).

    Modelling choices:
    - Objects read from the store are updated and written back with
      [update]: the in-memory store aliases them, so the write is already
      visible before [update] runs, but [update] cannot fail after a
      successful [get] in the same call, and the final state is the same.
    - [delete_habit] recurses over [subhabit_ids]; Python bounds that
      recursion ([sys.getrecursionlimit()]), and the model takes the
      remaining depth as [fuel] and raises [RecursionError] when it runs
      out.
    - [add_subhabit] returns [None] in Python and mutates its argument
      ([subhabit.parent_id = parent_id]), which the controller then
      returns; the model returns the mutated argument.
    - [get_statistics] reads the calculator registry, a class attribute in
      Python, from its [calculators] argument, and [date.today()] from
      [today]; it returns the dict as the pair of the id and the result. *)

From S2P Require Import Prelude Models Streaks Statistics Dict Repository.

Section HabitService.
Context {R L : Type} `{!HabitRepository R, !HabitRepositoryLaws R}
        `{!LogRepository L, !LogRepositoryLaws L}.

(** [@dataclass class HabitService: habit_repo; log_repo] *)
Record HabitService : Type := mkHabitService {
  habit_repo : R;
  log_repo : L
}.

(** Run a store method on the service's store. *)
Definition on_habits {A} (c : PyM R A) : PyM HabitService A :=
  fun s => let '(res, r') := c (habit_repo s) in (res, mkHabitService r' (log_repo s)).
Definition on_logs {A} (c : PyM L A) : PyM HabitService A :=
  fun s => let '(res, l') := c (log_repo s) in (res, mkHabitService (habit_repo s) l').

(** [self.habit_repo.get(habit_id)] *)
Definition read_habit (habit_id : string) : PyM HabitService (option Habit) :=
  fun s => (Ok (repo_get habit_id (habit_repo s)), s).

(** [self.log_repo.list_for_habit(habit_id, start, end)] *)
Definition read_logs (habit_id : string) (start end_ : option date)
    : PyM HabitService (list LogEntry) :=
  fun s => (Ok (list_for_habit habit_id start end_ (log_repo s)), s).

Definition create_habit (habit : Habit) : PyM HabitService unit :=
  on_habits (repo_add habit).

Definition get_habit (habit_id : string) : PyM HabitService (option Habit) :=
  read_habit habit_id.

Definition list_habits : PyM HabitService (list Habit) :=
  fun s => (Ok (repo_list (habit_repo s)), s).

(** The four [if update.x is not None: habit.x = update.x]. *)
Definition apply_update (update : HabitUpdate) (habit : Habit) : Habit :=
  let habit := match upd_name update with Some v => set_name habit v | None => habit end in
  let habit := match upd_description update with
               | Some v => set_description habit v | None => habit end in
  let habit := match upd_category update with
               | Some v => set_category habit v | None => habit end in
  match upd_goal update with Some v => set_goal habit v | None => habit end.

Definition update_habit (habit_id : string) (update : HabitUpdate) : PyM HabitService Habit :=
  habit <- read_habit habit_id ;;
  match habit with
  | None => praise (ValueError "Habit not found")
  | Some habit =>
      let habit := apply_update update habit in
      on_habits (repo_update habit) ;;;
      pret habit
  end.

(** [for subhabit_id in habit.subhabit_ids: self.delete_habit(subhabit_id)]
    then [self.habit_repo.delete(habit_id)]. *)
Fixpoint delete_habit (fuel : nat) (habit_id : string) : PyM HabitService unit :=
  match fuel with
  | O => praise RecursionError
  | S fuel' =>
      habit <- read_habit habit_id ;;
      match habit with
      | None => praise (ValueError "Habit not found")
      | Some habit =>
          pfor (subhabit_ids habit) (delete_habit fuel') ;;;
          on_habits (repo_delete habit_id)
      end
  end.

Definition add_subhabit (parent_id : string) (subhabit : Habit) : PyM HabitService Habit :=
  parent <- read_habit parent_id ;;
  match parent with
  | None => praise (ValueError "Parent habit not found")
  | Some parent =>
      let subhabit := set_parent_id subhabit parent_id in
      let parent := set_subhabit_ids parent (subhabit_ids parent ++ [Models.habit_id subhabit]) in
      on_habits (repo_add subhabit) ;;;
      on_habits (repo_update parent) ;;;
      pret subhabit
  end.

(** [LogEntry.create] draws a fresh id and the current time: the
    caller's [fresh_id] and [now]. *)
Definition record_log (fresh_id : string) (now : timestamp)
    (habit_id : string) (date_ : date) (value : option Q) : PyM HabitService LogEntry :=
  habit <- read_habit habit_id ;;
  match habit with
  | None => praise (ValueError "Habit not found")
  | Some _ =>
      let log := LogEntry_create fresh_id now habit_id date_ value in
      on_logs (log_repo_add log) ;;;
      pret log
  end.

Definition get_logs (habit_id : string) (start end_ : option date)
    : PyM HabitService (list LogEntry) :=
  habit <- read_habit habit_id ;;
  match habit with
  | None => praise (ValueError "Habit not found")
  | Some _ => read_logs habit_id start end_
  end.

Definition get_statistics (calculators : Registry) (today : date)
    (habit_id : string) (start end_ : option date)
    : PyM HabitService (string * StatisticsResult) :=
  habit <- read_habit habit_id ;;
  match habit with
  | None => praise (ValueError "Habit not found")
  | Some habit =>
      logs <- read_logs habit_id start end_ ;;
      calculator <- plift (get_calculator calculators (type habit)) ;;
      result <- plift (calculate calculator today habit logs start end_) ;;
      pret (habit_id, result)
  end.
End HabitService.

Arguments HabitService : clear implicits.

(** ** Theorems *)

Section ServiceTheorems.
Context {R L : Type} `{!HabitRepository R, !HabitRepositoryLaws R}
        `{!LogRepository L, !LogRepositoryLaws L}.
Implicit Types (s : HabitService R L) (r : R).

(** Unfold a service method and its monad on a concrete state. *)
Ltac svc_unfold :=
  unfold update_habit, add_subhabit, record_log, get_logs, get_statistics,
    read_habit, read_logs, on_habits, on_logs, pbind, pret, praise, plift; simpl.

(** C7: every method that names a habit raises [ValueError] when the
    habit is absent ("Habit not found", or "Parent habit not found" for
    [add_subhabit]), and writes nothing. *)
Theorem service_not_found s k upd sub fresh_id now date_ value calculators today start end_ :
  repo_get k (habit_repo s) = None ->
  update_habit k upd s = (Raise (ValueError "Habit not found"), s) ∧
  (∀ fuel, delete_habit (S fuel) k s = (Raise (ValueError "Habit not found"), s)) ∧
  add_subhabit k sub s = (Raise (ValueError "Parent habit not found"), s) ∧
  record_log fresh_id now k date_ value s = (Raise (ValueError "Habit not found"), s) ∧
  get_logs k start end_ s = (Raise (ValueError "Habit not found"), s) ∧
  get_statistics calculators today k start end_ s = (Raise (ValueError "Habit not found"), s).
Proof. intros Hk. split_and!; try intros fuel; simpl; svc_unfold; by rewrite Hk. Qed.

(** C16: [create_habit] with a fresh id stores the habit and nothing else:
    its [parent_id] is neither checked to exist nor added to the parent's
    [subhabit_ids]. *)
Theorem create_habit_spec s h :
  repo_wf (habit_repo s) -> repo_get (habit_id h) (habit_repo s) = None ->
  ∃ s', create_habit h s = (Ok tt, s') ∧ log_repo s' = log_repo s ∧ repo_wf (habit_repo s') ∧
    ∀ k, repo_get k (habit_repo s') =
         if decide (k = habit_id h) then Some h else repo_get k (habit_repo s).
Proof.
  intros Hwf Hnone. destruct (repo_add_fresh h (habit_repo s) Hwf Hnone) as (r' & Ha & Hwf' & Hg).
  exists (mkHabitService r' (log_repo s)). unfold create_habit, on_habits. rewrite Ha. done.
Qed.

(** [apply_update] changes only the fields the update carries. *)
Lemma apply_update_fields upd h :
  let h' := apply_update upd h in
  habit_id h' = habit_id h ∧ type h' = type h ∧ created_at h' = created_at h ∧
  parent_id h' = parent_id h ∧ subhabit_ids h' = subhabit_ids h ∧
  name h' = default (name h) (upd_name upd) ∧
  description h' = match upd_description upd with Some v => Some v | None => description h end ∧
  category h' = match upd_category upd with Some v => Some v | None => category h end ∧
  goal h' = match upd_goal upd with Some v => Some v | None => goal h end.
Proof.
  destruct upd as [[n|] [d|] [c|] [g|]]; simpl; by split_and!.
Qed.

Lemma apply_update_same_row upd h : same_row h (apply_update upd h).
Proof.
  destruct (apply_update_fields upd h) as (? & ? & ? & ? & _). by split_and!.
Qed.

(** C12: [update_habit] on a stored habit returns and stores a habit
    whose name, description, category and goal are the ones the update
    supplies ([None] keeps the stored value; [description], [category]
    and [goal] cannot be cleared) and whose id, type, creation time,
    parent and sub-habits are the stored habit's; the other habits and
    the logs are untouched. *)
Theorem update_habit_spec s k upd h :
  repo_wf (habit_repo s) -> repo_get k (habit_repo s) = Some h ->
  ∃ s' h', update_habit k upd s = (Ok h', s') ∧
    habit_id h' = k ∧ type h' = type h ∧ created_at h' = created_at h ∧
    parent_id h' = parent_id h ∧ subhabit_ids h' = subhabit_ids h ∧
    name h' = default (name h) (upd_name upd) ∧
    description h' = (if upd_description upd is Some v then Some v else description h) ∧
    category h' = (if upd_category upd is Some v then Some v else category h) ∧
    goal h' = (if upd_goal upd is Some v then Some v else goal h) ∧
    log_repo s' = log_repo s ∧ repo_wf (habit_repo s') ∧
    ∀ k', repo_get k' (habit_repo s') =
          if decide (k' = k) then Some h' else repo_get k' (habit_repo s).
Proof.
  intros Hwf Hk. pose proof (repo_get_id _ _ _ Hwf Hk) as Hid.
  destruct (apply_update_fields upd h) as (Hid' & Hf).
  destruct (repo_update_present h (apply_update upd h) (habit_repo s)) as (r' & Hu & Hwf' & Hget);
    [done|by rewrite Hid', Hid|apply apply_update_same_row|].
  svc_unfold. rewrite Hk, Hu. do 2 eexists. split; [done|].
  rewrite Hid', Hid. split; [done|]. split_and!; try apply Hf; [done|done|].
  intros k'. by rewrite Hget, Hid', Hid.
Qed.

(** C13: [add_subhabit] with a fresh id stores the child with its
    [parent_id] set to the parent, appends the child's id to the parent's
    [subhabit_ids], and changes nothing else. *)
Theorem add_subhabit_spec s p hp sub :
  repo_wf (habit_repo s) -> repo_get p (habit_repo s) = Some hp ->
  repo_get (habit_id sub) (habit_repo s) = None ->
  ∃ s', add_subhabit p sub s = (Ok (set_parent_id sub p), s') ∧
    log_repo s' = log_repo s ∧ repo_wf (habit_repo s') ∧
    ∀ k, repo_get k (habit_repo s') =
         if decide (k = habit_id sub) then Some (set_parent_id sub p)
         else if decide (k = p) then Some (set_subhabit_ids hp (subhabit_ids hp ++ [habit_id sub]))
         else repo_get k (habit_repo s).
Proof.
  intros Hwf Hp Hsub. pose proof (repo_get_id _ _ _ Hwf Hp) as Hid.
  assert (Hne : habit_id sub ≠ p) by (intros Heq; rewrite Heq in Hsub; congruence).
  destruct (repo_add_fresh (set_parent_id sub p) (habit_repo s)) as (r1 & Ha & Hwf1 & Hget1);
    [done|done|].
  destruct (repo_update_present hp (set_subhabit_ids hp (subhabit_ids hp ++ [habit_id sub])) r1)
    as (r2 & Hu & Hwf2 & Hget2); [done| |by split_and!|].
  { rewrite Hget1. simpl. rewrite Hid. case_decide; [congruence|done]. }
  svc_unfold. rewrite Hp, Ha. simpl. rewrite Hu.
  eexists; split_and!; [done|done|done|]. intros k.
  rewrite Hget2, Hget1. simpl. rewrite Hid.
  repeat case_decide; subst; congruence.
Qed.
End ServiceTheorems.

(** ** The cascading delete *)

Section CascadingDelete.
Context {R L : Type} `{!HabitRepository R, !HabitRepositoryLaws R}
        `{!LogRepository L, !LogRepositoryLaws L}.
Implicit Types (s : HabitService R L) (r : R).

(** The ids [delete_habit] visits, in the order it deletes them
    (children first): [None] when a listed id is missing or the tree is
    deeper than [fuel]. *)
Fixpoint subtree_ids (fuel : nat) (r : R) (k : string) : option (list string) :=
  match fuel with
  | O => None
  | S f =>
      match repo_get k r with
      | None => None
      | Some h => ids ← mapM (subtree_ids f r) (subhabit_ids h); Some (concat ids ++ [k])
      end
  end.

Lemma subtree_ids_unfold f r k ids :
  subtree_ids (S f) r k = Some ids ->
  ∃ h idss, repo_get k r = Some h ∧ Forall2 (λ c ids, subtree_ids f r c = Some ids) (subhabit_ids h) idss ∧
            ids = concat idss ++ [k].
Proof.
  simpl. destruct (repo_get k r) as [h|]; [|done].
  destruct (mapM _ _) as [idss|] eqn:Hm; [|done]. intros [= <-].
  exists h, idss. split_and!; [done| |done]. by apply mapM_Some_1.
Qed.

Lemma Forall2_impl_in_r {A B} (P Q : A -> B -> Prop) l k :
  Forall2 P l k -> (∀ x y, y ∈ k -> P x y -> Q x y) -> Forall2 Q l k.
Proof.
  induction 1 as [|x y l k Hxy _ IH]; intros HPQ; constructor.
  - apply HPQ; [set_solver|done].
  - apply IH. intros x' y' Hy'. apply HPQ. set_solver.
Qed.

(** The walk reads only the habits it returns: two stores that agree on
    them give the same walk. *)
Lemma subtree_ids_frame f r r' k ids :
  subtree_ids f r k = Some ids ->
  (∀ x, x ∈ ids -> repo_get x r' = repo_get x r) ->
  subtree_ids f r' k = Some ids.
Proof.
  revert k ids. induction f as [|f IH]; intros k ids; [done|].
  intros (h & idss & Hk & Hch & ->)%subtree_ids_unfold Hagree. simpl.
  rewrite Hagree, Hk by set_solver.
  rewrite (mapM_Some_2 _ _ idss); [done|].
  eapply Forall2_impl_in_r; [done|]. intros c idc Hin Hc.
  apply IH; [done|]. intros x Hx. apply Hagree.
  apply elem_of_app. left. apply elem_of_concat. eauto.
Qed.
(** [s'] is [s] with the habits [ids] removed, and only them. *)
Definition removes (ids : list string) s s' : Prop :=
  log_repo s' = log_repo s ∧ repo_wf (habit_repo s') ∧
  ∀ x, repo_get x (habit_repo s') =
       if decide (x ∈ ids) then None else repo_get x (habit_repo s).

Lemma removes_trans ids1 ids2 s1 s2 s3 :
  removes ids1 s1 s2 -> removes ids2 s2 s3 -> removes (ids1 ++ ids2) s1 s3.
Proof.
  intros (Hl1 & _ & Hg1) (Hl2 & Hwf & Hg2). split_and!; [congruence|done|].
  intros x. rewrite Hg2, Hg1. repeat case_decide; set_solver.
Qed.

(** The loop over the children deletes their disjoint subtrees one after
    the other: deleting one leaves the others' walks unchanged. *)
Lemma pfor_delete_habit f cs idss s :
  (∀ k ids s, repo_wf (habit_repo s) -> subtree_ids f (habit_repo s) k = Some ids ->
     NoDup ids -> ∃ s', delete_habit f k s = (Ok tt, s') ∧ removes ids s s') ->
  repo_wf (habit_repo s) ->
  Forall2 (λ c ids, subtree_ids f (habit_repo s) c = Some ids) cs idss ->
  NoDup (concat idss) ->
  ∃ s', pfor cs (delete_habit f) s = (Ok tt, s') ∧ removes (concat idss) s s'.
Proof.
  intros IH. revert idss s. induction cs as [|c cs IHcs]; intros idss s Hwf Hall Hnd.
  - apply Forall2_nil_inv_l in Hall as ->. exists s. split; [done|].
    split_and!; [done|done|]. intros x. by rewrite decide_False by set_solver.
  - apply Forall2_cons_inv_l in Hall as (idc & idss' & Hc & Hrest & ->).
    simpl in Hnd. apply NoDup_app in Hnd as (Hndc & Hdisj & Hndr).
    destruct (IH c idc s Hwf Hc Hndc) as (s1 & Hdel & Hrem1).
    destruct Hrem1 as (Hl1 & Hwf1 & Hg1).
    destruct (IHcs idss' s1 Hwf1) as (s2 & Hfor & Hrem2); [|done|].
    { eapply Forall2_impl_in_r; [done|]. intros c' idc' Hin Hc'.
      apply (subtree_ids_frame _ _ _ _ _ Hc'). intros x Hx. rewrite Hg1.
      rewrite decide_False; [done|]. intros Hxc. apply (Hdisj x Hxc).
      apply elem_of_concat. eauto. }
    exists s2. split.
    + simpl. unfold pbind. by rewrite Hdel.
    + eapply removes_trans; [by split_and!|done].
Qed.

(** C5: cascading delete.  When the sub-habits below [k] form a tree
    (every listed id exists and none is reached twice) of depth below
    [fuel], [delete_habit] succeeds and removes exactly that tree; the
    other habits stay, and so do all log entries, those of the deleted
    habits included. *)
Theorem delete_habit_cascade fuel k ids s :
  repo_wf (habit_repo s) ->
  subtree_ids fuel (habit_repo s) k = Some ids -> NoDup ids ->
  ∃ s', delete_habit fuel k s = (Ok tt, s') ∧ removes ids s s'.
Proof.
  revert k ids s. induction fuel as [|f IH]; intros k ids s Hwf Hsub Hnd; [done|].
  apply subtree_ids_unfold in Hsub as (h & idss & Hk & Hch & ->).
  apply NoDup_app in Hnd as (Hndc & Hk' & _).
  destruct (pfor_delete_habit f (subhabit_ids h) idss s IH Hwf Hch Hndc)
    as (s1 & Hfor & Hl1 & Hwf1 & Hg1).
  destruct (repo_delete_spec k (habit_repo s1) Hwf1) as (r2 & Hdel & Hwf2 & Hg2).
  exists (mkHabitService r2 (log_repo s1)). split.
  - simpl. unfold pbind, read_habit, on_habits. rewrite Hk, Hfor, Hdel. done.
  - split_and!; [done|done|]. intros x. simpl. rewrite Hg2, Hg1.
    repeat case_decide; set_solver.
Qed.
(** On any store, [delete_habit]'s only exceptions are the missing habit
    and the recursion limit, it keeps the store well formed and the log
    entries, and it only makes [repo_delete] steps: any preorder [P] that
    [repo_delete] respects relates the store before and after. *)
Definition delete_outcome (res : Result unit) : Prop :=
  res = Ok tt ∨ res = Raise (ValueError "Habit not found") ∨ res = Raise RecursionError.

Section DeleteSteps.
Context (P : R -> R -> Prop) `{!PreOrder P}.
Hypothesis P_delete : ∀ k r, repo_wf r -> P r (repo_delete k r).2.

Definition delete_steps s s' : Prop :=
  log_repo s' = log_repo s ∧ repo_wf (habit_repo s') ∧ P (habit_repo s) (habit_repo s').

Lemma delete_steps_trans s1 s2 s3 : delete_steps s1 s2 -> delete_steps s2 s3 -> delete_steps s1 s3.
Proof. intros (? & _ & ?) (? & ? & ?). split_and!; [congruence|done|by etrans]. Qed.

Lemma delete_habit_outcome fuel k s :
  repo_wf (habit_repo s) ->
  delete_outcome (delete_habit fuel k s).1 ∧ delete_steps s (delete_habit fuel k s).2.
Proof.
  assert (Hrefl : ∀ s, repo_wf (habit_repo s) -> delete_steps s s) by done.
  revert k s. induction fuel as [|f IH]; intros k s Hwf; simpl.
  - split; [unfold delete_outcome; auto|auto].
  - unfold pbind, read_habit. simpl. destruct (repo_get k (habit_repo s)) as [h|]; simpl;
      [|split; [unfold delete_outcome; auto|auto]].
    assert (Hfor : ∀ cs s, repo_wf (habit_repo s) ->
      delete_outcome (pfor cs (delete_habit f) s).1 ∧ delete_steps s (pfor cs (delete_habit f) s).2).
    { induction cs as [|c cs IHcs]; intros s0 Hwf0; simpl; [split; [by left|auto]|].
      unfold pbind. destruct (IH c s0 Hwf0) as [Hout Hd].
      destruct (delete_habit f c s0) as [[[]|e] s1]; simpl in *; [|by split].
      destruct (IHcs s1) as [Hout' Hd']; [apply Hd|].
      split; [done|by eapply delete_steps_trans]. }
    destruct (Hfor (subhabit_ids h) s Hwf) as [Hout Hd].
    destruct (pfor (subhabit_ids h) (delete_habit f) s) as [[[]|e] s1]; simpl in *; [|by split].
    destruct Hd as (Hl1 & Hwf1 & HP1).
    destruct (repo_delete_spec k (habit_repo s1) Hwf1) as (r2 & Hdel & Hwf2 & _).
    pose proof (P_delete k (habit_repo s1) Hwf1) as HP2. rewrite Hdel in HP2.
    unfold on_habits. rewrite Hdel. simpl. split; [by left|].
    split_and!; [done|done|by etrans].
Qed.
End DeleteSteps.
End CascadingDelete.

(** ** Failures of the cascading delete *)

Section DeleteFailures.
Context {R L : Type} `{!HabitRepository R, !HabitRepositoryLaws R}
        `{!LogRepository L, !LogRepositoryLaws L}.
Implicit Types (s : HabitService R L).

(** C14: a habit listed as its own first sub-habit: [delete_habit]
    recurses on the same id in the same state until the recursion limit,
    whatever the limit, and raises [RecursionError]. *)
Theorem delete_habit_self_cycle fuel k h rest s :
  repo_get k (habit_repo s) = Some h -> subhabit_ids h = k :: rest ->
  ∃ s', delete_habit fuel k s = (Raise RecursionError, s').
Proof.
  intros Hk Hch. induction fuel as [|f IH]; [by eexists|].
  destruct IH as (s' & IH). simpl. unfold pbind, read_habit. rewrite Hk, Hch. simpl.
  unfold pbind. rewrite IH. by eexists.
Qed.

(** The first listed sub-habit is missing: the delete of the parent
    raises [ValueError] and writes nothing. *)
Lemma delete_habit_dangling fuel p hp c rest s :
  repo_get p (habit_repo s) = Some hp -> subhabit_ids hp = c :: rest ->
  repo_get c (habit_repo s) = None ->
  delete_habit (S (S fuel)) p s = (Raise (ValueError "Habit not found"), s).
Proof.
  intros Hp Hch Hc. simpl. unfold pbind, read_habit, praise. rewrite Hp, Hch. simpl.
  unfold pbind, read_habit, praise. by rewrite Hc.
Qed.

(** Deleting a habit without sub-habits removes it alone. *)
Lemma delete_habit_leaf fuel c hc s :
  repo_wf (habit_repo s) -> repo_get c (habit_repo s) = Some hc -> subhabit_ids hc = [] ->
  ∃ s1, delete_habit (S fuel) c s = (Ok tt, s1) ∧ removes [c] s s1.
Proof.
  intros Hwf Hc Hcc. destruct (repo_delete_spec c (habit_repo s) Hwf) as (r1 & Hdel & Hwf1 & Hg1).
  exists (mkHabitService r1 (log_repo s)). split.
  - simpl. unfold pbind, read_habit, on_habits, pret. rewrite Hc, Hcc. simpl. by rewrite Hdel.
  - split_and!; [done|done|]. intros x. simpl. rewrite Hg1. repeat case_decide; set_solver.
Qed.

(** C6: deleting a sub-habit does not remove its id from the parent's
    [subhabit_ids]: the parent is kept as it was, and every later delete of
    the parent raises [ValueError] (a 404) and leaves it in the store. *)
Theorem delete_child_then_parent fuel fuel' p hp c hc rest s :
  repo_wf (habit_repo s) ->
  repo_get p (habit_repo s) = Some hp -> subhabit_ids hp = c :: rest ->
  repo_get c (habit_repo s) = Some hc -> subhabit_ids hc = [] -> c ≠ p ->
  ∃ s1, delete_habit (S fuel) c s = (Ok tt, s1) ∧
        repo_get p (habit_repo s1) = Some hp ∧
        repo_get c (habit_repo s1) = None ∧
        delete_habit (S (S fuel')) p s1 = (Raise (ValueError "Habit not found"), s1).
Proof.
  intros Hwf Hp Hch Hc Hcc Hne.
  destruct (delete_habit_leaf fuel c hc s Hwf Hc Hcc) as (s1 & Hdel & _ & _ & Hg1).
  assert (Hp1 : repo_get p (habit_repo s1) = Some hp).
  { rewrite Hg1, decide_False by set_solver. done. }
  assert (Hc1 : repo_get c (habit_repo s1) = None).
  { by rewrite Hg1, decide_True by set_solver. }
  exists s1. split_and!; [done|done|done|]. by eapply delete_habit_dangling.
Qed.
End DeleteFailures.

(** ** Logs and statistics *)

Section LogsAndStatistics.
Context {R L : Type} `{!HabitRepository R, !HabitRepositoryLaws R}
        `{!LogRepository L, !LogRepositoryLaws L}.
Implicit Types (s : HabitService R L).

(** C15: [record_log] with an entry id not yet in the log store, then
    [get_logs]: the new entry is stored once, the
    habits are untouched, and [get_logs] returns the habit's entries
    inside the window (the new one among them when its date is inside),
    sorted by date. *)
Theorem record_log_get_logs fresh_id now k h date_ value start end_ s :
  log_repo_wf (log_repo s) -> valid_date date_ = true ->
  opt_valid_date start = true -> opt_valid_date end_ = true ->
  repo_get k (habit_repo s) = Some h ->
  fresh_id ∉ log_id <$> list_all (log_repo s) ->
  let log := LogEntry_create fresh_id now k date_ value in
  ∃ s', record_log fresh_id now k date_ value s = (Ok log, s') ∧
    habit_repo s' = habit_repo s ∧ log_repo_wf (log_repo s') ∧
    list_all (log_repo s') ≡ₚ list_all (log_repo s) ++ [log] ∧
    ∃ logs, get_logs k start end_ s' = (Ok logs, s') ∧
      logs ≡ₚ logs_of k start end_ (list_all (log_repo s) ++ [log]) ∧
      Sorted (λ a b, log_date a ≤ log_date b)%Z logs.
Proof.
  intros Hwf Hd Hst Hen Hk Hfresh. cbv zeta.
  destruct (log_repo_add_spec (LogEntry_create fresh_id now k date_ value) (log_repo s) Hwf Hd Hfresh)
    as (l' & Hadd & Hwf' & Hall).
  eexists. split.
  - unfold record_log, pbind, read_habit, on_logs, pret. rewrite Hk. simpl. by rewrite Hadd.
  - simpl. split_and!; [done|done|done|]. eexists. split.
    + unfold get_logs, pbind, read_habit, read_logs. simpl. by rewrite Hk.
    + split; [|by apply list_for_habit_sorted].
      rewrite list_for_habit_perm by done. unfold logs_of. by rewrite Hall.
Qed.

(** The entries [get_statistics] hands to the calculator are already
    inside the window: the calculator's own filter keeps them all. *)
Lemma filter_list_for_habit k start end_ (l : L) :
  log_repo_wf l -> opt_valid_date start = true -> opt_valid_date end_ = true ->
  _filter_logs_by_date (list_for_habit k start end_ l) start end_ = list_for_habit k start end_ l.
Proof.
  intros Hwf Hst Hen. rewrite _filter_logs_by_date_filter. apply list_filter_all. intros log Hlog.
  rewrite list_for_habit_perm in Hlog by done. unfold logs_of in Hlog.
  apply list_elem_of_filter in Hlog. naive_solver.
Qed.

(** C9: [get_statistics] with the default registry writes nothing, never
    fails for want of a calculator, and returns the statistics of the
    habit's entries inside the window: [total_days_tracked] counts them,
    the rate is in [[0, 1]], and the streaks are ordered.  Its only error
    on an existing habit is the [OverflowError] of the walk back to
    [date.min]. *)
Theorem get_statistics_default today k h start end_ s res s' :
  valid_date today = true -> log_repo_wf (log_repo s) ->
  opt_valid_date start = true -> opt_valid_date end_ = true ->
  repo_get k (habit_repo s) = Some h ->
  get_statistics _calculators today k start end_ s = (res, s') ->
  s' = s ∧
  (∀ k' r, res = Ok (k', r) ->
     k' = k ∧
     total_days_tracked r = length (logs_of k start end_ (list_all (log_repo s))) ∧
     (0 <= completion_rate r <= 1)%Q ∧
     (current_streak r ≤ longest_streak r ≤ total_completions r)%nat) ∧
  (∀ e, res = Raise e -> e = OverflowError "date value out of range").
Proof.
  intros Hv Hwf Hst Hen Hk. unfold get_statistics, pbind, read_habit, read_logs, plift, pret.
  rewrite Hk. simpl. rewrite get_calculator_default.
  set (c := match type h with
            | BOOLEAN => BooleanStatisticsCalculator
            | NUMERIC => NumericStatisticsCalculator
            end).
  assert (Hlaws : CalculatorLaws c) by (subst c; destruct (type h); apply _).
  assert (Hget : get_calculator _calculators (type h) = Ok c) by apply get_calculator_default.
  destruct (calculate c today h (list_for_habit k start end_ (log_repo s)) start end_)
    as [r|e] eqn:Hc; intros [= <- <-]; (split; [done|]).
  - split; [|done]. intros k' r' [= <- <-]. split; [done|]. split; [|split].
    + rewrite (calculator_total_days _ _ _ _ _ _ Hc), filter_list_for_habit by done.
      by apply Permutation_length, list_for_habit_perm.
    + eapply completion_rate_of_unit; [|exact (calculator_rate _ _ _ _ _ _ Hc)].
      by eapply calculator_completions_le.
    + by eapply calculator_streaks.
  - split; [done|]. intros e' [= <-].
    by apply (default_calculate_raise_overflow (type h) c today h _ start end_ e Hv Hget) in Hc.
Qed.
End LogsAndStatistics.

(** ** Witnesses, on the in-memory stores *)

Abbreviation InMemoryService := (HabitService InMemoryHabitRepository InMemoryLogRepository).

(** A parent ["p"] with one sub-habit ["c"] (scenario E of the
    specification), no log entries. *)
Definition svc_PC : InMemoryService :=
  mkHabitService {| habit_storage := [("p", habit_P); ("c", habit_Cc)] |} InMemoryLogRepository_init.

(** A habit listed as its own sub-habit, as [add_subhabit "p" p] leaves it. *)
Definition habit_P_self : Habit := mkHabit "p" "Parent" None None BOOLEAN None 0 (Some "p") ["p"].
Definition svc_self : InMemoryService :=
  mkHabitService {| habit_storage := [("p", habit_P_self)] |} InMemoryLogRepository_init.

(** The boolean habit of scenario A with its five entries. *)
Definition svc_A : InMemoryService :=
  mkHabitService {| habit_storage := [("a", habit_A)] |} {| log_storage := logs_A |}.

Definition update_name : HabitUpdate := mkHabitUpdate (Some "Run") None None None.

Lemma svc_PC_wf : repo_wf (habit_repo svc_PC).
Proof. apply InMemoryHabitRepository_wfb_wf. reflexivity. Qed.

Lemma delete_habit_cascade_witness :
  ∃ s', delete_habit 3 "p" svc_PC = (Ok tt, s') ∧ removes ["c"; "p"] svc_PC s'.
Proof.
  apply (delete_habit_cascade 3 "p" ["c"; "p"] svc_PC svc_PC_wf); [reflexivity|].
  apply (bool_decide_unpack _). reflexivity.
Defined.

Lemma delete_child_then_parent_witness :
  ∃ s1, delete_habit 1 "c" svc_PC = (Ok tt, s1) ∧
        repo_get "p" (habit_repo s1) = Some habit_P ∧
        repo_get "c" (habit_repo s1) = None ∧
        delete_habit 2 "p" s1 = (Raise (ValueError "Habit not found"), s1).
Proof.
  apply (delete_child_then_parent 0 0 "p" habit_P "c" habit_Cc [] svc_PC svc_PC_wf);
    [reflexivity|reflexivity|reflexivity|reflexivity|discriminate].
Defined.

Lemma service_not_found_witness :
  update_habit "x" update_name svc_PC = (Raise (ValueError "Habit not found"), svc_PC) ∧
  (∀ fuel, delete_habit (S fuel) "x" svc_PC = (Raise (ValueError "Habit not found"), svc_PC)) ∧
  add_subhabit "x" habit_N svc_PC = (Raise (ValueError "Parent habit not found"), svc_PC) ∧
  record_log "l" 0 "x" 738000 None svc_PC = (Raise (ValueError "Habit not found"), svc_PC) ∧
  get_logs "x" None None svc_PC = (Raise (ValueError "Habit not found"), svc_PC) ∧
  get_statistics _calculators 738000 "x" None None svc_PC =
    (Raise (ValueError "Habit not found"), svc_PC).
Proof. apply (service_not_found svc_PC "x"). reflexivity. Defined.

Lemma get_statistics_default_witness :
  get_statistics _calculators 738000 "a" None None svc_A = (Ok ("a", result_A), svc_A) ∧
  svc_A = svc_A ∧
  (∀ k' r, Ok ("a", result_A) = Ok (k', r) ->
     k' = "a" ∧
     total_days_tracked r = length (logs_of "a" None None (list_all (log_repo svc_A))) ∧
     (0 <= completion_rate r <= 1)%Q ∧
     (current_streak r ≤ longest_streak r ≤ total_completions r)%nat) ∧
  (∀ e, @Ok (string * StatisticsResult) ("a", result_A) = Raise e ->
     e = OverflowError "date value out of range").
Proof.
  assert (H : get_statistics _calculators 738000 "a" None None svc_A = (Ok ("a", result_A), svc_A))
    by (vm_compute; reflexivity).
  split; [exact H|].
  exact (get_statistics_default 738000 "a" habit_A None None svc_A _ _ eq_refl I eq_refl eq_refl
           eq_refl H).
Defined.

Lemma update_habit_spec_witness :
  ∃ s' h', update_habit "p" update_name svc_PC = (Ok h', s') ∧
    habit_id h' = "p" ∧ type h' = type habit_P ∧ created_at h' = created_at habit_P ∧
    parent_id h' = parent_id habit_P ∧ subhabit_ids h' = subhabit_ids habit_P ∧
    name h' = default (name habit_P) (upd_name update_name) ∧
    description h' = (if upd_description update_name is Some v then Some v else description habit_P) ∧
    category h' = (if upd_category update_name is Some v then Some v else category habit_P) ∧
    goal h' = (if upd_goal update_name is Some v then Some v else goal habit_P) ∧
    log_repo s' = log_repo svc_PC ∧ repo_wf (habit_repo s') ∧
    ∀ k', repo_get k' (habit_repo s') =
          if decide (k' = "p") then Some h' else repo_get k' (habit_repo svc_PC).
Proof. exact (update_habit_spec svc_PC "p" update_name habit_P svc_PC_wf eq_refl). Defined.

Lemma add_subhabit_spec_witness :
  ∃ s', add_subhabit "p" habit_N svc_PC = (Ok (set_parent_id habit_N "p"), s') ∧
    log_repo s' = log_repo svc_PC ∧ repo_wf (habit_repo s') ∧
    ∀ k, repo_get k (habit_repo s') =
         if decide (k = habit_id habit_N) then Some (set_parent_id habit_N "p")
         else if decide (k = "p")
              then Some (set_subhabit_ids habit_P (subhabit_ids habit_P ++ [habit_id habit_N]))
         else repo_get k (habit_repo svc_PC).
Proof. exact (add_subhabit_spec svc_PC "p" habit_P habit_N svc_PC_wf eq_refl eq_refl). Defined.

Lemma delete_habit_self_cycle_witness :
  ∃ s', delete_habit 1000 "p" svc_self = (Raise RecursionError, s').
Proof. exact (delete_habit_self_cycle 1000 "p" habit_P_self [] svc_self eq_refl eq_refl). Defined.

Lemma record_log_get_logs_witness :
  let log := LogEntry_create "l1" 0 "p" 738000 (Some 1%Q) in
  ∃ s', record_log "l1" 0 "p" 738000 (Some 1%Q) svc_PC = (Ok log, s') ∧
    habit_repo s' = habit_repo svc_PC ∧ log_repo_wf (log_repo s') ∧
    list_all (log_repo s') ≡ₚ list_all (log_repo svc_PC) ++ [log] ∧
    ∃ logs, get_logs "p" (Some 737990%Z) None s' = (Ok logs, s') ∧
      logs ≡ₚ logs_of "p" (Some 737990%Z) None (list_all (log_repo svc_PC) ++ [log]) ∧
      Sorted (λ a b, log_date a ≤ log_date b)%Z logs.
Proof.
  exact (record_log_get_logs "l1" 0 "p" habit_P 738000 (Some 1%Q) (Some 737990%Z) None svc_PC
           I eq_refl eq_refl eq_refl eq_refl (not_elem_of_nil _)).
Defined.

Lemma create_habit_spec_witness :
  ∃ s', create_habit habit_N svc_PC = (Ok tt, s') ∧ log_repo s' = log_repo svc_PC ∧
    repo_wf (habit_repo s') ∧
    ∀ k, repo_get k (habit_repo s') =
         if decide (k = habit_id habit_N) then Some habit_N else repo_get k (habit_repo svc_PC).
Proof. exact (create_habit_spec svc_PC habit_N svc_PC_wf eq_refl). Defined.
