(* ===== verification/SQLite.v ===== *)
(** * SQLite: the SQLite habit store of [app/db/sqlite.py]

    [SQLiteHabitRepository] keeps the habits in the table [habits] of one
    SQLite file ([SQLiteLog.v] models the [logs] table).  Each method opens
    a connection, runs one statement and commits; a statement that fails
    (a [PRIMARY KEY] violation) raises [sqlite3.IntegrityError] and the
    connection's context manager rolls it back, so the table is unchanged.

    A table is modelled as the list of its rows in [rowid] order, which is
    the order of insertion: the tables have no [AUTOINCREMENT], a new row
    gets the largest [rowid] plus one, [UPDATE] keeps the [rowid], and a
    [SELECT] without [ORDER BY] scans them in [rowid] order.  A habit row
    keeps the [type] column as the text the code writes
    ([habit.type.value]), read back by [HabitType(row[4])].  The
    [created_at] timestamp and the JSON list of sub-habit ids are stored
    decoded: [datetime.isoformat]/[fromisoformat] and
    [json.dumps]/[json.loads] of a list of strings are round trips of the
    standard library.

    The file proves that the store keeps the repository laws of
    [Repository.v] (so every theorem of [Services.v] holds over SQLite),
    that a habit written is read back unchanged, and that it agrees with
    the in-memory store on every read along the writes the service makes;
    they differ on a duplicate id (the in-memory [add] replaces, SQLite
    raises) and on an [update] of the columns [UPDATE] does not write. *)

From S2P Require Import Prelude Models Statistics Dict Repository Services.

(** ** Reads by primary key *)

Section Select.
Context {A : Type} (key : A -> string).

(** [SELECT * FROM t WHERE id = ?] then [fetchone()]: the first row of
    the scan with that key. *)
Fixpoint select_by_id (k : string) (rows : list A) : option A :=
  match rows with
  | [] => None
  | row :: rows' => if decide (key row = k) then Some row else select_by_id k rows'
  end.

Lemma select_by_id_Some k rows row :
  select_by_id k rows = Some row -> row ∈ rows ∧ key row = k.
Proof.
  induction rows as [|r rows IH]; simpl; [done|].
  case_decide; [intros [= <-]; split; [left|done]|].
  intros (? & ?)%IH. split; [by right|done].
Qed.

Lemma select_by_id_None k rows : select_by_id k rows = None <-> k ∉ key <$> rows.
Proof.
  induction rows as [|r rows IH]; simpl; [set_solver|].
  case_decide; [set_solver|]. rewrite IH. set_solver.
Qed.

Lemma select_by_id_app k rows row :
  select_by_id k (rows ++ [row]) =
  match select_by_id k rows with
  | Some r => Some r
  | None => if decide (key row = k) then Some row else None
  end.
Proof.
  induction rows as [|r rows IH]; simpl; [done|].
  destruct (decide (key r = k)); [done|exact IH].
Qed.

(** [UPDATE t SET ... WHERE id = ?] on every row of that key. *)
Lemma select_by_id_update k k0 (f : A -> A) rows :
  (∀ row, key (f row) = key row) ->
  select_by_id k ((λ row, if decide (key row = k0) then f row else row) <$> rows) =
  (λ row, if decide (key row = k0) then f row else row) <$> select_by_id k rows.
Proof.
  intros Hf. induction rows as [|r rows IH]; simpl; [done|].
  assert (Hk : key (if decide (key r = k0) then f r else r) = key r)
    by (case_decide; [apply Hf|done]).
  rewrite Hk. destruct (decide (key r = k)); [reflexivity|apply IH].
Qed.

(** [DELETE FROM t WHERE id = ?] *)
Lemma select_by_id_delete k k0 rows :
  select_by_id k (filter (λ row, key row ≠ k0) rows) =
  if decide (k = k0) then None else select_by_id k rows.
Proof.
  induction rows as [|r rows IH]; simpl; [by case_decide|].
  rewrite filter_cons. destruct (decide (key r ≠ k0)) as [Hr|Hr]; simpl.
  - destruct (decide (key r = k)); [subst; by rewrite decide_False|exact IH].
  - apply dec_stable in Hr. rewrite IH. destruct (decide (k = k0)); [done|].
    rewrite decide_False by congruence. done.
Qed.
(** With distinct keys, a row of the table is the row its key selects. *)
Lemma select_by_id_elem rows row :
  NoDup (key <$> rows) -> row ∈ rows -> select_by_id (key row) rows = Some row.
Proof.
  induction rows as [|r rows IH]; simpl; [set_solver|].
  intros (Hr & Hnd)%NoDup_cons [->|Hin]%elem_of_cons; [by rewrite decide_True|].
  rewrite decide_False; [by apply IH|]. intros Heq. apply Hr. rewrite Heq.
  by apply list_elem_of_fmap_2.
Qed.
End Select.

(** ** [SQLiteHabitRepository] *)

(** A row of the [habits] table, its columns in the order of the
    [CREATE TABLE]. *)
Record habit_row : Type := mkHabitRow {
  row_id : string;
  row_name : string;
  row_description : option string;
  row_category : option string;
  row_type : string;
  row_goal : option Q;
  row_created_at : timestamp;
  row_parent_id : option string;
  row_subhabit_ids : list string
}.

(** [HabitType(v)]: the member of that value, or [ValueError]. *)
Definition HabitType_of_value (v : string) : Result HabitType :=
  if decide (v = HabitType_value BOOLEAN) then Ok BOOLEAN
  else if decide (v = HabitType_value NUMERIC) then Ok NUMERIC
  else Raise (ValueError ("'" +:+ v +:+ "' is not a valid HabitType")).

Definition _habit_from_row (row : habit_row) : Result Habit :=
  let! t := HabitType_of_value (row_type row) in
  Ok (mkHabit (row_id row) (row_name row) (row_description row) (row_category row) t
              (row_goal row) (row_created_at row) (row_parent_id row) (row_subhabit_ids row)).

(** The parameters of the [INSERT] of [add]. *)
Definition habit_to_row (habit : Habit) : habit_row :=
  mkHabitRow (habit_id habit) (name habit) (description habit) (category habit)
             (HabitType_value (type habit)) (goal habit) (created_at habit)
             (parent_id habit) (subhabit_ids habit).

(** [UPDATE habits SET name, description, category, goal, subhabit_ids]:
    the other columns keep the row's values. *)
Definition update_row (habit : Habit) (row : habit_row) : habit_row :=
  mkHabitRow (row_id row) (name habit) (description habit) (category habit)
             (row_type row) (goal habit) (row_created_at row)
             (row_parent_id row) (subhabit_ids habit).

Record SQLiteHabitRepository : Type := mkSQLiteHabitRepository {
  habits_table : list habit_row
}.

(** [__init__(db_path)] runs [_init_db]: [CREATE TABLE IF NOT EXISTS
    habits] keeps the table the file already holds ([Some rows]) and
    creates an empty one otherwise ([None]). *)
Definition SQLiteHabitRepository_init (existing : option (list habit_row)) : SQLiteHabitRepository :=
  {| habits_table := default [] existing |}.

(** [INSERT INTO habits ...]: a second row with the same [id] violates
    the primary key. *)
Definition SQLiteHabitRepository_add (habit : Habit) : PyM SQLiteHabitRepository unit :=
  fun r =>
    if decide (habit_id habit ∈ row_id <$> habits_table r)
    then (Raise (IntegrityError "UNIQUE constraint failed: habits.id"), r)
    else (Ok tt, {| habits_table := habits_table r ++ [habit_to_row habit] |}).

(** [self._habit_from_row(row) if row else None] *)
Definition SQLiteHabitRepository_get (habit_id : string) (r : SQLiteHabitRepository)
    : Result (option Habit) :=
  match select_by_id row_id habit_id (habits_table r) with
  | Some row => let! h := _habit_from_row row in Ok (Some h)
  | None => Ok None
  end.

(** [[self._habit_from_row(row) for row in cursor.fetchall()]] *)
Definition habits_from_rows (rows : list habit_row) : Result (list Habit) :=
  res_map _habit_from_row rows.

Definition SQLiteHabitRepository_list (r : SQLiteHabitRepository) : Result (list Habit) :=
  habits_from_rows (habits_table r).

(** [UPDATE ... WHERE id = ?], then [KeyError] when no row matched
    ([result.rowcount == 0]). *)
Definition SQLiteHabitRepository_update (habit : Habit) : PyM SQLiteHabitRepository unit :=
  fun r =>
    let rowcount := length (filter (λ row, row_id row = habit_id habit) (habits_table r)) in
    if decide (rowcount = 0)
    then (Raise (KeyError "Habit not found"), r)
    else (Ok tt, {| habits_table :=
                      (λ row, if decide (row_id row = habit_id habit) then update_row habit row else row)
                        <$> habits_table r |}).

(** [DELETE FROM habits WHERE id = ?] *)
Definition SQLiteHabitRepository_delete (k : string) : PyM SQLiteHabitRepository unit :=
  fun r => (Ok tt, {| habits_table := filter (λ row, row_id row ≠ k) (habits_table r) |}).

(** ** The invariant: distinct ids, and a [type] column [HabitType] reads *)

Definition valid_row (row : habit_row) : bool := is_ok (HabitType_of_value (row_type row)).

Definition SQLiteHabitRepository_wf (r : SQLiteHabitRepository) : Prop :=
  NoDup (row_id <$> habits_table r) ∧ Forall (λ row, valid_row row = true) (habits_table r).

#[export] Instance SQLiteHabitRepository_wf_dec r : Decision (SQLiteHabitRepository_wf r).
Proof. unfold SQLiteHabitRepository_wf. apply _. Defined.

Lemma HabitType_of_value_value t : HabitType_of_value (HabitType_value t) = Ok t.
Proof. by destruct t. Qed.

Lemma valid_row_from_row row :
  valid_row row = true -> ∃ h, _habit_from_row row = Ok h ∧ habit_id h = row_id row.
Proof.
  unfold valid_row, _habit_from_row. destruct (HabitType_of_value (row_type row)); [|done].
  intros _. by eexists.
Qed.

Lemma _habit_from_row_id row h : _habit_from_row row = Ok h -> habit_id h = row_id row.
Proof.
  unfold _habit_from_row. destruct (HabitType_of_value (row_type row)); simpl; [|done].
  by intros [= <-].
Qed.

Lemma update_row_id h row : row_id (update_row h row) = row_id row.
Proof. done. Qed.

(** The row [UPDATE] leaves reads as the new habit when the columns it
    does not write already hold the new habit's values. *)
Lemma _habit_from_row_update h0 h row :
  _habit_from_row row = Ok h0 -> same_row h0 h -> _habit_from_row (update_row h row) = Ok h.
Proof.
  unfold _habit_from_row, update_row, same_row. simpl.
  destruct (HabitType_of_value (row_type row)); simpl; [|done].
  intros [= <-]. destruct h; simpl. intros (-> & -> & -> & ->). done.
Qed.

Lemma habits_from_rows_Forall2 rows hs :
  habits_from_rows rows = Ok hs <-> Forall2 (λ row h, _habit_from_row row = Ok h) rows hs.
Proof. apply res_map_Forall2. Qed.

Lemma _habit_from_row_habit_to_row h : _habit_from_row (habit_to_row h) = Ok h.
Proof. unfold _habit_from_row, habit_to_row. simpl. rewrite HabitType_of_value_value. by destruct h. Qed.

Lemma valid_row_habit_to_row h : valid_row (habit_to_row h) = true.
Proof. unfold valid_row. simpl. by rewrite HabitType_of_value_value. Qed.

(** ** The protocol

    The protocol's reads are total functions of the store; SQLite's raise
    [ValueError] on a row whose [type] column is no value of [HabitType],
    which no [add] writes.  The instance reads a raising [get] as absent
    and a raising [list] as empty; on a store that keeps
    [SQLiteHabitRepository_wf] neither raises ([SQLiteHabitRepository_get_wf],
    [SQLiteHabitRepository_list_wf]), and the laws are stated under it. *)
Definition res_default {A} (d : A) (r : Result A) : A :=
  match r with Ok a => a | Raise _ => d end.

#[export] Instance SQLiteHabitRepository_repo : HabitRepository SQLiteHabitRepository := {
  repo_add := SQLiteHabitRepository_add;
  repo_get k r := res_default None (SQLiteHabitRepository_get k r);
  repo_list r := res_default [] (SQLiteHabitRepository_list r);
  repo_update := SQLiteHabitRepository_update;
  repo_delete := SQLiteHabitRepository_delete
}.

Lemma SQLiteHabitRepository_get_wf k r :
  SQLiteHabitRepository_wf r ->
  SQLiteHabitRepository_get k r = Ok (repo_get k r) ∧
  (repo_get k r = None <-> k ∉ row_id <$> habits_table r).
Proof.
  intros [_ Hvalid]. simpl. unfold SQLiteHabitRepository_get.
  destruct (select_by_id row_id k (habits_table r)) as [row|] eqn:Hsel.
  - apply select_by_id_Some in Hsel as [Hin <-].
    rewrite Forall_forall in Hvalid. destruct (valid_row_from_row row) as (h & Hh & _); [by apply Hvalid|].
    rewrite Hh. simpl. split; [done|]. split; [done|]. intros Hn. exfalso. apply Hn.
    by apply list_elem_of_fmap_2.
  - simpl. split; [done|]. split; [|done]. intros _. by apply select_by_id_None.
Qed.

Lemma SQLiteHabitRepository_get_Some k r h :
  repo_get k r = Some h <->
  ∃ row, select_by_id row_id k (habits_table r) = Some row ∧ _habit_from_row row = Ok h.
Proof.
  simpl. unfold SQLiteHabitRepository_get.
  destruct (select_by_id row_id k (habits_table r)) as [row|]; simpl.
  - destruct (_habit_from_row row) as [h'|e] eqn:Hr; simpl; split.
    + intros [= ->]. by exists row.
    + intros (? & [= <-] & Hr'). congruence.
    + done.
    + intros (? & [= <-] & Hr'). congruence.
  - split; [done|]. by intros (? & ? & _).
Qed.

Lemma SQLiteHabitRepository_list_wf r :
  SQLiteHabitRepository_wf r ->
  Forall2 (λ row h, _habit_from_row row = Ok h) (habits_table r) (repo_list r) ∧
  SQLiteHabitRepository_list r = Ok (repo_list r).
Proof.
  intros [_ Hvalid]. simpl. unfold SQLiteHabitRepository_list.
  assert (∃ hs, habits_from_rows (habits_table r) = Ok hs) as [hs Hhs].
  { apply res_map_is_ok. eapply Forall_impl; [exact Hvalid|]. intros row Hrow.
    by destruct (valid_row_from_row row Hrow) as (h & -> & _). }
  rewrite Hhs. simpl. split; [by apply habits_from_rows_Forall2|done].
Qed.

Lemma SQLiteHabitRepository_add_fresh h r :
  SQLiteHabitRepository_wf r -> habit_id h ∉ row_id <$> habits_table r ->
  ∃ r', SQLiteHabitRepository_add h r = (Ok tt, r') ∧ SQLiteHabitRepository_wf r' ∧
    ∀ k, repo_get k r' = if decide (k = habit_id h) then Some h else repo_get k r.
Proof.
  intros [Hnd Hvalid] Hfresh. unfold SQLiteHabitRepository_add. rewrite decide_False by done.
  eexists. split_and!; [done| |].
  - split; simpl; rewrite ?fmap_app.
    + apply NoDup_app. split_and!; [done| |apply NoDup_singleton]. set_solver.
    + apply Forall_app. split; [done|]. constructor; [apply valid_row_habit_to_row|constructor].
  - intros k. simpl. unfold SQLiteHabitRepository_get. simpl. rewrite select_by_id_app. simpl.
    destruct (decide (k = habit_id h)) as [->|Hk].
    + rewrite (proj2 (select_by_id_None _ _ _) Hfresh), decide_True by done. simpl.
      by rewrite _habit_from_row_habit_to_row.
    + destruct (select_by_id row_id k (habits_table r)); [done|].
      by rewrite decide_False by done.
Qed.

Lemma SQLiteHabitRepository_update_present h0 h r :
  SQLiteHabitRepository_wf r -> repo_get (habit_id h) r = Some h0 -> same_row h0 h ->
  ∃ r', SQLiteHabitRepository_update h r = (Ok tt, r') ∧ SQLiteHabitRepository_wf r' ∧
    ∀ k, repo_get k r' = if decide (k = habit_id h) then Some h else repo_get k r.
Proof.
  intros [Hnd Hvalid] (row & Hsel & Hrow)%SQLiteHabitRepository_get_Some Hsame.
  pose proof (select_by_id_Some _ _ _ _ Hsel) as [Hin Hid].
  unfold SQLiteHabitRepository_update. rewrite decide_False.
  2:{ rewrite length_zero_iff_nil. intros Hnil.
      apply (not_elem_of_nil row). rewrite <- Hnil. by apply list_elem_of_filter. }
  set (g := λ row, if decide (row_id row = habit_id h) then update_row h row else row).
  assert (Hids : row_id <$> (g <$> habits_table r) = row_id <$> habits_table r).
  { rewrite <- list_fmap_compose. apply list_fmap_ext. intros ? x _. unfold g, compose.
    by case_decide. }
  eexists. split_and!; [done|split; simpl|].
  - by rewrite Hids.
  - apply Forall_fmap. eapply Forall_impl; [done|]. intros x Hx. unfold g, compose.
    by case_decide.
  - intros k. simpl. unfold SQLiteHabitRepository_get. simpl.
    rewrite (select_by_id_update row_id k (habit_id h) (update_row h)) by done.
    destruct (decide (k = habit_id h)) as [->|Hk].
    + rewrite Hsel. simpl. rewrite decide_True by done.
      by rewrite (_habit_from_row_update h0 h row).
    + destruct (select_by_id row_id k (habits_table r)) as [x|] eqn:Hx; [|done]. simpl.
      apply select_by_id_Some in Hx as [_ ->]. by rewrite decide_False.
Qed.

Lemma SQLiteHabitRepository_delete_spec k0 r :
  SQLiteHabitRepository_wf r ->
  ∃ r', SQLiteHabitRepository_delete k0 r = (Ok tt, r') ∧ SQLiteHabitRepository_wf r' ∧
    ∀ k, repo_get k r' = if decide (k = k0) then None else repo_get k r.
Proof.
  intros [Hnd Hvalid]. eexists. split_and!; [done|split; simpl|].
  - apply NoDup_fmap_filter. done.
  - rewrite Forall_forall in *. intros x [_ Hx]%list_elem_of_filter. by apply Hvalid.
  - intros k. simpl. unfold SQLiteHabitRepository_get. simpl.
    rewrite select_by_id_delete. by case_decide.
Qed.

#[export] Instance SQLiteHabitRepository_laws : HabitRepositoryLaws SQLiteHabitRepository.
Proof.
  refine {| repo_wf := SQLiteHabitRepository_wf |}.
  - intros k h r _ (row & Hsel & Hrow)%SQLiteHabitRepository_get_Some.
    rewrite (_habit_from_row_id _ _ Hrow). by apply select_by_id_Some in Hsel as [_ ->].
  - intros h r Hwf Hnone. apply SQLiteHabitRepository_add_fresh; [done|].
    by apply (SQLiteHabitRepository_get_wf _ _ Hwf).
  - intros h0 h r Hwf Hsome. by apply SQLiteHabitRepository_update_present.
  - intros h r Hwf Hnone. simpl. unfold SQLiteHabitRepository_update.
    rewrite decide_True; [done|]. rewrite length_zero_iff_nil. apply list_filter_none.
    intros row Hin Hid. apply (SQLiteHabitRepository_get_wf _ _ Hwf) in Hnone. apply Hnone.
    rewrite <- Hid. by apply list_elem_of_fmap_2.
  - intros k0 r Hwf. by apply SQLiteHabitRepository_delete_spec.
  - intros h r Hwf. destruct (SQLiteHabitRepository_list_wf r Hwf) as [HF _].
    assert (Hfun : ∀ row h1 h2, _habit_from_row row = Ok h1 -> _habit_from_row row = Ok h2 -> h1 = h2)
      by (intros ??? -> ?; congruence).
    rewrite (elem_of_Forall2_r _ _ _ _ Hfun HF).
    setoid_rewrite SQLiteHabitRepository_get_Some. split.
    + intros (row & Hin & Hrow). exists (row_id row), row. split; [|done].
      apply select_by_id_elem; [apply Hwf|done].
    + intros (k & row & Hsel & Hrow). exists row. split; [|done]. by apply select_by_id_Some in Hsel as [? _].
Defined.

(** ** Theorems on the SQLite habit store *)

(** C19: on a well-formed table, [add] of a new id inserts a row that
    [get] reads back as the same habit (the type column round-trips
    through [habit.type.value] and [HabitType(...)]); [add] of an id
    already present raises [IntegrityError] and leaves the table as it
    was, where the in-memory [add] replaces the habit. *)
Theorem SQLiteHabitRepository_add_get h r :
  SQLiteHabitRepository_wf r ->
  (habit_id h ∉ row_id <$> habits_table r ->
   ∃ r', SQLiteHabitRepository_add h r = (Ok tt, r') ∧ SQLiteHabitRepository_wf r' ∧
     SQLiteHabitRepository_get (habit_id h) r' = Ok (Some h)) ∧
  (habit_id h ∈ row_id <$> habits_table r ->
   SQLiteHabitRepository_add h r =
     (Raise (IntegrityError "UNIQUE constraint failed: habits.id"), r)).
Proof.
  intros Hwf. split.
  - intros Hfresh. destruct (SQLiteHabitRepository_add_fresh h r Hwf Hfresh) as (r' & Hadd & Hwf' & Hget).
    exists r'. split_and!; [done|done|]. rewrite (proj1 (SQLiteHabitRepository_get_wf _ _ Hwf')).
    rewrite Hget. by rewrite decide_True.
  - intros Hin. unfold SQLiteHabitRepository_add. by rewrite decide_True.
Qed.

(** C20: [update] of a stored habit writes only the columns its [UPDATE]
    names: [get] then returns the new name, description, category, goal
    and sub-habit ids with the type, creation time and parent of the
    stored habit.  The in-memory [update] stores the whole habit; the two
    agree exactly on the updates that keep those three fields, which are
    the only ones the service makes. *)
Theorem SQLiteHabitRepository_update_columns h0 h r :
  SQLiteHabitRepository_wf r -> repo_get (habit_id h) r = Some h0 ->
  ∃ r', SQLiteHabitRepository_update h r = (Ok tt, r') ∧ SQLiteHabitRepository_wf r' ∧
    SQLiteHabitRepository_get (habit_id h) r' =
      Ok (Some (mkHabit (habit_id h) (name h) (description h) (category h) (type h0)
                        (goal h) (created_at h0) (parent_id h0) (subhabit_ids h))).
Proof.
  intros Hwf Hget. pose proof (repo_get_id _ _ _ Hwf Hget) as Hid.
  set (h' := mkHabit (habit_id h) (name h) (description h) (category h) (type h0)
                     (goal h) (created_at h0) (parent_id h0) (subhabit_ids h)).
  destruct (SQLiteHabitRepository_update_present h0 h' r Hwf Hget) as (r' & Hu & Hwf' & Hg);
    [unfold same_row; by rewrite Hid|].
  exists r'. assert (Hupd : SQLiteHabitRepository_update h r = SQLiteHabitRepository_update h' r)
    by reflexivity.
  rewrite Hupd. split_and!; [done|done|].
  rewrite (proj1 (SQLiteHabitRepository_get_wf _ _ Hwf')). simpl in Hg |- *.
  change (habit_id h) with (habit_id h'). rewrite Hg. by rewrite decide_True.
Qed.

(** ** The SQLite and the in-memory habit stores side by side

    The two stores agree when the dict's entries and the table's rows
    are, in order, the same ids and the same habits.  Every read then
    gives the same answer, and every write the service makes keeps them
    in agreement. *)

Definition habit_stores_agree (m : InMemoryHabitRepository) (s : SQLiteHabitRepository) : Prop :=
  Forall2 (λ kv row, kv.1 = row_id row ∧ _habit_from_row row = Ok kv.2)
          (habit_storage m) (habits_table s).

(** One write of the habit store, by the protocol's methods. *)
Inductive habit_op : Type :=
| HAdd (h : Habit)
| HUpdate (h : Habit)
| HDelete (k : string).

Definition run_habit_op {R} `{!HabitRepository R} (op : habit_op) : PyM R unit :=
  match op with
  | HAdd h => repo_add h
  | HUpdate h => repo_update h
  | HDelete k => repo_delete k
  end.

(** The writes the service makes: [add] of a new id ([create_habit] and
    [add_subhabit] with fresh ids), [update] keeping the id, type,
    creation time and parent ([update_habit], [add_subhabit]), and
    [delete]. *)
Definition service_write {R} `{!HabitRepository R} (r : R) (op : habit_op) : Prop :=
  match op with
  | HAdd h => repo_get (habit_id h) r = None
  | HUpdate h => ∀ h0, repo_get (habit_id h) r = Some h0 -> same_row h0 h
  | HDelete _ => True
  end.

Lemma habit_stores_agree_ids m s :
  habit_stores_agree m s -> fst <$> habit_storage m = row_id <$> habits_table s.
Proof. induction 1 as [|[k v] row m' rows [Hk _] _ IH]; simpl in *; [done|]. rewrite Hk. f_equal. exact IH. Qed.

Lemma habit_stores_agree_wf m s :
  SQLiteHabitRepository_wf s -> habit_stores_agree m s -> InMemoryHabitRepository_wf m.
Proof.
  intros [Hnd _] Hag. split; [unfold dict_wf; by rewrite (habit_stores_agree_ids _ _ Hag)|].
  intros k h Hk. revert Hk. clear Hnd. unfold InMemoryHabitRepository_get.
  induction Hag as [|[k' v] row m' rows [Hk' Hrow] _ IH]; simpl in *; [done|].
  case_decide; [intros [= <-]; subst; by rewrite (_habit_from_row_id _ _ Hrow)|apply IH].
Qed.

Lemma habit_stores_agree_get m s k :
  habit_stores_agree m s -> repo_get k m = repo_get k s.
Proof.
  intros Hag. simpl. unfold InMemoryHabitRepository_get, SQLiteHabitRepository_get.
  induction Hag as [|[k' v] row m' rows [Hk' Hrow] _ IH]; simpl in *; [done|].
  subst k'. destruct (decide (k = row_id row)) as [->|Hne].
  - rewrite decide_True by done. by rewrite Hrow.
  - rewrite decide_False by congruence. apply IH.
Qed.

Lemma habit_stores_agree_list m s :
  habit_stores_agree m s -> repo_list m = repo_list s.
Proof.
  intros Hag. simpl. unfold InMemoryHabitRepository_list, SQLiteHabitRepository_list, dict_values.
  assert (habits_from_rows (habits_table s) = Ok (snd <$> habit_storage m)) as ->; [|done].
  apply habits_from_rows_Forall2. apply Forall2_fmap_r, Forall2_flip.
  eapply Forall2_impl; [exact Hag|]. intros [k v] row [_ ?]. done.
Qed.

Lemma update_rows_absent h (rows : list habit_row) :
  habit_id h ∉ row_id <$> rows ->
  (λ row, if decide (row_id row = habit_id h) then update_row h row else row) <$> rows = rows.
Proof.
  induction rows as [|row rows IH]; simpl; intros Hk; [done|].
  rewrite decide_False by set_solver. f_equal. apply IH. set_solver.
Qed.

Lemma habit_stores_agree_add m s h :
  habit_stores_agree m s -> habit_id h ∉ fst <$> habit_storage m ->
  habit_stores_agree {| habit_storage := dict_set (habit_id h) h (habit_storage m) |}
                     {| habits_table := habits_table s ++ [habit_to_row h] |}.
Proof.
  intros Hag Hk. unfold habit_stores_agree. simpl. rewrite dict_set_new by done.
  apply Forall2_app; [done|]. constructor; [|constructor].
  split; [done|apply _habit_from_row_habit_to_row].
Qed.

Lemma habit_stores_agree_update m s h :
  habit_stores_agree m s -> NoDup (fst <$> habit_storage m) ->
  habit_id h ∈ fst <$> habit_storage m ->
  (∀ h0, dict_get (habit_id h) (habit_storage m) = Some h0 -> same_row h0 h) ->
  habit_stores_agree {| habit_storage := dict_set (habit_id h) h (habit_storage m) |}
    {| habits_table := (λ row, if decide (row_id row = habit_id h) then update_row h row else row)
                         <$> habits_table s |}.
Proof.
  unfold habit_stores_agree. simpl. destruct m as [m], s as [rows]. simpl.
  induction 1 as [|[k v] row m rows [Hk Hrow] Htl IH]; simpl in *; intros Hnd Hin Hsame;
    [set_solver|].
  apply NoDup_cons in Hnd as [Hk' Hnd]. subst k.
  destruct (decide (habit_id h = row_id row)) as [Heq|Hne].
  - rewrite decide_True by done. constructor.
    + split; [done|]. apply (_habit_from_row_update v); [done|]. apply Hsame.
      done.
    + rewrite update_rows_absent; [done|]. rewrite Heq.
      pose proof (habit_stores_agree_ids {| habit_storage := m |} {| habits_table := rows |} Htl) as Hids.
      simpl in Hids. by rewrite <- Hids.
  - rewrite decide_False by congruence. constructor; [done|]. apply IH; [done|set_solver|].
    intros h0 Hh0. by apply Hsame.
Qed.

Lemma habit_stores_agree_delete m s k :
  habit_stores_agree m s -> NoDup (fst <$> habit_storage m) ->
  habit_stores_agree {| habit_storage := dict_pop k (habit_storage m) |}
                     {| habits_table := filter (λ row, row_id row ≠ k) (habits_table s) |}.
Proof.
  unfold habit_stores_agree. simpl. destruct m as [m], s as [rows]. simpl.
  induction 1 as [|[k' v] row m rows [Hk Hrow] Htl IH]; simpl in *; intros Hnd; [done|].
  apply NoDup_cons in Hnd as [Hk' Hnd]. subst k'. rewrite filter_cons.
  destruct (decide (k = row_id row)) as [->|Hne].
  - rewrite decide_False by naive_solver. rewrite list_filter_all; [done|].
    intros row' Hin Heq. apply Hk'.
    pose proof (habit_stores_agree_ids {| habit_storage := m |} {| habits_table := rows |} Htl) as Hids.
    simpl in Hids. assert (Hin' : row_id row ∈ row_id <$> rows)
      by (rewrite <- Heq; by apply list_elem_of_fmap_2).
    rewrite <- Hids in Hin'. exact Hin'.
  - rewrite decide_True by congruence. constructor; [done|]. by apply IH.
Qed.

Lemma habit_stores_step m s op :
  SQLiteHabitRepository_wf s -> habit_stores_agree m s -> service_write m op ->
  (run_habit_op op m).1 = (run_habit_op op s).1 ∧
  SQLiteHabitRepository_wf (run_habit_op op s).2 ∧
  habit_stores_agree (run_habit_op op m).2 (run_habit_op op s).2.
Proof.
  intros Hwf Hag Hop. pose proof (habit_stores_agree_ids _ _ Hag) as Hids.
  pose proof (habit_stores_agree_wf _ _ Hwf Hag) as [Hwfm _].
  destruct op as [h|h|k]; simpl in Hop |- *.
  - assert (Hfresh : habit_id h ∉ fst <$> habit_storage m) by (by apply dict_get_None).
    assert (Hfresh' : habit_id h ∉ row_id <$> habits_table s) by (by rewrite <- Hids).
    destruct (SQLiteHabitRepository_add_fresh h s Hwf Hfresh') as (s' & Hadd & Hwf' & _).
    rewrite Hadd. unfold SQLiteHabitRepository_add in Hadd. rewrite decide_False in Hadd by done.
    injection Hadd as <-. split_and!; [done|done|by apply habit_stores_agree_add].
  - unfold InMemoryHabitRepository_update, SQLiteHabitRepository_update.
    destruct (dict_get (habit_id h) (habit_storage m)) as [h0|] eqn:Hget.
    + assert (Hin : habit_id h ∈ fst <$> habit_storage m) by (by eapply dict_get_Some_key).
      rewrite decide_False by naive_solver.
      assert (Hs : repo_get (habit_id h) s = Some h0)
        by (rewrite <- (habit_stores_agree_get m s) by done; exact Hget).
      destruct (SQLiteHabitRepository_update_present h0 h s Hwf Hs (Hop h0 Hget))
        as (s' & Hu & Hwf' & _).
      unfold SQLiteHabitRepository_update in Hu. case_decide; [done|]. injection Hu as <-.
      split_and!; [done|done|]. apply habit_stores_agree_update; [done|done|done|].
      intros h1 Hh1. by apply Hop.
    + assert (Hnin : habit_id h ∉ fst <$> habit_storage m) by (by apply dict_get_None).
      rewrite decide_True by done. rewrite decide_True; [by split_and!|].
      rewrite length_zero_iff_nil. apply list_filter_none. intros row Hrow Heq.
      apply Hnin. rewrite Hids, <- Heq. by apply list_elem_of_fmap_2.
  - destruct (SQLiteHabitRepository_delete_spec k s Hwf) as (s' & Hd & Hwf' & _).
    unfold SQLiteHabitRepository_delete in Hd. injection Hd as <-. split_and!; [done|done|].
    by apply habit_stores_agree_delete.
Qed.

(** A sequence of writes the service may make, each allowed in the
    in-memory store it meets. *)
Fixpoint service_writes (m : InMemoryHabitRepository) (ops : list habit_op) : Prop :=
  match ops with
  | [] => True
  | op :: ops' => service_write m op ∧ service_writes (run_habit_op op m).2 ops'
  end.

Lemma habit_stores_run ops m s :
  SQLiteHabitRepository_wf s -> habit_stores_agree m s -> service_writes m ops ->
  (pfor ops run_habit_op m).1 = (pfor ops run_habit_op s).1 ∧
  SQLiteHabitRepository_wf (pfor ops run_habit_op s).2 ∧
  habit_stores_agree (pfor ops run_habit_op m).2 (pfor ops run_habit_op s).2.
Proof.
  revert m s. induction ops as [|op ops IH]; intros m s Hwf Hag Hops; simpl; [done|].
  destruct Hops as [Hop Hops]. unfold pbind.
  destruct (habit_stores_step m s op Hwf Hag Hop) as (Hres & Hwf' & Hag').
  destruct (run_habit_op op m) as [[[]|e] m'], (run_habit_op op s) as [rs s'];
    simpl in *; subst rs; [by apply IH|done].
Qed.

(** C21: the SQLite habit store and the in-memory one cannot be told
    apart by the service: from stores that agree, along any sequence of
    the writes the service makes (adds of new ids, updates keeping id,
    type, creation time and parent, deletes), both return the same
    result, the SQLite table stays well formed, and every [get] and
    [list] then answers the same. *)
Theorem habit_stores_simulation ops m s :
  SQLiteHabitRepository_wf s -> habit_stores_agree m s -> service_writes m ops ->
  (pfor ops run_habit_op m).1 = (pfor ops run_habit_op s).1 ∧
  SQLiteHabitRepository_wf (pfor ops run_habit_op s).2 ∧
  (∀ k, repo_get k (pfor ops run_habit_op m).2 = repo_get k (pfor ops run_habit_op s).2) ∧
  repo_list (pfor ops run_habit_op m).2 = repo_list (pfor ops run_habit_op s).2.
Proof.
  intros Hwf Hag Hops. destruct (habit_stores_run ops m s Hwf Hag Hops) as (Hres & Hwf' & Hag').
  split_and!; [done|done| |by apply habit_stores_agree_list].
  intros k. by apply habit_stores_agree_get.
Qed.

(** ** Witnesses *)

(** The table of scenario E: a parent ["p"] and its sub-habit ["c"]. *)
Definition sqlite_PC : SQLiteHabitRepository :=
  {| habits_table := [habit_to_row habit_P; habit_to_row habit_Cc] |}.
Definition memory_PC : InMemoryHabitRepository :=
  {| habit_storage := [("p", habit_P); ("c", habit_Cc)] |}.

Lemma sqlite_PC_wf : SQLiteHabitRepository_wf sqlite_PC.
Proof. apply (bool_decide_unpack _). vm_compute. reflexivity. Qed.

Lemma memory_sqlite_PC_agree : habit_stores_agree memory_PC sqlite_PC.
Proof. repeat constructor. Qed.

Lemma SQLiteHabitRepository_add_get_witness :
  (∃ r', SQLiteHabitRepository_add habit_N sqlite_PC = (Ok tt, r') ∧ SQLiteHabitRepository_wf r' ∧
     SQLiteHabitRepository_get "n" r' = Ok (Some habit_N)) ∧
  SQLiteHabitRepository_add habit_P sqlite_PC =
    (Raise (IntegrityError "UNIQUE constraint failed: habits.id"), sqlite_PC).
Proof.
  destruct (SQLiteHabitRepository_add_get habit_N sqlite_PC sqlite_PC_wf) as [Hn _].
  destruct (SQLiteHabitRepository_add_get habit_P sqlite_PC sqlite_PC_wf) as [_ Hp].
  split; [apply Hn|apply Hp]; vm_compute; [intros [?|?]%elem_of_cons; [discriminate|set_solver]|].
  left.
Defined.

Lemma SQLiteHabitRepository_update_columns_witness :
  ∃ r', SQLiteHabitRepository_update (set_parent_id (set_name habit_P "Run") "x") sqlite_PC =
          (Ok tt, r') ∧ SQLiteHabitRepository_wf r' ∧
    SQLiteHabitRepository_get "p" r' = Ok (Some (set_name habit_P "Run")).
Proof.
  exact (SQLiteHabitRepository_update_columns habit_P (set_parent_id (set_name habit_P "Run") "x")
           sqlite_PC sqlite_PC_wf eq_refl).
Defined.

(** Scenario E's writes: a new habit, a rename, the delete of the child. *)
Definition ops_E : list habit_op :=
  [HAdd habit_N; HUpdate (set_name habit_P "Run"); HDelete "c"].

Lemma habit_stores_simulation_witness :
  (pfor ops_E run_habit_op memory_PC).1 = (pfor ops_E run_habit_op sqlite_PC).1 ∧
  SQLiteHabitRepository_wf (pfor ops_E run_habit_op sqlite_PC).2 ∧
  (∀ k, repo_get k (pfor ops_E run_habit_op memory_PC).2 =
        repo_get k (pfor ops_E run_habit_op sqlite_PC).2) ∧
  repo_list (pfor ops_E run_habit_op memory_PC).2 = repo_list (pfor ops_E run_habit_op sqlite_PC).2.
Proof.
  apply (habit_stores_simulation ops_E memory_PC sqlite_PC sqlite_PC_wf memory_sqlite_PC_agree).
  vm_compute. split_and!; [reflexivity| |done|done].
  intros h0 [= <-]. unfold same_row. vm_compute. split_and!; reflexivity.
Defined.
