(* ===== verification/SQLiteLog.v ===== *)
(** * SQLiteLog: the log store of [app/db/sqlite.py]

    [SQLiteLogRepository] keeps the entries in the table [logs], one row
    per entry, in [rowid] order (the order of insertion, as for the habit
    table of [SQLite.v]).  A row holds the columns the code writes:
    [log.date.isoformat()] in the [date] column (the text of
    [IsoDate.date_isoformat]), and reads it back with [_log_from_row],
    which calls [date.fromisoformat] and so raises [ValueError] on a text
    that is no ISO date.  [created_at] is a timestamp, kept abstract as in
    [Models.v].

    [list_for_habit] builds its SQL from the optional bounds: the
    [WHERE] clause compares the [date] text with [start.isoformat()] and
    [end.isoformat()] under SQLite's [BINARY] collation, and [ORDER BY
    date] sorts by that text.  The order of rows of one date is the query
    plan's: the sort is the class [OrderByDate], whose laws say only that
    it returns a permutation sorted by the text; [order_by_date_rowid] and
    [order_by_date_reversed] are two such sorts, ties in [rowid] order and
    in reverse.

    [date.fromisoformat] accepts more than [isoformat()] writes (the
    basic format [20240115], an ISO week date), so a row written by
    another program may decode to a date whose text does not compare like
    it; the invariant [SQLiteLogRepository_wf] says that every row is the
    row [log_to_row] writes for the entry it decodes to ([canonical_row]),
    which [add] keeps.  Under it the file proves that
    [add] then [list_all] gives back the entries written, that the text
    query selects exactly the entries of the window and returns them
    sorted by date ([IsoDate.date_isoformat_compare] carries the
    comparisons from text to dates), hence that the store keeps the laws
    of [Repository.v]; and it compares the service over the two
    backends. *)

From S2P Require Import Prelude Models IsoDate Statistics Dict Repository Services SQLite.

(** ** Rows *)

(** A row of [logs]: [(id, habit_id, date, value, created_at)]. *)
Record log_row : Type := mkLogRow {
  lrow_id : string;
  lrow_habit_id : string;
  lrow_date : string;
  lrow_value : option Q;
  lrow_created_at : timestamp
}.

#[export] Instance Q_syntactic_eq_dec : EqDecision Q.
Proof. intros [n1 d1] [n2 d2]. solve_decision. Defined.

#[export] Instance log_row_eq_dec : EqDecision log_row.
Proof. solve_decision. Defined.

(** The parameters of [INSERT INTO logs]. *)
Definition log_to_row (log : LogEntry) : log_row :=
  {| lrow_id := log_id log; lrow_habit_id := log_habit_id log;
     lrow_date := date_isoformat (log_date log); lrow_value := log_value log;
     lrow_created_at := log_created_at log |}.

(** [_log_from_row]: [date.fromisoformat(row[2])] may raise [ValueError]. *)
Definition _log_from_row (row : log_row) : Result LogEntry :=
  let! d := date_fromisoformat (lrow_date row) in
  Ok {| log_id := lrow_id row; log_habit_id := lrow_habit_id row; log_date := d;
        log_value := lrow_value row; log_created_at := lrow_created_at row |}.

(** [[self._log_from_row(row) for row in cursor.fetchall()]] *)
Definition logs_from_rows (rows : list log_row) : Result (list LogEntry) :=
  res_map _log_from_row rows.

(** ** [SQLiteLogRepository] *)

Record SQLiteLogRepository : Type := mkSQLiteLogRepository {
  logs_table : list log_row
}.

(** [__init__(db_path)] runs [_init_db]: [CREATE TABLE IF NOT EXISTS
    logs] keeps the rows the file already holds; the two [CREATE INDEX IF
    NOT EXISTS] change no row. *)
Definition SQLiteLogRepository_init (existing : option (list log_row)) : SQLiteLogRepository :=
  {| logs_table := default [] existing |}.

(** [INSERT INTO logs ...]: a duplicate [id] violates the primary key. *)
Definition SQLiteLogRepository_add (log : LogEntry) : PyM SQLiteLogRepository unit :=
  fun r =>
    if decide (log_id log ∈ lrow_id <$> logs_table r)
    then (Raise (IntegrityError "UNIQUE constraint failed: logs.id"), r)
    else (Ok tt, {| logs_table := logs_table r ++ [log_to_row log] |}).

(** The [WHERE] clause [list_for_habit] builds: [habit_id = ?], then
    [AND date >= ?] when [start] is given and [AND date <= ?] when [end]
    is given, text against text. *)
Definition log_row_selected (habit_id : string) (start end_ : option date) (row : log_row) : Prop :=
  lrow_habit_id row = habit_id ∧
  match start with
  | Some st => String.compare (lrow_date row) (date_isoformat st) ≠ Lt
  | None => True
  end ∧
  match end_ with
  | Some en => String.compare (lrow_date row) (date_isoformat en) ≠ Gt
  | None => True
  end.

#[export] Instance log_row_selected_dec habit_id start end_ row :
  Decision (log_row_selected habit_id start end_ row).
Proof. unfold log_row_selected. destruct start, end_; apply _. Defined.

(** [ORDER BY date]: the [date] texts in order, [a] before [b] when
    [a.date <= b.date]. *)
Definition row_date_le (a b : log_row) : Prop := String.compare (lrow_date a) (lrow_date b) ≠ Gt.

#[export] Instance row_date_le_dec : RelDecision row_date_le.
Proof. intros a b. unfold row_date_le. apply _. Defined.

Class OrderByDate := order_by_date : list log_row -> list log_row.

Class OrderByDateLaws `{OrderByDate} := {
  order_by_date_perm rows : order_by_date rows ≡ₚ rows;
  order_by_date_sorted rows : Sorted row_date_le (order_by_date rows)
}.

(** [list_for_habit]: the selected rows, sorted, decoded. *)
Definition SQLiteLogRepository_list_for_habit `{OrderByDate} (habit_id : string)
    (start end_ : option date) (r : SQLiteLogRepository) : Result (list LogEntry) :=
  logs_from_rows (order_by_date (filter (log_row_selected habit_id start end_) (logs_table r))).

(** [SELECT * FROM logs] *)
Definition SQLiteLogRepository_list_all (r : SQLiteLogRepository) : Result (list LogEntry) :=
  logs_from_rows (logs_table r).

(** The protocol's reads are total: as for the habit store, the model
    reads the [ValueError] of an unreadable row as an empty list, which
    the invariant below rules out. *)
#[export] Instance SQLiteLogRepository_repo `{OrderByDate} : LogRepository SQLiteLogRepository := {
  log_repo_add := SQLiteLogRepository_add;
  list_for_habit k start end_ r := res_default [] (SQLiteLogRepository_list_for_habit k start end_ r);
  list_all r := res_default [] (SQLiteLogRepository_list_all r)
}.

(** ** The invariant: every row is a row [add] writes *)

(** A row decodes to an entry whose row it is: its [date] text is the
    [isoformat()] of the date.  [date.fromisoformat] also decodes other
    texts ([YYYYMMDD], ISO weeks, trailing bytes), which [add] never
    writes and which the text comparisons of the query do not order as
    dates. *)
Definition canonical_row (row : log_row) : bool :=
  match _log_from_row row with
  | Ok log => bool_decide (log_to_row log = row)
  | Raise _ => false
  end.

Definition SQLiteLogRepository_wf (r : SQLiteLogRepository) : Prop :=
  Forall (λ row, canonical_row row = true) (logs_table r).

#[export] Instance SQLiteLogRepository_wf_dec r : Decision (SQLiteLogRepository_wf r).
Proof. unfold SQLiteLogRepository_wf. apply _. Defined.

Abbreviation valid_log log := (valid_date (log_date log) = true) (only parsing).

Lemma _log_from_row_log_to_row log : valid_log log -> _log_from_row (log_to_row log) = Ok log.
Proof.
  intros Hd. unfold _log_from_row. simpl. rewrite date_fromisoformat_isoformat by done.
  by destruct log.
Qed.

(** A canonical row is the row of a valid entry, which it decodes to. *)
Lemma canonical_row_spec row :
  canonical_row row = true <-> ∃ log, valid_log log ∧ log_to_row log = row.
Proof.
  unfold canonical_row. split.
  - destruct (_log_from_row row) as [log|] eqn:Hr; [|done]. intros Hb%bool_decide_eq_true.
    exists log. split; [|done]. unfold _log_from_row in Hr.
    destruct (date_fromisoformat (lrow_date row)) as [d|] eqn:Hd; [|done]. injection Hr as <-.
    by eapply date_fromisoformat_valid.
  - intros (log & Hd & <-). rewrite _log_from_row_log_to_row by done. by apply bool_decide_eq_true.
Qed.

Lemma logs_from_rows_log_to_row logs :
  Forall (λ log, valid_log log) logs -> logs_from_rows (log_to_row <$> logs) = Ok logs.
Proof.
  intros Hv. apply res_map_Forall2, Forall2_fmap_l, Forall_Forall2_diag.
  eapply Forall_impl; [exact Hv|]. intros log. apply _log_from_row_log_to_row.
Qed.

(** A readable table is the table of valid entries, which [list_all]
    returns. *)
Lemma SQLiteLogRepository_wf_rows r :
  SQLiteLogRepository_wf r <->
  ∃ logs, Forall (λ log, valid_log log) logs ∧ logs_table r = log_to_row <$> logs.
Proof.
  unfold SQLiteLogRepository_wf. split.
  - intros Hall. induction Hall as [|row rows Hrow _ (logs & Hv & Heq)]; [by exists []|].
    apply canonical_row_spec in Hrow as (log & Hlog & <-).
    exists (log :: logs). split; [by constructor|]. simpl. by rewrite Heq.
  - intros (logs & Hv & ->). apply Forall_fmap. eapply Forall_impl; [exact Hv|].
    intros log Hlog. apply canonical_row_spec. by exists log.
Qed.

(** ** The text query selects the window, in date order *)

(** [date >= start.isoformat()] and [date <= end.isoformat()] on the text
    of a valid date are the comparisons of the dates. *)
Lemma log_row_selected_iff k start end_ log :
  opt_valid_date start = true -> opt_valid_date end_ = true -> valid_log log ->
  log_row_selected k start end_ (log_to_row log) <->
  log_habit_id log = k ∧ in_window start end_ (log_date log).
Proof.
  intros Hst Hen Hd. unfold log_row_selected, in_window. simpl.
  destruct start as [st|], end_ as [en|]; simpl in Hst, Hen;
    rewrite ?date_isoformat_compare, ?Z.compare_ge_iff, ?Z.compare_le_iff by done; naive_solver.
Qed.

Lemma row_date_le_iff a b :
  valid_log a -> valid_log b -> row_date_le (log_to_row a) (log_to_row b) <-> (log_date a ≤ log_date b)%Z.
Proof. intros Ha Hb. unfold row_date_le. simpl. by rewrite date_isoformat_compare, Z.compare_le_iff. Qed.

Section Query.
Context `{OrderByDateLaws}.

(** The query on a table of valid entries: the entries of the habit
    inside the window, sorted by date. *)
Lemma SQLiteLogRepository_query k start end_ logs :
  Forall (λ log, valid_log log) logs -> opt_valid_date start = true -> opt_valid_date end_ = true ->
  ∃ res, logs_from_rows (order_by_date (filter (log_row_selected k start end_) (log_to_row <$> logs)))
           = Ok res ∧
    res ≡ₚ logs_of k start end_ logs ∧ Sorted (λ a b, log_date a ≤ log_date b)%Z res.
Proof.
  intros Hv Hst Hen. rewrite <- fmap_filter_image.
  rewrite (list_filter_iff_Forall _ _ (λ log, log_habit_id log = k ∧ in_window start end_ (log_date log))
             logs Hv) by (intros; by apply log_row_selected_iff).
  fold (logs_of k start end_ logs).
  destruct (Permutation_fmap_inv log_to_row (logs_of k start end_ logs)
              (order_by_date (log_to_row <$> logs_of k start end_ logs)) (order_by_date_perm _))
    as (res & Hres & Hp).
  assert (Hvres : Forall (λ log, valid_log log) res).
  { rewrite Hp. apply Forall_forall. intros x (_ & Hx)%list_elem_of_filter.
    by eapply Forall_forall in Hv. }
  exists res. rewrite Hres, logs_from_rows_log_to_row by done. split_and!; [done|done|].
  apply (Sorted_fmap_inv log_to_row (λ log, valid_log log) _ row_date_le res Hvres).
  - intros a b Ha Hb. by apply row_date_le_iff.
  - rewrite <- Hres. apply order_by_date_sorted.
Qed.
End Query.

(** ** [add] and [list_all] *)

(** [list_all] succeeds exactly on a readable table, and returns the
    entries whose rows the table holds. *)
Lemma SQLiteLogRepository_list_all_Ok r logs :
  SQLiteLogRepository_wf r -> SQLiteLogRepository_list_all r = Ok logs ->
  Forall (λ log, valid_log log) logs ∧ logs_table r = log_to_row <$> logs.
Proof.
  intros (logs' & Hv & Heq)%SQLiteLogRepository_wf_rows.
  unfold SQLiteLogRepository_list_all. rewrite Heq, logs_from_rows_log_to_row by done.
  by intros [= <-].
Qed.

Lemma SQLiteLogRepository_list_all_wf r :
  SQLiteLogRepository_wf r -> ∃ logs, SQLiteLogRepository_list_all r = Ok logs.
Proof.
  intros (logs & Hv & Heq)%SQLiteLogRepository_wf_rows. exists logs.
  unfold SQLiteLogRepository_list_all. rewrite Heq. by apply logs_from_rows_log_to_row.
Qed.

Lemma lrow_id_log_to_row (logs : list LogEntry) : lrow_id <$> (log_to_row <$> logs) = log_id <$> logs.
Proof. by rewrite <- list_fmap_compose. Qed.

(** [add] of a new id with a valid date on a table [list_all] reads. *)
Lemma SQLiteLogRepository_add_fresh log r logs :
  SQLiteLogRepository_wf r -> SQLiteLogRepository_list_all r = Ok logs ->
  valid_log log -> log_id log ∉ log_id <$> logs ->
  ∃ r', SQLiteLogRepository_add log r = (Ok tt, r') ∧ SQLiteLogRepository_wf r' ∧
    SQLiteLogRepository_list_all r' = Ok (logs ++ [log]).
Proof.
  intros Hwf Hall Hd Hfresh. destruct (SQLiteLogRepository_list_all_Ok r logs Hwf Hall) as [Hv Heq].
  unfold SQLiteLogRepository_add. rewrite Heq, lrow_id_log_to_row, decide_False by done.
  eexists. split; [done|].
  assert (Hv' : Forall (λ log, valid_log log) (logs ++ [log])) by (apply Forall_app; auto).
  assert (Hrows : logs_table {| logs_table := (log_to_row <$> logs) ++ [log_to_row log] |} =
                  log_to_row <$> logs ++ [log]) by (simpl; by rewrite fmap_app).
  split.
  - apply SQLiteLogRepository_wf_rows. by exists (logs ++ [log]).
  - unfold SQLiteLogRepository_list_all. rewrite Hrows. by apply logs_from_rows_log_to_row.
Qed.

#[export] Instance SQLiteLogRepository_laws `{OrderByDateLaws} : LogRepositoryLaws SQLiteLogRepository.
Proof.
  refine {| log_repo_wf := SQLiteLogRepository_wf |}; simpl.
  - intros log r Hwf Hd Hfresh. destruct (SQLiteLogRepository_list_all_wf r Hwf) as [logs Hall].
    rewrite Hall in Hfresh |- *. simpl in Hfresh.
    destruct (SQLiteLogRepository_add_fresh log r logs Hwf Hall Hd Hfresh) as (r' & Hadd & Hwf' & Hall').
    exists r'. by rewrite Hall'.
  - intros k start end_ r Hwf Hst Hen.
    destruct (SQLiteLogRepository_list_all_wf r Hwf) as [logs Hall]. rewrite Hall.
    pose proof (SQLiteLogRepository_list_all_Ok r logs Hwf Hall) as [Hv Heq].
    unfold SQLiteLogRepository_list_for_habit. rewrite Heq.
    destruct (SQLiteLogRepository_query k start end_ logs Hv Hst Hen) as (res & -> & Hp & _).
    done.
  - intros k start end_ r Hwf Hst Hen.
    destruct (SQLiteLogRepository_list_all_wf r Hwf) as [logs Hall].
    pose proof (SQLiteLogRepository_list_all_Ok r logs Hwf Hall) as [Hv Heq].
    unfold SQLiteLogRepository_list_for_habit. rewrite Heq.
    destruct (SQLiteLogRepository_query k start end_ logs Hv Hst Hen) as (res & -> & _ & Hs).
    done.
Defined.

(** ** Two orders [ORDER BY date] may give *)

#[export] Instance row_date_le_total : Total row_date_le.
Proof.
  intros a b. unfold row_date_le. rewrite (String.compare_antisym (lrow_date b)).
  destruct (String.compare (lrow_date a) (lrow_date b)); simpl; naive_solver.
Qed.

(** A stable sort by date: each row goes after the rows of its date
    already placed ([list_merge] takes from its left list on ties). *)
Definition sort_by_date (rows : list log_row) : list log_row :=
  fold_left (λ acc row, list_merge row_date_le acc [row]) rows [].

(** Rows of one date in [rowid] order. *)
Definition order_by_date_rowid : OrderByDate := sort_by_date.

(** Rows of one date in reverse [rowid] order. *)
Definition order_by_date_reversed : OrderByDate := λ rows, sort_by_date (reverse rows).

Lemma sort_by_date_aux rows acc :
  Sorted row_date_le acc ->
  Sorted row_date_le (fold_left (λ acc row, list_merge row_date_le acc [row]) rows acc) ∧
  fold_left (λ acc row, list_merge row_date_le acc [row]) rows acc ≡ₚ acc ++ rows.
Proof.
  revert acc. induction rows as [|row rows IH]; intros acc Hs; simpl; [by rewrite app_nil_r|].
  destruct (IH (list_merge row_date_le acc [row])) as [IHs IHp];
    [apply Sorted_list_merge; [apply _|done|repeat constructor]|].
  split; [done|]. by rewrite IHp, merge_Permutation, <- (assoc_L (++)).
Qed.

Lemma sort_by_date_laws rows :
  Sorted row_date_le (sort_by_date rows) ∧ sort_by_date rows ≡ₚ rows.
Proof. apply (sort_by_date_aux rows []). constructor. Qed.

#[export] Instance order_by_date_rowid_laws : @OrderByDateLaws order_by_date_rowid.
Proof. split; intros rows; apply sort_by_date_laws. Qed.

#[export] Instance order_by_date_reversed_laws : @OrderByDateLaws order_by_date_reversed.
Proof.
  split; intros rows; [|apply sort_by_date_laws].
  etrans; [apply sort_by_date_laws|apply reverse_Permutation].
Qed.

(** ** The in-memory and the SQLite log stores *)

(** The SQLite table holds the rows of the in-memory list, in its order. *)
Definition log_stores_agree (lm : InMemoryLogRepository) (ls : SQLiteLogRepository) : Prop :=
  Forall (λ log, valid_log log) (log_storage lm) ∧ logs_table ls = log_to_row <$> log_storage lm.

Lemma log_stores_agree_list_all lm ls :
  log_stores_agree lm ls -> SQLiteLogRepository_list_all ls = Ok (log_storage lm).
Proof. intros [Hv Heq]. unfold SQLiteLogRepository_list_all. rewrite Heq. by apply logs_from_rows_log_to_row. Qed.

Lemma log_stores_agree_wf lm ls : log_stores_agree lm ls -> SQLiteLogRepository_wf ls.
Proof. intros [Hv Heq]. apply SQLiteLogRepository_wf_rows. by exists (log_storage lm). Qed.

Lemma log_stores_agree_add lm ls log :
  log_stores_agree lm ls -> valid_log log -> log_id log ∉ log_id <$> log_storage lm ->
  SQLiteLogRepository_add log ls = (Ok tt, {| logs_table := logs_table ls ++ [log_to_row log] |}) ∧
  log_stores_agree (InMemoryLogRepository_add log lm).2 {| logs_table := logs_table ls ++ [log_to_row log] |}.
Proof.
  intros [Hv Heq] Hd Hfresh. unfold SQLiteLogRepository_add.
  rewrite Heq, lrow_id_log_to_row, decide_False by done.
  split; [done|]. split; simpl; [apply Forall_app; auto|by rewrite fmap_app].
Qed.

Lemma Sorted_log_dates (l : list LogEntry) :
  Sorted (λ a b, log_date a ≤ log_date b)%Z l -> Sorted Z.le (log_date <$> l).
Proof. apply Sorted_fmap. done. Qed.

Section Backends.
Context `{OrderByDateLaws}.

(** The two log stores over the same entries list the same entries of a
    habit, with the same sequence of dates; only entries of one date may
    come in another order. *)
Lemma list_for_habit_backends k start end_ (lm : InMemoryLogRepository) (ls : SQLiteLogRepository) :
  log_stores_agree lm ls -> opt_valid_date start = true -> opt_valid_date end_ = true ->
  list_for_habit k start end_ ls ≡ₚ list_for_habit k start end_ lm ∧
  log_date <$> list_for_habit k start end_ ls = log_date <$> list_for_habit k start end_ lm.
Proof.
  intros Hag Hst Hen. pose proof (log_stores_agree_wf _ _ Hag) as Hwf.
  assert (Hp : list_for_habit k start end_ ls ≡ₚ list_for_habit k start end_ lm).
  { rewrite !list_for_habit_perm by done. simpl.
    by rewrite (log_stores_agree_list_all lm ls Hag). }
  split; [done|]. apply (Sorted_unique Z.le).
  - by apply Sorted_log_dates, list_for_habit_sorted.
  - by apply Sorted_log_dates, (list_for_habit_sorted (L:=InMemoryLogRepository)).
  - by rewrite Hp.
Qed.
End Backends.

(** A row another program may write: [date.fromisoformat] reads the
    basic format [20240115] as 2024-01-15, but the text sorts after
    ["2024-01-20"] (['0'] after ['-']). *)
Definition row_basic : log_row := mkLogRow "b" "a" "20240115" (Some 1%Q) 0.
Definition log_basic : LogEntry := mkLogEntry "b" "a" (_ymd2ord 2024 1 15) (Some 1%Q) 0.

(** ** Theorems *)

(** C26: the SQL of [list_for_habit] is the window of the entries: on a
    table of rows [add] writes ([SQLiteLogRepository_wf]) and for valid
    bounds, the query that compares
    the ISO texts returns the habit's entries inside the window, sorted
    by date, whatever order [ORDER BY date] gives entries of one date. *)
Theorem SQLiteLogRepository_list_for_habit_spec `{OrderByDateLaws} k start end_ r logs :
  SQLiteLogRepository_wf r -> SQLiteLogRepository_list_all r = Ok logs ->
  opt_valid_date start = true -> opt_valid_date end_ = true ->
  ∃ res, SQLiteLogRepository_list_for_habit k start end_ r = Ok res ∧
    res ≡ₚ logs_of k start end_ logs ∧ Sorted (λ a b, log_date a ≤ log_date b)%Z res.
Proof.
  intros Hwf Hall Hst Hen. destruct (SQLiteLogRepository_list_all_Ok r logs Hwf Hall) as [Hv Heq].
  unfold SQLiteLogRepository_list_for_habit. rewrite Heq. by apply SQLiteLogRepository_query.
Qed.

(** C27: [add] then [list_all]: on a table of rows [add] writes, [add] of an
    entry with a new id and a valid date keeps the table readable and
    [list_all] returns the entries with the new one last; an id already
    stored raises [IntegrityError] and leaves the table as it was. *)
Theorem SQLiteLogRepository_add_list_all log r logs :
  SQLiteLogRepository_wf r -> SQLiteLogRepository_list_all r = Ok logs ->
  (valid_log log -> log_id log ∉ log_id <$> logs ->
     ∃ r', SQLiteLogRepository_add log r = (Ok tt, r') ∧ SQLiteLogRepository_wf r' ∧
       SQLiteLogRepository_list_all r' = Ok (logs ++ [log])) ∧
  (log_id log ∈ log_id <$> logs ->
     SQLiteLogRepository_add log r = (Raise (IntegrityError "UNIQUE constraint failed: logs.id"), r)).
Proof.
  intros Hwf Hall. split; [by apply SQLiteLogRepository_add_fresh|].
  intros Hin. destruct (SQLiteLogRepository_list_all_Ok r logs Hwf Hall) as [_ Heq].
  unfold SQLiteLogRepository_add. by rewrite decide_True by (by rewrite Heq, lrow_id_log_to_row).
Qed.

(** C29: the SQLite log store simulates the in-memory one along the
    writes [record_log] makes: from stores that agree, a sequence of
    entries with valid dates and ids new and distinct is appended by both
    without error, and the stores still agree (so [list_all] reads the
    same list, [log_stores_agree_list_all]). *)
Theorem log_stores_simulation logs lm ls :
  log_stores_agree lm ls -> Forall (λ log, valid_log log) logs ->
  NoDup (log_id <$> log_storage lm ++ logs) ->
  (pfor logs InMemoryLogRepository_add lm).1 = Ok tt ∧
  (pfor logs SQLiteLogRepository_add ls).1 = Ok tt ∧
  log_stores_agree (pfor logs InMemoryLogRepository_add lm).2 (pfor logs SQLiteLogRepository_add ls).2.
Proof.
  revert lm ls. induction logs as [|log logs IH]; intros lm ls Hag Hv Hnd; [done|].
  apply Forall_cons in Hv as [Hd Hv]. rewrite fmap_app, fmap_cons in Hnd.
  assert (Hfresh : log_id log ∉ log_id <$> log_storage lm).
  { intros Hin. apply NoDup_app in Hnd as (_ & Hdis & _). by apply (Hdis (log_id log)); [|left]. }
  destruct (log_stores_agree_add lm ls log Hag Hd Hfresh) as [Hadd Hag'].
  cbn [pfor]. unfold pbind. rewrite Hadd. simpl. apply IH; [done|done|].
  simpl. rewrite <- app_assoc, !fmap_app. exact Hnd.
Qed.


Section BackendsService.
Context `{OrderByDateLaws}.

(** C22: the service reads alike over both backends.  With habit stores
    that agree, log stores that agree and valid bounds, [get_habit] and
    [list_habits] return the same, [get_logs] raises the same error or
    returns the same entries with the same sequence of dates (entries of
    one date may come in another order, as [ORDER BY date] leaves it to
    SQLite), and [get_statistics] raises the same error or returns the
    same id and the same streaks, counts, rate and day count, with an
    average that is the float mean of the same values summed in the order
    each store returned them ([stats_reordered]). *)
Theorem service_backends_agree today k start end_
    (sm : HabitService InMemoryHabitRepository InMemoryLogRepository)
    (ss : HabitService SQLiteHabitRepository SQLiteLogRepository) :
  habit_stores_agree (habit_repo sm) (habit_repo ss) ->
  log_stores_agree (log_repo sm) (log_repo ss) ->
  opt_valid_date start = true -> opt_valid_date end_ = true ->
  (get_habit k sm).1 = (get_habit k ss).1 ∧
  (list_habits sm).1 = (list_habits ss).1 ∧
  (∀ e, (get_logs k start end_ sm).1 = Raise e <-> (get_logs k start end_ ss).1 = Raise e) ∧
  (∀ l1 l2, (get_logs k start end_ sm).1 = Ok l1 -> (get_logs k start end_ ss).1 = Ok l2 ->
     l2 ≡ₚ l1 ∧ log_date <$> l2 = log_date <$> l1) ∧
  res_rel (λ p1 p2, p1.1 = p2.1 ∧ stats_reordered p1.2 p2.2)
    (get_statistics _calculators today k start end_ sm).1
    (get_statistics _calculators today k start end_ ss).1.
Proof.
  intros Hag Hlogs Hst Hen.
  destruct (list_for_habit_backends k start end_ (log_repo sm) (log_repo ss) Hlogs Hst Hen) as [Hp Hd].
  unfold get_habit, list_habits, get_logs, get_statistics, read_habit, read_logs, pbind, plift, pret.
  pose proof (habit_stores_agree_get _ _ k Hag) as Hg. pose proof (habit_stores_agree_list _ _ Hag) as Hl.
  simpl in *. rewrite Hg, Hl.
  destruct (res_default None (SQLiteHabitRepository_get k (habit_repo ss))) as [h|]; simpl;
    [|split_and!; naive_solver].
  split_and!; [done|done|naive_solver|intros ?? [= <-] [= <-]; done|].
  destruct (get_calculator _calculators (type h)) as [c|e] eqn:Hc; simpl; [|done].
  pose proof (calculate_perm _ c today h _ _ start end_ Hc (symmetry Hp)) as Hr.
  destruct (calculate c today h _ _ _), (calculate c today h _ _ _); simpl in *; done.
Qed.
End BackendsService.

(** Two entries of one habit on one date: the in-memory store lists them
    in the order they were recorded, SQLite may list them the other way
    round. *)
Definition log_e1 : LogEntry := mkLogEntry "e1" "a" 738000 (Some 1%Q) 0.
Definition log_e2 : LogEntry := mkLogEntry "e2" "a" 738000 (Some 2%Q) 1.

Lemma list_for_habit_tie_order :
  InMemoryLogRepository_list_for_habit "a" None None {| log_storage := [log_e1; log_e2] |} =
    [log_e1; log_e2] ∧
  @SQLiteLogRepository_list_for_habit order_by_date_reversed "a" None None
    {| logs_table := log_to_row <$> [log_e1; log_e2] |} = Ok [log_e2; log_e1].
Proof. split; vm_compute; reflexivity. Qed.

(** ** Witnesses *)

Lemma logs_A_agree : log_stores_agree {| log_storage := logs_A |} {| logs_table := log_to_row <$> logs_A |}.
Proof. split; [|done]. apply Forall_forall. intros log Hin. vm_compute in Hin. set_solver. Qed.

Lemma logs_A_list_all : SQLiteLogRepository_list_all {| logs_table := log_to_row <$> logs_A |} = Ok logs_A.
Proof. exact (log_stores_agree_list_all _ _ logs_A_agree). Qed.

Lemma logs_A_wf : SQLiteLogRepository_wf {| logs_table := log_to_row <$> logs_A |}.
Proof. exact (log_stores_agree_wf _ _ logs_A_agree). Qed.

Section Witnesses.
#[local] Existing Instance order_by_date_reversed.

Lemma SQLiteLogRepository_list_for_habit_spec_witness :
  ∃ res, SQLiteLogRepository_list_for_habit "a" (Some 737997%Z) (Some 737999%Z)
           {| logs_table := log_to_row <$> logs_A |} = Ok res ∧
    res ≡ₚ logs_of "a" (Some 737997%Z) (Some 737999%Z) logs_A ∧
    Sorted (λ a b, log_date a ≤ log_date b)%Z res.
Proof.
  exact (SQLiteLogRepository_list_for_habit_spec "a" (Some 737997%Z) (Some 737999%Z) _ logs_A
           logs_A_wf logs_A_list_all eq_refl eq_refl).
Defined.

(** A new entry, and one that reuses the id ["a1"]. *)
Definition log_a6 : LogEntry := LogEntry_create "a6" 0 "a" 737995 None.
Definition log_a1_again : LogEntry := LogEntry_create "a1" 0 "a" 737995 None.


Lemma SQLiteLogRepository_add_list_all_witness :
  (∃ r', SQLiteLogRepository_add log_a6 {| logs_table := log_to_row <$> logs_A |} = (Ok tt, r') ∧
     SQLiteLogRepository_wf r' ∧ SQLiteLogRepository_list_all r' = Ok (logs_A ++ [log_a6])) ∧
  SQLiteLogRepository_add log_a1_again {| logs_table := log_to_row <$> logs_A |} =
    (Raise (IntegrityError "UNIQUE constraint failed: logs.id"), {| logs_table := log_to_row <$> logs_A |}).
Proof.
  split.
  - apply (SQLiteLogRepository_add_list_all log_a6 _ logs_A logs_A_wf logs_A_list_all); [reflexivity|].
    apply (bool_decide_unpack _). vm_compute. reflexivity.
  - apply (SQLiteLogRepository_add_list_all log_a1_again _ logs_A logs_A_wf logs_A_list_all).
    apply (bool_decide_unpack _). vm_compute. reflexivity.
Defined.

Lemma log_stores_simulation_witness :
  let new := [LogEntry_create "a6" 0 "a" 737995 None; LogEntry_create "a7" 0 "a" 738001 (Some 1%Q)] in
  (pfor new InMemoryLogRepository_add {| log_storage := logs_A |}).1 = Ok tt ∧
  (pfor new SQLiteLogRepository_add {| logs_table := log_to_row <$> logs_A |}).1 = Ok tt ∧
  log_stores_agree (pfor new InMemoryLogRepository_add {| log_storage := logs_A |}).2
    (pfor new SQLiteLogRepository_add {| logs_table := log_to_row <$> logs_A |}).2.
Proof.
  apply log_stores_simulation; [exact logs_A_agree|repeat constructor|].
  apply (bool_decide_unpack _). vm_compute. reflexivity.
Defined.

Lemma service_backends_agree_witness :
  let sm := mkHabitService {| habit_storage := [("a", habit_A)] |} {| log_storage := logs_A |} in
  let ss := mkHabitService {| habits_table := [habit_to_row habit_A] |}
                           {| logs_table := log_to_row <$> logs_A |} in
  (get_habit "a" sm).1 = (get_habit "a" ss).1 ∧
  (list_habits sm).1 = (list_habits ss).1 ∧
  (∀ e, (get_logs "a" None (Some 737999%Z) sm).1 = Raise e <->
        (get_logs "a" None (Some 737999%Z) ss).1 = Raise e) ∧
  (∀ l1 l2, (get_logs "a" None (Some 737999%Z) sm).1 = Ok l1 ->
     (get_logs "a" None (Some 737999%Z) ss).1 = Ok l2 ->
     l2 ≡ₚ l1 ∧ log_date <$> l2 = log_date <$> l1) ∧
  res_rel (λ p1 p2, p1.1 = p2.1 ∧ stats_reordered p1.2 p2.2)
    (get_statistics _calculators 738000 "a" None (Some 737999%Z) sm).1
    (get_statistics _calculators 738000 "a" None (Some 737999%Z) ss).1.
Proof. apply service_backends_agree; [repeat constructor|exact logs_A_agree|done|done]. Defined.
End Witnesses.

