(* ===== verification/Api.v ===== *)
(** * Api: the HTTP layer of [app/api/controllers.py] and [app/api/schemas.py]

    [create_router] registers nine handlers on the service.  Each builds
    the objects the service needs (a new habit takes [str(uuid.uuid4())]
    as its id and [datetime.now()] as its creation time, both inputs
    here), calls one method of [HabitService], and converts the result
    with a response schema ([HabitRead( **habit.__dict__)] keeps the
    fields the schema names).  Five handlers catch [ValueError] and raise
    [HTTPException(404, str(e))]; [get_habit] raises the 404 itself.
    FastAPI answers a request body that fails its schema with 422 before
    the handler runs, and an exception no handler catches with 500.

    - [HabitCreate], [LogCreate] and their validity ([Field] constraints)
      model the request schemas; [HabitRead], [LogRead], [HabitStats] the
      response schemas.
    - [Response] is what the client receives: a body with its status code,
      or an error status with its detail.
    - Module [Controllers] holds the handlers, with the source's names, as
      [PyM] actions on the service; [catch_value_error] is their
      [try/except ValueError].
    - [handle] dispatches a [Request] as the router does, with the schema
      check before and the 500 after.

    The theorems give the status of every response: which requests
    answer 404, and that a 500 comes only from [RecursionError] in
    [DELETE] or [OverflowError] in [GET /stats]. *)

From S2P Require Import Prelude Models Statistics Dict Repository Services.

(** ** Request schemas *)

(** [class HabitCreate(BaseModel)] *)
Record HabitCreate : Type := mkHabitCreate {
  create_name : string;
  create_description : option string;
  create_category : option string;
  create_type : HabitType;
  create_goal : option Q;
  create_parent_id : option string
}.

(** [class LogCreate(BaseModel)] *)
Record LogCreate : Type := mkLogCreate {
  create_date : date;
  create_value : option Q
}.

(** [Field(max_length=n)] on an optional string. *)
Definition max_length_ok (n : nat) (v : option string) : Prop :=
  match v with Some s => String.length s ≤ n | None => True end.

(** [Field(gt=0)] on an optional float. *)
Definition positive_ok (v : option Q) : Prop :=
  match v with Some g => (0 < g)%Q | None => True end.

#[export] Instance max_length_ok_dec n v : Decision (max_length_ok n v).
Proof. unfold max_length_ok. destruct v; apply _. Defined.
#[export] Instance positive_ok_dec v : Decision (positive_ok v).
Proof. unfold positive_ok. destruct v; apply _. Defined.

(** [name: str = Field(..., min_length=1, max_length=200)],
    [description: max_length=1000], [category: max_length=100],
    [goal: gt=0].  Lengths are counted in characters by pydantic and in
    bytes by [String.length]: the two agree on ASCII text. *)
Definition HabitCreate_valid (p : HabitCreate) : Prop :=
  1 ≤ String.length (create_name p) ≤ 200 ∧
  max_length_ok 1000 (create_description p) ∧
  max_length_ok 100 (create_category p) ∧
  positive_ok (create_goal p).

(** [HabitUpdate]: the same constraints on the fields that are given. *)
Definition HabitUpdate_valid (u : HabitUpdate) : Prop :=
  match upd_name u with Some n => 1 ≤ String.length n ≤ 200 | None => True end ∧
  max_length_ok 1000 (upd_description u) ∧
  max_length_ok 100 (upd_category u) ∧
  positive_ok (upd_goal u).

#[export] Instance HabitCreate_valid_dec p : Decision (HabitCreate_valid p).
Proof. unfold HabitCreate_valid. apply _. Defined.
#[export] Instance HabitUpdate_valid_dec u : Decision (HabitUpdate_valid u).
Proof. unfold HabitUpdate_valid. destruct (upd_name u); apply _. Defined.

(** ** Response schemas *)

Record HabitRead : Type := mkHabitRead {
  read_id : string;
  read_name : string;
  read_description : option string;
  read_category : option string;
  read_type : HabitType;
  read_goal : option Q;
  read_parent_id : option string
}.

(** [schemas.HabitRead( **habit.__dict__)]: the fields [created_at] and
    [subhabit_ids] are not in the schema and are dropped. *)
Definition HabitRead_of (h : Habit) : HabitRead :=
  mkHabitRead (habit_id h) (name h) (description h) (category h) (type h) (goal h) (parent_id h).

Record LogRead : Type := mkLogRead {
  logread_id : string;
  logread_habit_id : string;
  logread_date : date;
  logread_value : option Q
}.

Definition LogRead_of (log : LogEntry) : LogRead :=
  mkLogRead (log_id log) (log_habit_id log) (log_date log) (log_value log).

Record HabitStats : Type := mkHabitStats {
  stats_habit_id : string;
  stats_current_streak : nat;
  stats_longest_streak : nat;
  stats_total_completions : nat;
  stats_completion_rate : Q;
  stats_average_value : option Q;
  stats_total_days_tracked : nat
}.

(** [schemas.HabitStats( **stats)] of the dict [get_statistics] returns. *)
Definition HabitStats_of (stats : string * StatisticsResult) : HabitStats :=
  let '(k, r) := stats in
  mkHabitStats k (current_streak r) (longest_streak r) (total_completions r)
               (completion_rate r) (average_value r) (total_days_tracked r).

(** ** Responses *)

Inductive Response (A : Type) : Type :=
| Success (status_code : nat) (body : A)
| HTTPException (status_code : nat) (detail : string).
Arguments Success {A} status_code body.
Arguments HTTPException {A} status_code detail.

Definition status_code_of {A} (r : Response A) : nat :=
  match r with Success c _ => c | HTTPException c _ => c end.

Definition map_response {A B} (f : A -> B) (r : Response A) : Response B :=
  match r with
  | Success c a => Success c (f a)
  | HTTPException c d => HTTPException c d
  end.

(** ** The handlers of [create_router] *)

Module Controllers.
Section Routes.
Context {R L : Type} `{!HabitRepository R, !LogRepository L}.
Local Notation Svc := (HabitService R L).

(** [try: ... except ValueError as e: raise HTTPException(status_code=404,
    detail=str(e))]: other exceptions pass through. *)
Definition catch_value_error {A B} (status_code : nat) (f : A -> B) (c : PyM Svc A)
    : PyM Svc (Response B) :=
  fun s =>
    match c s with
    | (Ok a, s') => (Ok (Success status_code (f a)), s')
    | (Raise (ValueError msg), s') => (Ok (HTTPException 404 msg), s')
    | (Raise e, s') => (Raise e, s')
    end.

(** [Habit(id=str(uuid.uuid4()), name=payload.name, ..., parent_id=...)],
    with the default [created_at] and [subhabit_ids=[]]. *)
Definition new_habit (fresh_id : string) (now : timestamp) (payload : HabitCreate)
    (parent_id : option string) : Habit :=
  mkHabit fresh_id (create_name payload) (create_description payload) (create_category payload)
          (create_type payload) (create_goal payload) now parent_id [].

(** [POST /habits], status 201. *)
Definition create_habit (fresh_id : string) (now : timestamp) (payload : HabitCreate)
    : PyM Svc (Response HabitRead) :=
  let habit := new_habit fresh_id now payload (create_parent_id payload) in
  Services.create_habit habit ;;;
  pret (Success 201 (HabitRead_of habit)).

(** [GET /habits] *)
Definition list_habits : PyM Svc (Response (list HabitRead)) :=
  habits <- Services.list_habits ;;
  pret (Success 200 (HabitRead_of <$> habits)).

(** [GET /habits/{habit_id}] *)
Definition get_habit (habit_id : string) : PyM Svc (Response HabitRead) :=
  habit <- Services.get_habit habit_id ;;
  match habit with
  | None => pret (HTTPException 404 "Habit not found")
  | Some habit => pret (Success 200 (HabitRead_of habit))
  end.

(** [PUT /habits/{habit_id}] *)
Definition update_habit (habit_id : string) (payload : HabitUpdate)
    : PyM Svc (Response HabitRead) :=
  catch_value_error 200 HabitRead_of (Services.update_habit habit_id payload).

(** [DELETE /habits/{habit_id}], status 204 with no body; the service's
    recursion runs within the interpreter's [recursion_limit]. *)
Definition delete_habit (recursion_limit : nat) (habit_id : string) : PyM Svc (Response unit) :=
  catch_value_error 204 (λ _, tt) (Services.delete_habit recursion_limit habit_id).

(** [POST /habits/{habit_id}/subhabits], status 201: the new habit takes
    the path's id as its parent; the handler returns it after the service
    has set its [parent_id]. *)
Definition add_subhabit (habit_id fresh_id : string) (now : timestamp) (payload : HabitCreate)
    : PyM Svc (Response HabitRead) :=
  let sub := new_habit fresh_id now payload (Some habit_id) in
  catch_value_error 201 HabitRead_of (Services.add_subhabit habit_id sub).

(** [POST /habits/{habit_id}/logs], status 201; [LogEntry.create] draws
    the entry's id and time. *)
Definition record_log (habit_id fresh_id : string) (now : timestamp) (payload : LogCreate)
    : PyM Svc (Response LogRead) :=
  catch_value_error 201 LogRead_of
    (Services.record_log fresh_id now habit_id (create_date payload) (create_value payload)).

(** [GET /habits/{habit_id}/logs?start&end] *)
Definition get_logs (habit_id : string) (start end_ : option date)
    : PyM Svc (Response (list LogRead)) :=
  catch_value_error 200 (fmap LogRead_of) (Services.get_logs habit_id start end_).

(** [GET /habits/{habit_id}/stats?start&end]; the service reads the
    class-level registry and [date.today()]. *)
Definition get_stats (calculators : Registry) (today : date) (habit_id : string)
    (start end_ : option date) : PyM Svc (Response HabitStats) :=
  catch_value_error 200 HabitStats_of (Services.get_statistics calculators today habit_id start end_).
End Routes.
End Controllers.

(** ** Requests *)

(** What a response carries, one constructor per response model. *)
Inductive Body : Type :=
| BHabit (h : HabitRead)
| BHabits (hs : list HabitRead)
| BEmpty
| BLog (l : LogRead)
| BLogs (ls : list LogRead)
| BStats (s : HabitStats).

(** A request as the router matches it, with the values the handler
    draws ([uuid4()], [now()]) as inputs. *)
Inductive Request : Type :=
| PostHabit (payload : HabitCreate) (fresh_id : string) (now : timestamp)
| GetHabits
| GetHabit (habit_id : string)
| PutHabit (habit_id : string) (payload : HabitUpdate)
| DeleteHabit (habit_id : string)
| PostSubhabit (habit_id : string) (payload : HabitCreate) (fresh_id : string) (now : timestamp)
| PostLog (habit_id : string) (payload : LogCreate) (fresh_id : string) (now : timestamp)
| GetLogs (habit_id : string) (start end_ : option date)
| GetStats (habit_id : string) (start end_ : option date).

(** The request's body and query parameters parse into their schemas: a
    date parses only inside [date.min .. date.max] ([opt_valid_date]). *)
Definition request_valid (req : Request) : Prop :=
  match req with
  | PostHabit p _ _ | PostSubhabit _ p _ _ => HabitCreate_valid p
  | PutHabit _ u => HabitUpdate_valid u
  | PostLog _ p _ _ => valid_date (create_date p) = true
  | GetLogs _ start end_ | GetStats _ start end_ =>
      opt_valid_date start = true ∧ opt_valid_date end_ = true
  | GetHabits | GetHabit _ | DeleteHabit _ => True
  end.

#[export] Instance request_valid_dec req : Decision (request_valid req).
Proof. destruct req; simpl; apply _. Defined.

Section Dispatch.
Context {R L : Type} `{!HabitRepository R, !LogRepository L}.
Local Notation Svc := (HabitService R L).

Definition route (calculators : Registry) (recursion_limit : nat) (today : date) (req : Request)
    : PyM Svc (Response Body) :=
  match req with
  | PostHabit p fresh_id now =>
      r <- Controllers.create_habit fresh_id now p ;; pret (map_response BHabit r)
  | GetHabits => r <- Controllers.list_habits ;; pret (map_response BHabits r)
  | GetHabit k => r <- Controllers.get_habit k ;; pret (map_response BHabit r)
  | PutHabit k u => r <- Controllers.update_habit k u ;; pret (map_response BHabit r)
  | DeleteHabit k =>
      r <- Controllers.delete_habit recursion_limit k ;; pret (map_response (λ _, BEmpty) r)
  | PostSubhabit k p fresh_id now =>
      r <- Controllers.add_subhabit k fresh_id now p ;; pret (map_response BHabit r)
  | PostLog k p fresh_id now =>
      r <- Controllers.record_log k fresh_id now p ;; pret (map_response BLog r)
  | GetLogs k start end_ => r <- Controllers.get_logs k start end_ ;; pret (map_response BLogs r)
  | GetStats k start end_ =>
      r <- Controllers.get_stats calculators today k start end_ ;; pret (map_response BStats r)
  end.

(** FastAPI: 422 for a request that does not parse, the handler's
    response otherwise, and 500 for an exception the handler lets
    through (the writes it made before raising stay). *)
Definition handle (calculators : Registry) (recursion_limit : nat) (today : date)
    (req : Request) (s : Svc) : Response Body * Svc :=
  if decide (request_valid req) then
    match route calculators recursion_limit today req s with
    | (Ok r, s') => (r, s')
    | (Raise _, s') => (HTTPException 500 "Internal Server Error", s')
    end
  else (HTTPException 422 "Unprocessable Entity", s).
End Dispatch.

(** ** The status of every response *)

Section Status.
Context {R L : Type} `{!HabitRepository R, !HabitRepositoryLaws R}
        `{!LogRepository L, !LogRepositoryLaws L}.
Local Notation Svc := (HabitService R L).
Implicit Types (s : Svc).

Ltac api_unfold :=
  unfold handle, route, Controllers.create_habit, Controllers.list_habits, Controllers.get_habit,
    Controllers.update_habit, Controllers.delete_habit, Controllers.add_subhabit,
    Controllers.record_log, Controllers.get_logs, Controllers.get_stats,
    Controllers.catch_value_error, Services.create_habit, Services.list_habits,
    Services.get_habit, Services.update_habit, Services.add_subhabit, Services.record_log,
    Services.get_logs, Services.get_statistics, read_habit, read_logs, on_habits, on_logs,
    pbind, pret, praise, plift; simpl.

(** The ids a [POST] draws are new: [uuid4()] does not repeat. *)
Definition request_fresh s (req : Request) : Prop :=
  match req with
  | PostHabit _ fresh_id _ | PostSubhabit _ _ fresh_id _ => repo_get fresh_id (habit_repo s) = None
  | PostLog _ _ fresh_id _ => fresh_id ∉ log_id <$> list_all (log_repo s)
  | _ => True
  end.

Definition stored s (k : string) : bool := bool_decide (is_Some (repo_get k (habit_repo s))).

(** The status each route answers with. *)
Definition status_ok s (req : Request) (code : nat) : Prop :=
  match req with
  | PostHabit _ _ _ => code = 201
  | GetHabits => code = 200
  | GetHabit k | PutHabit k _ | GetLogs k _ _ => code = if stored s k then 200 else 404
  | PostSubhabit k _ _ _ | PostLog k _ _ _ => code = if stored s k then 201 else 404
  | DeleteHabit k => if stored s k then code = 204 ∨ code = 404 ∨ code = 500 else code = 404
  | GetStats k _ _ => if stored s k then code = 200 ∨ code = 500 else code = 404
  end.

Lemma stored_Some s k h : repo_get k (habit_repo s) = Some h -> stored s k = true.
Proof. intros Hk. unfold stored. rewrite Hk. by apply bool_decide_true. Qed.

Lemma stored_None s k : repo_get k (habit_repo s) = None -> stored s k = false.
Proof. intros Hk. unfold stored. rewrite Hk. apply bool_decide_false. by intros [? ?]. Qed.

Lemma repo_add_Ok h r :
  repo_wf r -> repo_get (habit_id h) r = None ->
  ∃ r', repo_add h r = (Ok tt, r') ∧ repo_wf r' ∧ repo_get (habit_id h) r' = Some h.
Proof.
  intros Hwf Hn. destruct (repo_add_fresh h r Hwf Hn) as (r' & Ha & Hwf' & Hg).
  exists r'. split_and!; [done|done|]. rewrite Hg. by rewrite decide_True.
Qed.

Lemma update_habit_Ok s k upd h :
  repo_wf (habit_repo s) -> repo_get k (habit_repo s) = Some h ->
  ∃ s', Services.update_habit k upd s = (Ok (apply_update upd h), s').
Proof.
  intros Hwf Hk. pose proof (repo_get_id _ _ _ Hwf Hk) as Hid.
  destruct (repo_update_present h (apply_update upd h) (habit_repo s)) as (r' & Hu & _);
    [done| |apply apply_update_same_row|].
  { destruct (apply_update_fields upd h) as (-> & _). by rewrite Hid. }
  eexists. api_unfold. rewrite Hk. simpl. by rewrite Hu.
Qed.

Lemma add_subhabit_Ok s k p sub :
  repo_wf (habit_repo s) -> repo_get k (habit_repo s) = Some p ->
  repo_get (habit_id sub) (habit_repo s) = None ->
  ∃ s', Services.add_subhabit k sub s = (Ok (set_parent_id sub k), s').
Proof.
  intros Hwf Hk Hsub. pose proof (repo_get_id _ _ _ Hwf Hk) as Hid.
  destruct (repo_add_fresh (set_parent_id sub k) (habit_repo s)) as (r1 & Ha & Hwf1 & Hg1);
    [done|done|].
  assert (Hne : k ≠ habit_id sub) by (intros ->; congruence).
  destruct (repo_update_present p (set_subhabit_ids p (subhabit_ids p ++ [habit_id sub])) r1)
    as (r2 & Hu & _); [done| |by unfold same_row|].
  { simpl. rewrite Hg1. simpl. rewrite decide_False by (rewrite Hid; done). by rewrite Hid. }
  eexists. api_unfold. rewrite Hk. simpl. rewrite Ha. simpl. by rewrite Hu.
Qed.
Lemma record_log_Ok s k h fresh_id now d v :
  log_repo_wf (log_repo s) -> valid_date d = true ->
  repo_get k (habit_repo s) = Some h -> fresh_id ∉ log_id <$> list_all (log_repo s) ->
  ∃ s', Services.record_log fresh_id now k d v s = (Ok (LogEntry_create fresh_id now k d v), s').
Proof.
  intros Hwf Hd Hk Hfresh.
  destruct (log_repo_add_spec (LogEntry_create fresh_id now k d v) (log_repo s) Hwf Hd Hfresh)
    as (l' & Hadd & _).
  eexists. api_unfold. rewrite Hk. simpl. by rewrite Hadd.
Qed.

(** [get_statistics] with the default registry on a stored habit returns
    its statistics or raises [OverflowError]. *)
Lemma get_statistics_outcome today k h start end_ s :
  valid_date today = true -> repo_get k (habit_repo s) = Some h ->
  (∃ r, (Services.get_statistics _calculators today k start end_ s) = (Ok (k, r), s)) ∨
  Services.get_statistics _calculators today k start end_ s =
    (Raise (OverflowError "date value out of range"), s).
Proof.
  intros Hv Hk. api_unfold. rewrite Hk. simpl.
  destruct (get_calculator _calculators (type h)) as [c|e] eqn:Hc;
    [|by rewrite get_calculator_default in Hc]. simpl.
  destruct (calculate c today h _ start end_) as [r|e] eqn:Hr; simpl; [left; by exists r|right].
  by rewrite (default_calculate_raise_overflow _ _ _ _ _ _ _ _ Hv Hc Hr).
Qed.
Ltac route_unfold :=
  unfold route, Controllers.create_habit, Controllers.list_habits, Controllers.get_habit,
    Controllers.update_habit, Controllers.delete_habit, Controllers.add_subhabit,
    Controllers.record_log, Controllers.get_logs, Controllers.get_stats,
    Controllers.catch_value_error, pbind, pret; simpl.

(** A service method on a missing habit raises before any write. *)
Ltac missing_habit Hk :=
  unfold Services.update_habit, Services.add_subhabit, Services.record_log, Services.get_logs,
    Services.get_statistics, read_habit, pbind, praise; simpl; rewrite Hk; simpl.

(** C23: the status of every response.  On a well-formed store, for a
    request that parses and whose drawn ids are new: [POST /habits]
    answers 201 and [GET /habits] 200; a route naming a habit answers 404
    exactly when the habit is missing, and otherwise 200 (reads, [PUT])
    or 201 ([POST] of a sub-habit or a log entry); [DELETE] answers 404
    on a missing habit; a 500 comes only from [RecursionError] in
    [DELETE] or from [OverflowError] in [GET /stats]. *)
Theorem handle_status today rl req s :
  valid_date today = true -> 0 < rl -> repo_wf (habit_repo s) -> log_repo_wf (log_repo s) ->
  request_valid req -> request_fresh s req ->
  status_ok s req (status_code_of (handle _calculators rl today req s).1) ∧
  (status_code_of (handle _calculators rl today req s).1 = 500 ->
     (∃ k, req = DeleteHabit k ∧ (Services.delete_habit rl k s).1 = Raise RecursionError) ∨
     (∃ k st en, req = GetStats k st en ∧
        (Services.get_statistics _calculators today k st en s).1 =
          Raise (OverflowError "date value out of range"))).
Proof.
  intros Hv Hrl Hwf Hlwf Hreq Hfresh. unfold handle. rewrite decide_True by done.
  destruct req as [p fid now| |k|k u|k|k p fid now|k p fid now|k st en|k st en];
    simpl in Hfresh |- *; route_unfold;
    try (destruct (repo_get k (habit_repo s)) as [h|] eqn:Hk;
         [rewrite (stored_Some _ _ _ Hk)|rewrite (stored_None _ _ Hk)]);
    try (split; [done|discriminate]).
  - destruct (repo_add_Ok (Controllers.new_habit fid now p (create_parent_id p)) (habit_repo s)
      Hwf Hfresh) as (r' & Ha & _).
    unfold Services.create_habit, on_habits. rewrite Ha. simpl. split; [done|discriminate].
  - destruct (update_habit_Ok s k u h Hwf Hk) as (s' & ->). simpl. split; [done|discriminate].
  - missing_habit Hk. split; [done|discriminate].
  - assert (Htriv : PreOrder (λ _ _ : R, True)) by (split; done).
    destruct (delete_habit_outcome (λ _ _, True) (λ _ _ _, I) rl k s Hwf) as [Hout _].
    destruct (delete_habit rl k s) as [res s'] eqn:Hd. simpl in Hout |- *.
    destruct Hout as [->|[->| ->]]; simpl; split; auto; try discriminate.
    intros _. left. exists k. by rewrite Hd.
  - destruct rl as [|n]; [lia|]. simpl. unfold pbind, read_habit. rewrite Hk. simpl.
    split; [done|discriminate].
  - destruct (add_subhabit_Ok s k h (Controllers.new_habit fid now p (Some k)) Hwf Hk Hfresh)
      as (s' & ->). simpl. split; [done|discriminate].
  - missing_habit Hk. split; [done|discriminate].
  - destruct (record_log_Ok s k h fid now (create_date p) (create_value p) Hlwf Hreq Hk Hfresh)
      as (s' & ->).
    simpl. split; [done|discriminate].
  - missing_habit Hk. split; [done|discriminate].
  - unfold Services.get_logs, read_habit, read_logs, pbind. rewrite Hk. simpl.
    split; [done|discriminate].
  - missing_habit Hk. split; [done|discriminate].
  - destruct (get_statistics_outcome today k h st en s Hv Hk) as [(r & Hs)|Hs]; rewrite Hs; simpl.
    + split; [by left|discriminate].
    + split; [by right|]. intros _. right. exists k, st, en. by rewrite Hs.
  - missing_habit Hk. split; [done|discriminate].
Qed.
End Status.

(** ** The state after a request *)

Section State.
Context {R L : Type} `{!HabitRepository R, !LogRepository L}.
Local Notation Svc := (HabitService R L).

(** Only [POST], [PUT] and [DELETE] write, and what they write is what
    the service method they call writes; reads and rejected requests
    leave the stores as they were. *)
Definition request_effect (rl : nat) (req : Request) (s : Svc) : Svc :=
  match req with
  | PostHabit p fid now => (Services.create_habit (Controllers.new_habit fid now p (create_parent_id p)) s).2
  | PutHabit k u => (Services.update_habit k u s).2
  | DeleteHabit k => (Services.delete_habit rl k s).2
  | PostSubhabit k p fid now => (Services.add_subhabit k (Controllers.new_habit fid now p (Some k)) s).2
  | PostLog k p fid now => (Services.record_log fid now k (create_date p) (create_value p) s).2
  | GetHabits | GetHabit _ | GetLogs _ _ _ | GetStats _ _ _ => s
  end.

Lemma catch_value_error_state {A B} code (f : A -> B) (c : PyM Svc A) s :
  (Controllers.catch_value_error code f c s).2 = (c s).2.
Proof. unfold Controllers.catch_value_error. by destruct (c s) as [[a|[]] s']. Qed.

Lemma bind_map_response_state {A B} (f : A -> B) (c : PyM Svc (Response A)) s :
  ((r <- c ;; pret (map_response f r)) s).2 = (c s).2.
Proof. unfold pbind, pret. by destruct (c s) as [[]]. Qed.

Lemma handle_state cal rl today req s :
  (handle cal rl today req s).2 = if decide (request_valid req) then request_effect rl req s else s.
Proof.
  unfold handle. case_decide; [|done].
  transitivity ((route cal rl today req s).2); [by destruct (route cal rl today req s) as [[]]|].
  destruct req; unfold route; rewrite bind_map_response_state; unfold request_effect;
    unfold Controllers.update_habit, Controllers.delete_habit, Controllers.add_subhabit,
      Controllers.record_log, Controllers.get_logs, Controllers.get_stats;
    rewrite ?catch_value_error_state; try done.
  - unfold Controllers.create_habit, pbind, pret. by destruct (Services.create_habit _ s) as [[]].
  - unfold Controllers.get_habit, Services.get_habit, read_habit, pbind, pret.
    by destruct (repo_get habit_id (habit_repo s)).
  - unfold Services.get_logs, read_habit, read_logs, pbind, praise.
    by destruct (repo_get habit_id (habit_repo s)).
  - unfold Services.get_statistics, read_habit, read_logs, pbind, praise, plift, pret.
    destruct (repo_get habit_id (habit_repo s)) as [h|]; [simpl|done].
    destruct (get_calculator cal (type h)); [simpl|done].
    by destruct (calculate _ _ _ _ _ _).
Qed.
End State.

(** ** Witness *)

Lemma handle_status_witness :
  status_ok svc_A (GetStats "a" None None)
    (status_code_of (handle _calculators 1000 738000 (GetStats "a" None None) svc_A).1) ∧
  (status_code_of (handle _calculators 1000 738000 (GetStats "a" None None) svc_A).1 = 500 ->
     (∃ k, GetStats "a" None None = DeleteHabit k ∧
           (Services.delete_habit 1000 k svc_A).1 = Raise RecursionError) ∨
     (∃ k st en, GetStats "a" None None = GetStats k st en ∧
        (Services.get_statistics _calculators 738000 k st en svc_A).1 =
          Raise (OverflowError "date value out of range"))).
Proof.
  apply handle_status; [reflexivity|lia| |exact I|by split|done].
  apply InMemoryHabitRepository_wfb_wf. reflexivity.
Defined.
