(* ===== verification/Lifecycle.v ===== *)
(** * Lifecycle: the states the HTTP API reaches, on the in-memory stores

    [app/main.py] serves the controllers of [Api.v] over the in-memory
    stores.  Every habit the API creates takes a new [uuid4()] id, and
    [add_subhabit] links a parent to a habit created after it.  So in
    every state the API reaches from the empty stores, each id in a
    habit's [subhabit_ids] is either gone or names a habit stored after
    it in the dict (whose order is the order of creation), and the chain
    of sub-habits below a habit is no longer than the habits stored
    after it.

    This answers the specification's open question on cycles (section
    9): through the HTTP API no cycle forms, and [DELETE] never runs into
    the recursion limit when the limit exceeds the number of habits;
    through [HabitService.add_subhabit] called with an existing id, one
    does ([Services.delete_habit_self_cycle]).

    - [links_forward] is the invariant and [api_reachable] the states
      reachable by requests with new ids;
    - [rank] is the number of habits stored after an id, the measure of
      the recursion of [delete_habit]. *)

From S2P Require Import Prelude Models Statistics Dict Repository Services Api.

(** ** Links point forward *)

(** Walking the dict in order with the ids already [seen], no habit lists
    itself or an id seen before it. *)
Fixpoint links_forward (seen : list string) (d : list (string * Habit)) : Prop :=
  match d with
  | [] => True
  | (k, h) :: d' => (∀ c, c ∈ subhabit_ids h -> c ∉ k :: seen) ∧ links_forward (k :: seen) d'
  end.

Lemma links_forward_sublist seen seen' d d' :
  links_forward seen d -> d' `sublist_of` d -> seen' ⊆ seen -> links_forward seen' d'.
Proof.
  intros Hl Hsub. revert seen seen' Hl.
  induction Hsub as [|[k h] d1 d2 _ IH|[k h] d1 d2 _ IH]; intros seen seen' Hl Hseen; simpl in *.
  - done.
  - destruct Hl as [Hh Hl]. split; [|apply (IH (k :: seen)); [done|set_solver]].
    intros c Hc. specialize (Hh c Hc). set_solver.
  - destruct Hl as [_ Hl]. apply (IH (k :: seen)); [done|set_solver].
Qed.

(** A new habit without sub-habits goes last. *)
Lemma links_forward_app_leaf seen d k h :
  links_forward seen d -> subhabit_ids h = [] -> links_forward seen (d ++ [(k, h)]).
Proof.
  revert seen. induction d as [|[k0 h0] d IH]; intros seen Hl Hh; simpl in *.
  - split; [|done]. rewrite Hh. set_solver.
  - destruct Hl as [? ?]. split; [done|]. by apply IH.
Qed.

(** Replacing a habit by one with the same links. *)
Lemma links_forward_set_same seen d p h' :
  links_forward seen d ->
  (∀ h0, dict_get p d = Some h0 -> subhabit_ids h' = subhabit_ids h0) ->
  p ∈ fst <$> d -> links_forward seen (dict_set p h' d).
Proof.
  revert seen. induction d as [|[k0 h0] d IH]; intros seen Hl Hsame Hp; simpl in Hl, Hp |- *;
    [set_solver|].
  destruct Hl as [Hh Hl]. case_decide as Hk; simpl.
  - subst. rewrite (Hsame h0); [by split|]. simpl. by rewrite decide_True.
  - split; [done|]. apply IH; [done| |set_solver].
    intros h1 Hh1. apply Hsame. simpl. by rewrite decide_False.
Qed.

(** [add_subhabit]: the new habit [fid] goes last, and its parent [p]
    lists it at the end of its links. *)
Lemma links_forward_add_sub seen d p hp fid sub :
  links_forward seen d -> dict_get p d = Some hp ->
  fid ∉ fst <$> d -> fid ∉ seen -> subhabit_ids sub = [] ->
  links_forward seen
    (dict_set p (set_subhabit_ids hp (subhabit_ids hp ++ [fid])) (d ++ [(fid, sub)])).
Proof.
  revert seen. induction d as [|[k0 h0] d IH]; intros seen Hl Hp Hfid Hseen Hsub;
    simpl in Hl, Hp, Hfid |- *; [done|].
  destruct Hl as [Hh Hl]. case_decide as Hk; simpl.
  - subst. injection Hp as ->. split; [|by apply links_forward_app_leaf].
    intros c [Hc| ->%list_elem_of_singleton]%elem_of_app; [by apply Hh|set_solver].
  - split; [done|]. apply IH; [done|done|set_solver|set_solver|done].
Qed.

(** [d.pop(k)] keeps the other entries in order. *)
Lemma dict_pop_sublist {V} (k : string) (d : list (string * V)) : dict_pop k d `sublist_of` d.
Proof.
  induction d as [|[k0 v0] d IH]; simpl; [done|].
  case_decide; [by apply sublist_cons|by apply sublist_skip].
Qed.

(** ** The measure of [delete_habit]: the habits stored after an id *)

Fixpoint rank (d : list (string * Habit)) (k : string) : nat :=
  match d with
  | [] => 0
  | (k0, _) :: d' => if decide (k = k0) then length d' else rank d' k
  end.

Lemma rank_lt_length d k : k ∈ fst <$> d -> rank d k < length d.
Proof.
  induction d as [|[k0 h0] d IH]; simpl; [set_solver|].
  case_decide; [lia|]. intros Hk. assert (k ∈ fst <$> d) by set_solver. specialize (IH H0). lia.
Qed.

Lemma sublist_fmap' {A B} (f : A -> B) (l1 l2 : list A) :
  l1 `sublist_of` l2 -> f <$> l1 `sublist_of` f <$> l2.
Proof. induction 1; simpl; by constructor. Qed.

(** No habit lists an id seen before the walk reached it. *)
Lemma links_forward_not_seen seen d p hp c :
  links_forward seen d -> dict_get p d = Some hp -> c ∈ subhabit_ids hp -> c ∉ seen.
Proof.
  revert seen. induction d as [|[k0 h0] d IH]; intros seen Hl Hp Hc; simpl in Hl, Hp; [done|].
  destruct Hl as [Hh Hl]. case_decide; [injection Hp as <-; specialize (Hh c Hc); set_solver|].
  specialize (IH _ Hl Hp Hc). set_solver.
Qed.

(** A link goes to a habit of lower rank. *)
Lemma rank_link seen d p hp c :
  links_forward seen d -> NoDup (fst <$> d) -> dict_get p d = Some hp ->
  c ∈ subhabit_ids hp -> c ∈ fst <$> d -> rank d c < rank d p.
Proof.
  revert seen. induction d as [|[k0 h0] d IH]; intros seen Hl Hnd Hp Hc Hin;
    simpl in Hl, Hnd, Hin |- *; cbn [dict_get] in Hp; [set_solver|].
  apply NoDup_cons in Hnd as [Hk0 Hnd]. destruct Hl as [Hh Hl].
  destruct (decide (p = k0)) as [->|Hpk].
  - injection Hp as <-. specialize (Hh c Hc).
    rewrite decide_False by set_solver.
    apply rank_lt_length. set_solver.
  - pose proof (links_forward_not_seen _ _ _ _ c Hl Hp Hc) as Hnot.
    rewrite !decide_False by set_solver. apply (IH (k0 :: seen)); [done|done|done|done|set_solver].
Qed.

(** Deleting entries does not raise the rank of those left. *)
Lemma rank_sublist d' d k :
  d' `sublist_of` d -> NoDup (fst <$> d) -> k ∈ fst <$> d' -> rank d' k ≤ rank d k.
Proof.
  induction 1 as [|[k0 h0] d1 d2 Hsub IH|[k0 h0] d1 d2 Hsub IH]; simpl; intros Hnd Hk; [set_solver|..].
  - apply NoDup_cons in Hnd as [_ Hnd]. case_decide; [by apply sublist_length|].
    apply IH; [done|set_solver].
  - apply NoDup_cons in Hnd as [Hk0 Hnd]. rewrite decide_False; [by apply IH|].
    intros ->. apply Hk0. by apply (sublist_subseteq _ _ (sublist_fmap' fst _ _ Hsub)).
Qed.

(** ** [delete_habit] within the recursion limit *)

Definition links_ok (s : InMemoryService) : Prop :=
  InMemoryHabitRepository_wf (habit_repo s) ∧ links_forward [] (habit_storage (habit_repo s)).

(** The habit store loses entries and keeps the order of the others. *)
Definition shrinks (r r' : InMemoryHabitRepository) : Prop :=
  habit_storage r' `sublist_of` habit_storage r.

#[export] Instance shrinks_preorder : PreOrder shrinks.
Proof. unfold shrinks. split; [intros ?; done|intros ??? ??; by etrans]. Qed.

Lemma shrinks_delete k r : repo_wf r -> shrinks r (repo_delete k r).2.
Proof. intros _. apply dict_pop_sublist. Qed.

Lemma links_ok_shrinks s s' :
  links_ok s -> repo_wf (habit_repo s') -> shrinks (habit_repo s) (habit_repo s') -> links_ok s'.
Proof.
  intros [_ Hl] Hwf' Hsh. split; [done|]. eapply links_forward_sublist; [done|done|done].
Qed.

(** The fuel [delete_habit] needs for [k]: one call per habit below it,
    and one more for an id that is gone. *)
Definition delete_bound (d : list (string * Habit)) (k : string) : nat :=
  if decide (k ∈ fst <$> d) then rank d k + 2 else 1.

Lemma delete_habit_no_recursion_error n k s :
  links_ok s -> delete_bound (habit_storage (habit_repo s)) k ≤ n ->
  (delete_habit n k s).1 ≠ Raise RecursionError.
Proof.
  revert k s. induction n as [|n IH]; intros k s Hok Hb.
  { unfold delete_bound in Hb. case_decide; lia. }
  simpl. unfold pbind, read_habit, praise. simpl. unfold InMemoryHabitRepository_get.
  destruct (dict_get k (habit_storage (habit_repo s))) as [hk|] eqn:Hk; simpl; [|done].
  destruct Hok as [[Hnd Hid] Hl]. unfold dict_wf in Hnd.
  assert (Hkin : k ∈ fst <$> habit_storage (habit_repo s)) by (by eapply dict_get_Some_key).
  unfold delete_bound in Hb. rewrite decide_True in Hb by done.
  assert (Hfor : ∀ cs s', (∀ c, c ∈ cs -> c ∈ subhabit_ids hk) -> links_ok s' ->
            shrinks (habit_repo s) (habit_repo s') ->
            (pfor cs (delete_habit n) s').1 ≠ Raise RecursionError ∧
            ∀ s'', pfor cs (delete_habit n) s' = (Ok tt, s'') ->
                   links_ok s'' ∧ shrinks (habit_repo s) (habit_repo s'')).
  { induction cs as [|c cs IHcs]; intros s' Hcs Hok' Hsh; simpl; [split; [done|by intros ? [= <-]]|].
    unfold pbind.
    assert (Hbc : delete_bound (habit_storage (habit_repo s')) c ≤ n).
    { unfold delete_bound. case_decide as Hc'; [|lia].
      assert (Hc : c ∈ fst <$> habit_storage (habit_repo s))
        by (by apply (sublist_subseteq _ _ (sublist_fmap' fst _ _ Hsh))).
      pose proof (rank_sublist _ _ c Hsh Hnd Hc') as H1.
      pose proof (rank_link [] _ k hk c Hl Hnd Hk (Hcs c ltac:(set_solver)) Hc) as H2. lia. }
    pose proof (IH c s' Hok' Hbc) as Hno.
    destruct (delete_habit_outcome shrinks shrinks_delete n c s' (proj1 Hok')) as [_ (_ & Hwf1 & Hsh1)].
    destruct (delete_habit n c s') as [[[]|e] s1] eqn:Hd; simpl in *.
    - apply IHcs; [intros c' ?; apply Hcs; set_solver| |by etrans].
      by eapply links_ok_shrinks.
    - split; [done|discriminate]. }
  destruct (Hfor (subhabit_ids hk) s) as [Hno Hok1]; [done|split; [split|]; done|done|].
  destruct (pfor (subhabit_ids hk) (delete_habit n) s) as [[[]|e] s1] eqn:Hp; simpl in *; [|done].
  unfold on_habits. simpl. done.
Qed.

(** ** Every request keeps the links forward *)

Lemma request_effect_links_ok rl req s :
  links_ok s -> request_fresh s req -> links_ok (request_effect rl req s).
Proof.
  intros Hok Hfresh. pose proof Hok as [[Hnd Hid] Hl].
  destruct req as [p fid now| |k|k u|k|k p fid now|k p fid now|k st en|k st en];
    simpl in Hfresh |- *; try done.
  - (* [POST /habits]: the new habit goes last, without links. *)
    unfold Services.create_habit, on_habits. simpl.
    split; [by apply (InMemoryHabitRepository_set_wf (Controllers.new_habit fid now p _))|].
    simpl. rewrite dict_set_new by (by apply dict_get_None).
    by apply links_forward_app_leaf.
  - (* [PUT]: the links of the habit do not change. *)
    unfold Services.update_habit, read_habit, on_habits, pbind, praise, pret. simpl.
    unfold InMemoryHabitRepository_get.
    destruct (dict_get k (habit_storage (habit_repo s))) as [h|] eqn:Hk; simpl; [|done].
    destruct (apply_update_fields u h) as (Hid' & _ & _ & _ & Hsubs & _).
    unfold InMemoryHabitRepository_update. rewrite Hid', (Hid k h Hk).
    rewrite decide_False by (apply dict_get_Some_key in Hk; naive_solver). simpl.
    split; [rewrite <- (Hid k h Hk), <- Hid'; by apply InMemoryHabitRepository_set_wf|].
    apply links_forward_set_same; [done| |by eapply dict_get_Some_key].
    intros h0 Hh0. rewrite Hk in Hh0. injection Hh0 as <-. done.
  - (* [DELETE]: the store only loses entries. *)
    destruct (delete_habit_outcome shrinks shrinks_delete rl k s (proj1 Hok)) as [_ (_ & Hwf' & Hsh)].
    by eapply links_ok_shrinks.
  - (* [POST .../subhabits]: the new habit goes last, its parent links it. *)
    unfold Services.add_subhabit, read_habit, on_habits, pbind, praise, pret. simpl.
    unfold InMemoryHabitRepository_get.
    destruct (dict_get k (habit_storage (habit_repo s))) as [hp|] eqn:Hk; simpl; [|done].
    pose proof (Hid k hp Hk) as Hhp.
    assert (Hfid : fid ∉ fst <$> habit_storage (habit_repo s)) by (by apply dict_get_None).
    unfold InMemoryHabitRepository_update. simpl. rewrite Hhp.
    rewrite decide_False.
    2:{ rewrite dict_keys_set, decide_False by done. pose proof (dict_get_Some_key _ _ _ Hk). set_solver. }
    set (sub' := set_parent_id (Controllers.new_habit fid now p (Some k)) k).
    set (hp' := set_subhabit_ids hp (subhabit_ids hp ++ [fid])).
    assert (Hwf1 : InMemoryHabitRepository_wf
                     {| habit_storage := dict_set fid sub' (habit_storage (habit_repo s)) |})
      by exact (InMemoryHabitRepository_set_wf sub' _ (proj1 Hok)).
    assert (Hwf2 : InMemoryHabitRepository_wf
                     {| habit_storage := dict_set k hp' (dict_set fid sub' (habit_storage (habit_repo s))) |})
      by (rewrite <- Hhp; exact (InMemoryHabitRepository_set_wf hp' _ Hwf1)).
    split; [exact Hwf2|]. simpl. rewrite (dict_set_new fid sub') by done.
    apply links_forward_add_sub; [done|done|done|set_solver|done].
  - (* [POST .../logs]: only the log store changes. *)
    unfold Services.record_log, read_habit, on_logs, pbind, praise, pret. simpl.
    by destruct (InMemoryHabitRepository_get k (habit_repo s)).
Qed.

(** ** The states the API reaches *)

(** From the empty stores of [build_app], any sequence of requests whose
    drawn ids are new, each served on its own day. *)
Inductive api_reachable (rl : nat) : InMemoryService -> Prop :=
| api_reachable_init :
    api_reachable rl (mkHabitService InMemoryHabitRepository_init InMemoryLogRepository_init)
| api_reachable_step today req s :
    api_reachable rl s -> request_fresh s req ->
    api_reachable rl (handle _calculators rl today req s).2.

Lemma api_reachable_links_ok rl s : api_reachable rl s -> links_ok s.
Proof.
  induction 1 as [|today req s _ IH Hfresh].
  - split; [split; [constructor|done]|done].
  - rewrite handle_state. case_decide; [by apply request_effect_links_ok|done].
Qed.

(** C24: in every state the API reaches, a sub-habit link between two
    stored habits goes from a habit to one stored after it (of lower
    [rank]): the sub-habit graph has no cycle. *)
Theorem api_links_acyclic rl s p hp c hc :
  api_reachable rl s ->
  repo_get p (habit_repo s) = Some hp -> c ∈ subhabit_ids hp -> repo_get c (habit_repo s) = Some hc ->
  rank (habit_storage (habit_repo s)) c < rank (habit_storage (habit_repo s)) p.
Proof.
  intros Hr Hp Hc Hhc. destruct (api_reachable_links_ok rl s Hr) as [[Hnd _] Hl].
  apply (rank_link [] _ p hp c Hl Hnd Hp Hc). by eapply dict_get_Some_key.
Qed.

(** C25: in every state the API reaches, [DELETE /habits/{id}] with a
    recursion limit above the number of habits never answers 500:
    [delete_habit] does not reach the limit. *)
Theorem api_delete_within_limit rl today k s :
  api_reachable rl s -> length (habit_storage (habit_repo s)) + 1 ≤ rl ->
  (Services.delete_habit rl k s).1 ≠ Raise RecursionError ∧
  status_code_of (handle _calculators rl today (DeleteHabit k) s).1 ≠ 500.
Proof.
  intros Hr Hrl. pose proof (api_reachable_links_ok rl s Hr) as Hok.
  assert (Hno : (Services.delete_habit rl k s).1 ≠ Raise RecursionError).
  { apply delete_habit_no_recursion_error; [done|]. unfold delete_bound. case_decide; [|lia].
    pose proof (rank_lt_length _ _ H). lia. }
  split; [done|]. unfold handle. rewrite decide_True by done.
  unfold route, Controllers.delete_habit, Controllers.catch_value_error, pbind, pret.
  destruct (delete_habit_outcome shrinks shrinks_delete rl k s (proj1 Hok)) as [Hout _].
  destruct (Services.delete_habit rl k s) as [res s']. simpl in Hout, Hno |- *.
  by destruct Hout as [->|[->| ->]].
Qed.

(** ** Witnesses: a parent and a sub-habit created through the API *)

Definition payload_run : HabitCreate := mkHabitCreate "Run" None None BOOLEAN None None.
Definition api_s0 : InMemoryService :=
  mkHabitService InMemoryHabitRepository_init InMemoryLogRepository_init.
Definition api_s1 : InMemoryService :=
  (handle _calculators 1000 738000 (PostHabit payload_run "p" 0) api_s0).2.
Definition api_s2 : InMemoryService :=
  (handle _calculators 1000 738000 (PostSubhabit "p" payload_run "c" 1) api_s1).2.

Lemma api_s2_reachable : api_reachable 1000 api_s2.
Proof.
  apply api_reachable_step; [|reflexivity].
  apply api_reachable_step; [constructor|reflexivity].
Qed.

Lemma api_links_acyclic_witness :
  rank (habit_storage (habit_repo api_s2)) "c" < rank (habit_storage (habit_repo api_s2)) "p".
Proof.
  eapply (api_links_acyclic 1000 api_s2 "p" _ "c" _ api_s2_reachable); [reflexivity| |reflexivity].
  simpl. set_solver.
Defined.

Lemma api_delete_within_limit_witness :
  (Services.delete_habit 1000 "p" api_s2).1 ≠ Raise RecursionError ∧
  status_code_of (handle _calculators 1000 738000 (DeleteHabit "p") api_s2).1 ≠ 500.
Proof.
  apply (api_delete_within_limit 1000 738000 "p" api_s2 api_s2_reachable).
  vm_compute. lia.
Defined.
