(* ===== verification/Backends.v ===== *)
(** * Backends: the application over the in-memory and the SQLite stores

    [src/main.py] builds the same [HabitService] and the same router over
    either pair of stores.  This file relates the two: [svc_agree] says
    that the SQLite tables hold the in-memory contents, in order, and
    [sim P RA c1 c2] that two runs of the service, [c1] over the in-memory
    stores and [c2] over SQLite, started in agreeing states where [P]
    holds, return results related by [RA] (the same exception when they
    raise) and end in agreeing states.  The combinators [sim_bind],
    [sim_seq] and [sim_read_habit] compose such runs the way the service
    methods compose the store calls, so each method is related to itself
    in a few lines; the controllers, [route] and [handle] follow, and
    [serve] runs a whole sequence of requests.

    The results are the same except for two reads: SQLite may list the
    entries of one date in another order ([ORDER BY date] leaves ties to
    the query plan), so the bodies of [GET /habits/{id}/logs] are
    permutations of each other with the same sequence of dates, and the
    average of [GET /habits/{id}/stats], a float [sum] rounded after each
    addition, is the average of the same values summed in an order that
    may differ ([body_rel], [habit_stats_reordered]). *)

From S2P Require Import Prelude Models Streaks Statistics Dict Repository Services SQLite SQLiteLog Api.

Abbreviation SQLiteService := (HabitService SQLiteHabitRepository SQLiteLogRepository).

(** Two lists of entries an [ORDER BY date] may both give. *)
Definition logs_rel (l1 l2 : list LogEntry) : Prop :=
  l2 ≡ₚ l1 ∧ log_date <$> l2 = log_date <$> l1.

(** Two results of [get_statistics] over entries in two orders. *)
Definition stats_rel (p1 p2 : string * StatisticsResult) : Prop :=
  p1.1 = p2.1 ∧ stats_reordered p1.2 p2.2.

(** Two [HabitStats] bodies that differ at most by the order in which
    the average summed the same values. *)
Definition habit_stats_reordered (s1 s2 : HabitStats) : Prop :=
  stats_habit_id s1 = stats_habit_id s2 ∧
  stats_current_streak s1 = stats_current_streak s2 ∧
  stats_longest_streak s1 = stats_longest_streak s2 ∧
  stats_total_completions s1 = stats_total_completions s2 ∧
  stats_completion_rate s1 = stats_completion_rate s2 ∧
  stats_total_days_tracked s1 = stats_total_days_tracked s2 ∧
  ∃ vs1 vs2, vs1 ≡ₚ vs2 ∧ stats_average_value s1 = average_of vs1 ∧
             stats_average_value s2 = average_of vs2.

(** Two response bodies the two backends may give for one request. *)
Definition body_rel (b1 b2 : Body) : Prop :=
  match b1, b2 with
  | BLogs ls1, BLogs ls2 => ls2 ≡ₚ ls1 ∧ logread_date <$> ls2 = logread_date <$> ls1
  | BStats s1, BStats s2 => s1 = s2 ∨ habit_stats_reordered s1 s2
  | _, _ => b1 = b2
  end.

Definition response_rel (r1 r2 : Response Body) : Prop :=
  match r1, r2 with
  | Success c1 b1, Success c2 b2 => c1 = c2 ∧ body_rel b1 b2
  | _, _ => r1 = r2
  end.

Section Sim.
Context `{OrderByDateLaws}.

(** The SQLite habit table is well formed and both pairs of stores hold
    the same contents in the same order. *)
Definition svc_agree (sm : InMemoryService) (ss : SQLiteService) : Prop :=
  SQLiteHabitRepository_wf (habit_repo ss) ∧
  habit_stores_agree (habit_repo sm) (habit_repo ss) ∧
  log_stores_agree (log_repo sm) (log_repo ss).

Definition sim {A B} (P : InMemoryService -> Prop) (RA : A -> B -> Prop)
    (c1 : PyM InMemoryService A) (c2 : PyM SQLiteService B) : Prop :=
  ∀ sm ss, svc_agree sm ss -> P sm -> res_rel RA (c1 sm).1 (c2 ss).1 ∧ svc_agree (c1 sm).2 (c2 ss).2.

Lemma sim_pret P {A B} (RA : A -> B -> Prop) a b : RA a b -> sim P RA (pret a) (pret b).
Proof. intros Ha sm ss Hag _. done. Qed.

Lemma sim_praise P {A B} (RA : A -> B -> Prop) e : sim P RA (praise e) (praise e).
Proof. intros sm ss Hag _. done. Qed.

Lemma sim_weaken P Q {A B} (RA : A -> B -> Prop) c1 c2 :
  (∀ s, Q s -> P s) -> sim P RA c1 c2 -> sim Q RA c1 c2.
Proof. intros HQ Hs sm ss Hag Hq. by apply Hs, HQ. Qed.

(** Sequencing, where the second run may rely on [Q] of the state the
    first one leaves. *)
Lemma sim_seq P Q {A B C D} (RA : A -> B -> Prop) (RB : C -> D -> Prop) c1 c2 k1 k2 :
  sim P RA c1 c2 -> (∀ sm ss, svc_agree sm ss -> P sm -> Q (c1 sm).2) ->
  (∀ a b, RA a b -> sim Q RB (k1 a) (k2 b)) ->
  sim P RB (pbind c1 k1) (pbind c2 k2).
Proof.
  intros Hc HQ Hk sm ss Hag Hp. unfold pbind.
  pose proof (HQ sm ss Hag Hp) as Hq. destruct (Hc sm ss Hag Hp) as [Hr Hag'].
  destruct (c1 sm) as [[a|e1] sm'], (c2 ss) as [[b|e2] ss']; simpl in *; try done.
  by apply Hk.
Qed.

Lemma sim_bind P {A B C D} (RA : A -> B -> Prop) (RB : C -> D -> Prop) c1 c2 k1 k2 :
  sim P RA c1 c2 -> (∀ a b, RA a b -> sim (λ _, True) RB (k1 a) (k2 b)) ->
  sim P RB (pbind c1 k1) (pbind c2 k2).
Proof. intros Hc Hk. by apply (sim_seq P (λ _, True) RA). Qed.

(** A lookup answers alike in both stores, and the continuation may rely
    on its answer. *)
Lemma sim_read_habit P {C D} (RB : C -> D -> Prop) k k1 k2 :
  (∀ o, sim (λ s, P s ∧ repo_get k (habit_repo s) = o) RB (k1 o) (k2 o)) ->
  sim P RB (pbind (read_habit k) k1) (pbind (read_habit k) k2).
Proof.
  intros Hk sm ss Hag Hp. unfold pbind, read_habit. simpl.
  pose proof (habit_stores_agree_get _ _ k (proj1 (proj2 Hag))) as Hg. simpl in Hg.
  rewrite <- Hg. by apply Hk.
Qed.

(** One write of the habit store that the in-memory state allows. *)
Lemma sim_habit_op P op :
  (∀ sm ss, svc_agree sm ss -> P sm -> service_write (habit_repo sm) op) ->
  sim P eq (on_habits (run_habit_op op)) (on_habits (run_habit_op op)).
Proof.
  intros Hop sm ss Hag Hp. pose proof (Hop sm ss Hag Hp) as Hw. destruct Hag as (Hwf & Hh & Hl).
  destruct (habit_stores_step _ _ op Hwf Hh Hw) as (Hres & Hwf' & Hh').
  unfold on_habits. destruct (run_habit_op op (habit_repo sm)) as [r1 m'],
    (run_habit_op op (habit_repo ss)) as [r2 s']. simpl in *. subst r2.
  split; [by destruct r1 as [[]|]|done].
Qed.

Lemma sim_pfor P {X} (l : list X) f1 f2 :
  (∀ x, sim (λ _, True) eq (f1 x) (f2 x)) -> sim P eq (pfor l f1) (pfor l f2).
Proof.
  intros Hf. apply (sim_weaken (λ _, True)); [done|]. induction l as [|x l IH]; simpl.
  - by apply sim_pret.
  - apply sim_bind with (RA := eq); [apply Hf|]. intros ?? _. exact IH.
Qed.

Lemma svc_agree_wf sm ss : svc_agree sm ss -> repo_wf (habit_repo sm).
Proof. intros (Hwf & Hh & _). change (InMemoryHabitRepository_wf (habit_repo sm)). by apply (habit_stores_agree_wf _ _ Hwf Hh). Qed.
End Sim.

Lemma sim_mono P {A B} (RA RB : A -> B -> Prop) c1 c2 :
  (∀ a b, RA a b -> RB a b) -> sim P RA c1 c2 -> sim P RB c1 c2.
Proof.
  intros Hm Hs sm ss Hag Hp. destruct (Hs sm ss Hag Hp) as [Hr Hag'].
  split; [|done]. destruct (c1 sm).1, (c2 ss).1; simpl in *; auto.
Qed.

(** ** The service methods *)

Section Methods.
Context `{OrderByDateLaws}.

Lemma sim_log_add P log :
  valid_log log -> (∀ s, P s -> log_id log ∉ log_id <$> list_all (log_repo s)) ->
  sim P eq (on_logs (log_repo_add log)) (on_logs (log_repo_add log)).
Proof.
  intros Hd Hf sm ss (Hwf & Hh & Hl) Hp.
  destruct (log_stores_agree_add _ _ log Hl Hd (Hf sm Hp)) as [Ha Hl'].
  unfold on_logs. simpl. rewrite Ha. done.
Qed.

Lemma read_logs_sim P k start end_ :
  opt_valid_date start = true -> opt_valid_date end_ = true ->
  sim P logs_rel (read_logs k start end_) (read_logs k start end_).
Proof.
  intros Hst Hen sm ss Hag _. split; [|done].
  by apply list_for_habit_backends; [apply Hag| |].
Qed.

Lemma list_habits_sim P : sim P eq list_habits list_habits.
Proof. intros sm ss Hag _. split; [|done]. by apply habit_stores_agree_list, Hag. Qed.

Lemma create_habit_sim h :
  sim (λ s, repo_get (habit_id h) (habit_repo s) = None) eq (create_habit h) (create_habit h).
Proof. apply (sim_habit_op _ (HAdd h)). by intros sm ss _ Hn. Qed.

Lemma update_habit_sim P k upd : sim P eq (update_habit k upd) (update_habit k upd).
Proof.
  apply sim_read_habit. intros [h|]; [|apply sim_praise].
  apply sim_bind with (RA := eq); [|intros ?? ->; by apply sim_pret].
  apply (sim_habit_op _ (HUpdate (apply_update upd h))).
  intros sm ss Hag [_ Hk] h0. cbn [service_write]. destruct (apply_update_fields upd h) as (Hid & _).
  rewrite Hid, (repo_get_id k h (habit_repo sm) (svc_agree_wf _ _ Hag) Hk), Hk.
  intros [= <-]. apply apply_update_same_row.
Qed.

Lemma delete_habit_sim P fuel k : sim P eq (delete_habit fuel k) (delete_habit fuel k).
Proof.
  apply (sim_weaken (λ _, True)); [done|]. revert k.
  induction fuel as [|fuel IH]; intros k; simpl; [apply sim_praise|].
  apply sim_read_habit. intros [h|]; [|apply sim_praise].
  apply sim_bind with (RA := eq); [by apply sim_pfor|].
  intros ?? _. by apply (sim_habit_op _ (HDelete k)).
Qed.

Lemma add_subhabit_sim p sub :
  sim (λ s, repo_get (habit_id sub) (habit_repo s) = None) eq (add_subhabit p sub) (add_subhabit p sub).
Proof.
  apply sim_read_habit. intros [hp|]; [|apply sim_praise].
  apply (sim_seq _ (λ s, repo_get p (habit_repo s) = Some hp)) with (RA := eq).
  - apply (sim_habit_op _ (HAdd (set_parent_id sub p))). by intros sm ss _ [Hsub _].
  - intros sm ss Hag [Hsub Hp].
    destruct (repo_add_fresh (set_parent_id sub p) (habit_repo sm)) as (r' & Ha & _ & Hg);
      [exact (svc_agree_wf _ _ Hag)|exact Hsub|].
    unfold on_habits. rewrite Ha. simpl. rewrite Hg, decide_False; [exact Hp|].
    intros Heq. simpl in Heq. rewrite <- Heq in Hsub. congruence.
  - intros ?? _. apply sim_bind with (RA := eq); [|intros ?? ->; by apply sim_pret].
    apply (sim_habit_op _ (HUpdate (set_subhabit_ids hp (subhabit_ids hp ++ [habit_id sub])))).
    intros sm ss Hag Hp h0. cbn [service_write habit_id set_subhabit_ids].
    rewrite (repo_get_id p hp (habit_repo sm) (svc_agree_wf _ _ Hag) Hp), Hp.
    intros [= <-]. by split_and!.
Qed.

Lemma record_log_sim fresh_id now k d v :
  valid_date d = true ->
  sim (λ s, fresh_id ∉ log_id <$> list_all (log_repo s)) eq
    (record_log fresh_id now k d v) (record_log fresh_id now k d v).
Proof.
  intros Hd. apply sim_read_habit. intros [h|]; [|apply sim_praise].
  apply sim_bind with (RA := eq); [|intros ?? ->; by apply sim_pret].
  apply sim_log_add; [done|]. by intros s [Hf _].
Qed.

Lemma get_logs_sim P k start end_ :
  opt_valid_date start = true -> opt_valid_date end_ = true ->
  sim P logs_rel (get_logs k start end_) (get_logs k start end_).
Proof.
  intros Hst Hen. apply sim_read_habit. intros [h|]; [|apply sim_praise].
  by apply read_logs_sim.
Qed.

Lemma get_statistics_sim P today k start end_ :
  opt_valid_date start = true -> opt_valid_date end_ = true ->
  sim P stats_rel (get_statistics _calculators today k start end_)
    (get_statistics _calculators today k start end_).
Proof.
  intros Hst Hen. apply sim_read_habit. intros [h|]; [|apply sim_praise].
  apply sim_bind with (RA := logs_rel); [by apply read_logs_sim|].
  intros l1 l2 [Hp _] sm ss Hag _. unfold pbind, plift, pret. simpl.
  destruct (get_calculator _calculators (type h)) as [c|e] eqn:Hc; simpl; [|done].
  pose proof (calculate_perm _ c today h l1 l2 start end_ Hc (symmetry Hp)) as Hr.
  destruct (calculate c today h l1 start end_), (calculate c today h l2 start end_);
    simpl in *; done.
Qed.
End Methods.

(** ** The controllers and the router *)

Lemma body_rel_refl b : body_rel b b.
Proof. destruct b; simpl; auto. Qed.

Lemma response_rel_refl r : response_rel r r.
Proof. destruct r as [c b|c d]; simpl; [split; [done|apply body_rel_refl]|done]. Qed.

(** The relation two [map_response F] results must be in. *)
Abbreviation mapped_rel F := (λ r1 r2, response_rel (map_response F r1) (map_response F r2)).

Section Routes.
Context `{OrderByDateLaws}.

Lemma sim_catch P {A B C D} (RA : A -> B -> Prop) (RB : Response C -> Response D -> Prop)
    code f g c1 c2 :
  sim P RA c1 c2 -> (∀ a b, RA a b -> RB (Success code (f a)) (Success code (g b))) ->
  (∀ msg, RB (HTTPException 404 msg) (HTTPException 404 msg)) ->
  sim P RB (Controllers.catch_value_error code f c1) (Controllers.catch_value_error code g c2).
Proof.
  intros Hc Hs H404 sm ss Hag Hp. unfold Controllers.catch_value_error.
  destruct (Hc sm ss Hag Hp) as [Hr Hag'].
  destruct (c1 sm) as [[a|e1] sm'], (c2 ss) as [[b|e2] ss']; simpl in *; try done.
  - split; [by apply Hs|done].
  - subst e2. destruct e1; simpl; done.
Qed.

(** A controller whose two runs give the same response. *)
Lemma sim_same_response P {A} (F : A -> Body) c1 c2 :
  sim P eq c1 c2 -> sim P (mapped_rel F) c1 c2.
Proof. apply sim_mono. intros ?? ->. apply response_rel_refl. Qed.

Lemma get_logs_controller_sim P k start end_ :
  opt_valid_date start = true -> opt_valid_date end_ = true ->
  sim P (mapped_rel BLogs) (Controllers.get_logs k start end_) (Controllers.get_logs k start end_).
Proof.
  intros Hst Hen. apply sim_catch with (RA := logs_rel); [by apply get_logs_sim| |done].
  intros l1 l2 [Hp Hd]. simpl. split; [done|]. split; [by rewrite Hp|].
  rewrite <- !list_fmap_compose. exact Hd.
Qed.

(** Every route over the two backends, for a request that parses and
    whose drawn ids are new in the in-memory stores. *)
Lemma route_sim rl today req :
  request_valid req ->
  sim (λ s, request_fresh s req) response_rel
    (route _calculators rl today req) (route _calculators rl today req).
Proof.
  intros Hv. destruct req as [p fid now| |k|k u|k|k p fid now|k p fid now|k st en|k st en];
    simpl in Hv; unfold route;
    (eapply sim_bind; [|intros r1 r2 Hr; apply sim_pret; exact Hr]).
  - apply sim_same_response. unfold Controllers.create_habit.
    apply sim_bind with (RA := eq); [|intros ?? _; by apply sim_pret].
    eapply sim_weaken; [|apply create_habit_sim]. by intros s Hs.
  - apply sim_same_response. unfold Controllers.list_habits.
    apply sim_bind with (RA := eq); [apply list_habits_sim|intros ?? ->; by apply sim_pret].
  - apply sim_same_response. apply sim_read_habit. intros [h|]; by apply sim_pret.
  - apply sim_same_response. apply sim_catch with (RA := eq); [apply update_habit_sim|by intros ?? ->|done].
  - apply sim_same_response. apply sim_catch with (RA := eq); [apply delete_habit_sim|by intros ?? ->|done].
  - apply sim_same_response. apply sim_catch with (RA := eq); [|by intros ?? ->|done].
    eapply sim_weaken; [|apply add_subhabit_sim]. by intros s Hs.
  - apply sim_same_response. apply sim_catch with (RA := eq); [|by intros ?? ->|done].
    eapply sim_weaken; [|by apply record_log_sim]. by intros s Hs.
  - by apply get_logs_controller_sim; apply Hv.
  - apply sim_catch with (RA := stats_rel); [by apply get_statistics_sim; apply Hv| |done].
    intros [k1 r1] [k2 r2] [Hk (? & ? & ? & ? & ? & Havg)]. simpl in *.
    split; [done|]. right. by split_and!.
Qed.

(** [handle]: the same status for a request that does not parse, and a
    500 on both sides when the handler raises. *)
Lemma handle_sim rl today req sm ss :
  svc_agree sm ss -> request_fresh sm req ->
  response_rel (handle _calculators rl today req sm).1 (handle _calculators rl today req ss).1 ∧
  svc_agree (handle _calculators rl today req sm).2 (handle _calculators rl today req ss).2.
Proof.
  intros Hag Hf. unfold handle. case_decide as Hv; [|done].
  destruct (route_sim rl today req Hv sm ss Hag Hf) as [Hr Hag'].
  destruct (route _ _ _ req sm) as [[r1|e1] sm'], (route _ _ _ req ss) as [[r2|e2] ss'];
    simpl in *; done.
Qed.
End Routes.

(** ** Sequences of requests *)

(** The application serving requests one after the other, each on its
    own day, from the state the previous one left. *)
Section Serve.
Context {R L : Type} `{!HabitRepository R, !LogRepository L}.

Fixpoint serve (rl : nat) (reqs : list (date * Request)) (s : HabitService R L)
    : list (Response Body) * HabitService R L :=
  match reqs with
  | [] => ([], s)
  | (today, req) :: reqs' =>
      let '(r, s') := handle _calculators rl today req s in
      let '(rs, s'') := serve rl reqs' s' in
      (r :: rs, s'')
  end.
End Serve.

(** The ids each [POST] draws are new in the state it meets. *)
Fixpoint requests_fresh (rl : nat) (reqs : list (date * Request)) (s : InMemoryService) : Prop :=
  match reqs with
  | [] => True
  | (today, req) :: reqs' =>
      request_fresh s req ∧ requests_fresh rl reqs' (handle _calculators rl today req s).2
  end.

Section ServeSim.
Context `{OrderByDateLaws}.

Lemma serve_sim rl reqs sm ss :
  svc_agree sm ss -> requests_fresh rl reqs sm ->
  Forall2 response_rel (serve rl reqs sm).1 (serve rl reqs ss).1 ∧
  svc_agree (serve rl reqs sm).2 (serve rl reqs ss).2.
Proof.
  revert sm ss. induction reqs as [|[today req] reqs IH]; intros sm ss Hag Hf; simpl; [done|].
  destruct Hf as [Hf Hfs]. destruct (handle_sim rl today req sm ss Hag Hf) as [Hr Hag'].
  destruct (handle _ _ _ req sm) as [r1 sm'], (handle _ _ _ req ss) as [r2 ss']. simpl in *.
  destruct (IH sm' ss' Hag' Hfs) as [Hrs Hag''].
  destruct (serve rl reqs sm') as [rs1 sm''], (serve rl reqs ss') as [rs2 ss'']. simpl in *.
  split; [by constructor|done].
Qed.
End ServeSim.

(** ** Where the backends differ: an id that is already stored *)

Section Collision.
Context `{OrderByDateLaws}.

(** C33: the freshness premise of the simulation is needed.  The
    protocol does not say what [add] does with an id that is already
    stored: the in-memory store overwrites the habit ([self._storage
    [habit.id] = habit]) and [POST /habits] answers 201, while SQLite's
    primary key raises [IntegrityError] and the same request answers
    500, from stores that agree. *)
Theorem post_habit_id_collision rl today p fid now sm ss h :
  svc_agree sm ss -> HabitCreate_valid p -> repo_get fid (habit_repo sm) = Some h ->
  status_code_of (handle _calculators rl today (PostHabit p fid now) sm).1 = 201 ∧
  status_code_of (handle _calculators rl today (PostHabit p fid now) ss).1 = 500.
Proof.
  intros (Hwf & Hh & _) Hv Hk.
  assert (Hin : fid ∈ row_id <$> habits_table (habit_repo ss)).
  { rewrite <- (habit_stores_agree_ids _ _ Hh). by eapply dict_get_Some_key. }
  unfold handle. rewrite !(decide_True _ _ Hv).
  unfold route, Controllers.create_habit, Services.create_habit, on_habits, pbind, pret. simpl.
  unfold SQLiteHabitRepository_add. simpl. by rewrite (decide_True _ _ Hin).
Qed.
End Collision.

(** ** Witnesses *)

Definition habit_w : Habit := mkHabit "w" "Walk" None None BOOLEAN None 0 None [].
Definition payload_jog : HabitCreate := mkHabitCreate "Run" None None BOOLEAN None None.

Definition svc_w : InMemoryService :=
  mkHabitService {| habit_storage := [("w", habit_w)] |} InMemoryLogRepository_init.
Definition sqlite_w : SQLiteService :=
  mkHabitService {| habits_table := [habit_to_row habit_w] |} {| logs_table := [] |}.

Section Witnesses.
#[local] Existing Instance order_by_date_rowid.

Lemma svc_w_agree : svc_agree svc_w sqlite_w.
Proof.
  split_and!; [apply (bool_decide_unpack (SQLiteHabitRepository_wf (habit_repo sqlite_w))); by vm_compute| |split; constructor].
  repeat constructor.
Qed.

Lemma post_habit_id_collision_witness :
  status_code_of (handle _calculators 1000 738000 (PostHabit payload_jog "w" 0) svc_w).1 = 201 ∧
  status_code_of (handle _calculators 1000 738000 (PostHabit payload_jog "w" 0) sqlite_w).1 = 500.
Proof. apply (post_habit_id_collision _ _ _ _ _ _ _ habit_w svc_w_agree); [apply (bool_decide_unpack (HabitCreate_valid payload_jog)); by vm_compute|reflexivity]. Defined.
End Witnesses.
