(* ===== verification/Wiring.v ===== *)
(** * Wiring: [build_app] of [src/main.py]

    [build_app] reads two environment variables and builds the service
    over one of the two pairs of stores:
    - [USE_SQLITE], default ["false"], lower-cased by [str.lower] and
      compared with ["true"] ([use_sqlite]); so exactly the sixteen
      spellings of [true_spellings] choose SQLite;
    - [DB_PATH], default ["habits.db"], names the database file, which
      both SQLite stores open; their [_init_db] keeps the tables the file
      already holds ([CREATE TABLE IF NOT EXISTS]).
    The application is [App]: the service over the in-memory stores, or
    the path and the service over SQLite; [app_serve] serves a sequence of
    requests with [Api.handle] on it ([app.include_router(create_router
    (habit_service))]).

    The environment is the dict [os.environ] ([environ]); the files are a
    dict from paths to [database]s, the two tables a file may hold
    ([None] when it has no such table).  Python strings are modelled as
    strings of code points below 256, on which [str.lower] is [py_lower].

    Theorems: [build_app_backends_agree] (the two configurations answer
    alike from a file without rows, up to the order of one date's
    entries and the rounding of an average over them),
    [build_app_config] (which variables choose what), and
    [build_app_average_tie_order] (an average does differ with the tie
    order SQLite chooses). *)

From Stdlib Require Import Ascii.
From S2P Require Import Prelude Float64 Models Streaks Statistics Dict Repository Services SQLite SQLiteLog Api Backends.

(** ** The environment *)

Abbreviation environ := (@dict string string).

(** [os.getenv(key, default)] *)
Definition os_getenv (key d : string) (env : environ) : string :=
  from_option id d (dict_get key env).

(** [str.lower] on one code point below 256: the Latin capitals [A-Z]
    and [U+00C0-U+00DE] but [U+00D7] go to their small letters. *)
Definition char_lower (c : ascii) : ascii :=
  let n := nat_of_ascii c in
  if ((65 <=? n) && (n <=? 90)) || ((192 <=? n) && (n <=? 222) && negb (n =? 215))
  then ascii_of_nat (n + 32) else c.

Fixpoint py_lower (s : string) : string :=
  match s with
  | EmptyString => EmptyString
  | String c s' => String (char_lower c) (py_lower s')
  end.

(** [os.getenv("USE_SQLITE", "false").lower() == "true"] *)
Definition use_sqlite (env : environ) : bool :=
  String.eqb (py_lower (os_getenv "USE_SQLITE" "false" env)) "true".

Definition true_spellings : list string :=
  ["true"; "truE"; "trUe"; "trUE"; "tRue"; "tRuE"; "tRUe"; "tRUE";
   "True"; "TruE"; "TrUe"; "TrUE"; "TRue"; "TRuE"; "TRUe"; "TRUE"].

(** ** The database files *)

(** A file as the two [CREATE TABLE IF NOT EXISTS] leave it: each table
    is there with its rows, or not there. *)
Record database : Type := mkDatabase {
  db_habits : option (list habit_row);
  db_logs : option (list log_row)
}.

Definition empty_database : database := mkDatabase None None.

Abbreviation filesystem := (@dict string database).

(** [sqlite3.connect(db_path)] creates the file when there is none. *)
Definition db_open (fs : filesystem) (db_path : string) : database :=
  from_option id empty_database (dict_get db_path fs).

(** ** The application *)

Inductive App : Type :=
| InMemoryApp (s : InMemoryService)
| SQLiteApp (db_path : string) (s : SQLiteService).

Definition build_app (env : environ) (fs : filesystem) : App :=
  if use_sqlite env then
    let db_path := os_getenv "DB_PATH" "habits.db" env in
    let habit_repo := SQLiteHabitRepository_init (db_habits (db_open fs db_path)) in
    let log_repo := SQLiteLogRepository_init (db_logs (db_open fs db_path)) in
    SQLiteApp db_path (mkHabitService habit_repo log_repo)
  else
    InMemoryApp (mkHabitService InMemoryHabitRepository_init InMemoryLogRepository_init).

Section App.
Context `{OrderByDate}.

(** The router over the service the application holds. *)
Definition app_serve (rl : nat) (reqs : list (date * Request)) (a : App) : list (Response Body) * App :=
  match a with
  | InMemoryApp s => let '(rs, s') := serve rl reqs s in (rs, InMemoryApp s')
  | SQLiteApp db_path s => let '(rs, s') := serve rl reqs s in (rs, SQLiteApp db_path s')
  end.
End App.

(** ** [str.lower] and the spellings of ["true"] *)

(** The code points [str.lower] sends to [x] are [x] and [X]: checked
    over all 256. *)
Definition char_lower_preimage_ok (x X : ascii) : bool :=
  forallb (λ n, let c := ascii_of_nat n in
                negb (Ascii.eqb (char_lower c) x) || Ascii.eqb c x || Ascii.eqb c X)
          (seq 0 256).

Lemma char_lower_preimage c x X :
  char_lower_preimage_ok x X = true -> char_lower c = x -> c = x ∨ c = X.
Proof.
  intros Hok Hc. unfold char_lower_preimage_ok in Hok. rewrite forallb_forall in Hok.
  assert (Hin : In (nat_of_ascii c) (seq 0 256))
    by (apply in_seq; pose proof (nat_ascii_bounded c); lia).
  specialize (Hok _ Hin). simpl in Hok. rewrite ascii_nat_embedding, Hc, Ascii.eqb_refl in Hok.
  destruct (Ascii.eqb_spec c x); [by left|]. destruct (Ascii.eqb_spec c X); [by right|].
  discriminate Hok.
Qed.

Lemma py_lower_true s : py_lower s = "true" <-> s ∈ true_spellings.
Proof.
  split.
  - destruct s as [|c1 [|c2 [|c3 [|c4 [|c5 s]]]]]; simpl; try discriminate.
    intros [= H1 H2 H3 H4].
    apply char_lower_preimage with (X := "T"%char) in H1; [|by vm_compute].
    apply char_lower_preimage with (X := "R"%char) in H2; [|by vm_compute].
    apply char_lower_preimage with (X := "U"%char) in H3; [|by vm_compute].
    apply char_lower_preimage with (X := "E"%char) in H4; [|by vm_compute].
    destruct H1, H2, H3, H4; subst; apply list_elem_of_In; simpl;
      repeat first [left; reflexivity | right].
  - assert (Hall : Forall (λ s, py_lower s = "true") true_spellings) by repeat constructor.
    rewrite Forall_forall in Hall. apply Hall.
Qed.

Lemma use_sqlite_spellings env :
  use_sqlite env = true <-> ∃ v, dict_get "USE_SQLITE" env = Some v ∧ v ∈ true_spellings.
Proof.
  unfold use_sqlite, os_getenv. rewrite String.eqb_eq, py_lower_true.
  destruct (dict_get "USE_SQLITE" env) as [v|]; simpl.
  - split; [by eexists|]. by intros (? & [= <-] & ?).
  - split; [|by intros (? & ? & _)]. intros Hf. apply list_elem_of_In in Hf. simpl in Hf.
    repeat (destruct Hf as [Hf|Hf]; [discriminate Hf|]). destruct Hf.
Qed.

(** ** The stores [build_app] starts from *)

Section Start.
Context `{OrderByDateLaws}.

Lemma svc_agree_init habits logs :
  default [] habits = [] -> default [] logs = [] ->
  svc_agree (mkHabitService InMemoryHabitRepository_init InMemoryLogRepository_init)
            (mkHabitService (SQLiteHabitRepository_init habits) (SQLiteLogRepository_init logs)).
Proof.
  intros Hh Hl. unfold svc_agree, SQLiteHabitRepository_init, SQLiteLogRepository_init. simpl.
  rewrite Hh, Hl. split_and!; [split; constructor|constructor|split; constructor].
Qed.

Lemma app_serve_sqlite rl reqs p s :
  app_serve rl reqs (SQLiteApp p s) = ((serve rl reqs s).1, SQLiteApp p (serve rl reqs s).2).
Proof. simpl. by destruct (serve rl reqs s). Qed.

Lemma app_serve_memory rl reqs s :
  app_serve rl reqs (InMemoryApp s) = ((serve rl reqs s).1, InMemoryApp (serve rl reqs s).2).
Proof. simpl. by destruct (serve rl reqs s). Qed.
End Start.

(** A numeric habit logged three times on one day, with the values
    [0.1], [0.2] and [0.3], then asked for its statistics. *)
Definition payload_read : HabitCreate := mkHabitCreate "Read" None None NUMERIC None None.

Definition reqs_avg : list (date * Request) :=
  [(738000, PostHabit payload_read "r" 0);
   (738000, PostLog "r" (mkLogCreate 738000 (Some d0_1)) "l1" 1);
   (738000, PostLog "r" (mkLogCreate 738000 (Some d0_2)) "l2" 2);
   (738000, PostLog "r" (mkLogCreate 738000 (Some d0_3)) "l3" 3);
   (738000, GetStats "r" None None)]%Z.

Definition env_memory : environ := [].
Definition env_sqlite : environ := [("USE_SQLITE", "True"); ("DB_PATH", "/data/h.db")].

(** ** Theorems *)

(** C30: [build_app] gives the same application over either backend.
    Configured without SQLite, and with SQLite on a file that holds no
    habit and no log entry (a new file, or empty tables), the two
    applications answer every sequence of requests whose drawn ids are
    new with the same responses, but for the order of the entries of one
    date in a [GET /habits/{id}/logs] list and for an average that the
    same values summed in another order give ([response_rel]). *)
Theorem build_app_backends_agree `{OrderByDateLaws} rl reqs env_m env_s fs :
  use_sqlite env_m = false -> use_sqlite env_s = true ->
  default [] (db_habits (db_open fs (os_getenv "DB_PATH" "habits.db" env_s))) = [] ->
  default [] (db_logs (db_open fs (os_getenv "DB_PATH" "habits.db" env_s))) = [] ->
  requests_fresh rl reqs (mkHabitService InMemoryHabitRepository_init InMemoryLogRepository_init) ->
  Forall2 response_rel (app_serve rl reqs (build_app env_m fs)).1
                       (app_serve rl reqs (build_app env_s fs)).1.
Proof.
  intros Hm Hs Hh Hl Hf. unfold build_app. rewrite Hm, Hs, app_serve_memory, app_serve_sqlite.
  exact (proj1 (serve_sim rl reqs _ _ (svc_agree_init _ _ Hh Hl) Hf)).
Qed.

(** C31: the configuration.  [build_app] builds the SQLite stores
    exactly when [USE_SQLITE] is set to one of the sixteen spellings of
    ["true"] ([TRUE], [True], [tRuE], ...; unset means ["false"]), on the
    file [DB_PATH] names or ["habits.db"]; otherwise it builds empty
    in-memory stores, whatever the files hold. *)
Theorem build_app_config env fs :
  match build_app env fs with
  | SQLiteApp db_path _ =>
      (∃ v, dict_get "USE_SQLITE" env = Some v ∧ v ∈ true_spellings) ∧
      db_path = from_option id "habits.db" (dict_get "DB_PATH" env)
  | InMemoryApp s =>
      ¬ (∃ v, dict_get "USE_SQLITE" env = Some v ∧ v ∈ true_spellings) ∧
      s = mkHabitService InMemoryHabitRepository_init InMemoryLogRepository_init
  end.
Proof.
  unfold build_app. destruct (use_sqlite env) eqn:Hu.
  - split; [by apply use_sqlite_spellings|done].
  - split; [|done]. rewrite <- use_sqlite_spellings. congruence.
Qed.


(** ** Witnesses *)

Definition payload_walk : HabitCreate := mkHabitCreate "Walk" None None BOOLEAN None None.

(** Create a habit, log it twice on one day, list and count. *)
Definition reqs_W : list (date * Request) :=
  [(738000, PostHabit payload_walk "w" 0);
   (738000, PostLog "w" (mkLogCreate 738000 None) "l1" 1);
   (738000, PostLog "w" (mkLogCreate 738000 None) "l2" 2);
   (738001, GetLogs "w" None None);
   (738001, GetStats "w" None None)]%Z.

Section Witnesses.
#[local] Existing Instance order_by_date_reversed.

Lemma build_app_backends_agree_witness :
  use_sqlite env_memory = false ∧ use_sqlite env_sqlite = true ∧
  Forall2 response_rel (app_serve 1000 reqs_W (build_app env_memory [])).1
                       (app_serve 1000 reqs_W (build_app env_sqlite [])).1.
Proof.
  split_and!; [reflexivity|reflexivity|].
  apply (build_app_backends_agree 1000 reqs_W env_memory env_sqlite []);
    [reflexivity|reflexivity|reflexivity|reflexivity|].
  vm_compute. split_and!; try done; set_solver.
Defined.

End Witnesses.
